(** * geogen: the vector-to-raster overlay pipeline and the map.bin encoder

    A shallow embedding of [tools/geogen/cli.py] (and of its near-duplicate
    [tools/geogen/cli_enhance_river.py], which shares every function modelled
    here) together with the properties the specification states about it.

    Conventions.
    - Python [int] is [Z]; Python [float] is the kernel's IEEE-754 binary64
      type [float], whose operations round to nearest-even as CPython's do.
    - A Python call that may raise returns a [result]: [Ok v] or [Raise e].
    - Lists are Python lists; a grid is a list of columns ([grid[i][j]]).
    - [set] and [dict] values are stdpp's [gset] and [gmap]; where the code
      iterates a set, the iteration order is an explicit list. *)

From Stdlib Require Import ZArith List Bool Lia Floats String Ascii.
From stdpp Require Import base tactics option list list_numbers gmap sets strings.
Import ListNotations.

Open Scope Z_scope.

(* Decimal literals such as [0.45] denote the nearest binary64 value, as in
   Python. *)
Set Warnings "-inexact-float".

(* ===================================================================== *)
(** * Part I. The embedding                                               *)
(* ===================================================================== *)

(** ** Python primitives *)

Module Py.

(** The exceptions the modelled code can raise. *)
Inductive exn : Set :=
| OverflowError
| ValueError
| IndexError
| ZeroDivisionError.

Inductive result (A : Type) : Type :=
| Ok (a : A)
| Raise (e : exn).
Arguments Ok {A} a.
Arguments Raise {A} e.

#[export] Instance result_ret : MRet result := @Ok.
#[export] Instance result_bind : MBind result :=
  fun A B (f : A -> result B) (m : result A) =>
    match m with
    | Ok a => f a
    | Raise e => Raise e
    end.

(** [for x in xs: s = body(x, s)] *)
Fixpoint for_in {A S : Type} (xs : list A) (body : A -> S -> result S) (s : S)
  : result S :=
  match xs with
  | [] => Ok s
  | x :: rest => s' ← body x s; for_in rest body s'
  end.

(** [range(lo, hi)] and [range(n)]. *)
Definition range2 (lo hi : Z) : list Z := seqZ lo (hi - lo).
Definition range (n : Z) : list Z := range2 0 n.

(** [len(l)] *)
Definition len {A} (l : list A) : Z := Z.of_nat (length l).

(** [l[i]], with Python's negative indices. *)
Definition getitem {A} (l : list A) (i : Z) : result A :=
  let k := if i <? 0 then i + len l else i in
  if (0 <=? k) && (k <? len l) then
    match l !! Z.to_nat k with
    | Some x => Ok x
    | None => Raise IndexError
    end
  else Raise IndexError.

(** [l[i] = x] *)
Definition setitem {A} (l : list A) (i : Z) (x : A) : result (list A) :=
  let k := if i <? 0 then i + len l else i in
  if (0 <=? k) && (k <? len l) then Ok (<[Z.to_nat k := x]> l)
  else Raise IndexError.

(** [not l]: an empty list is false. *)
Definition falsy {A} (l : list A) : bool :=
  match l with
  | [] => true
  | _ :: _ => false
  end.

(** [seq * n]: repetition, empty when [n <= 0]. *)
Definition repeat_seq {A} (l : list A) (n : Z) : list A :=
  concat (replicate (Z.to_nat n) l).

(** The little-endian digits of [v] in base 256, [n] of them. *)
Fixpoint le_digits (n : nat) (v : Z) : list Z :=
  match n with
  | O => []
  | S n' => v mod 256 :: le_digits n' (v / 256)
  end.

(** [v.to_bytes(n, "little", signed=False)] *)
Definition to_bytes (n : nat) (v : Z) : result (list Z) :=
  if (v <? 0) || (2 ^ (8 * Z.of_nat n) <=? v) then Raise OverflowError
  else Ok (le_digits n v).

(** [bytearray.append(b)] *)
Definition bytearray_append (out : list Z) (b : Z) : result (list Z) :=
  if (0 <=? b) && (b <? 256) then Ok (out ++ [b]) else Raise ValueError.

(** The value a little-endian byte string denotes. *)
Fixpoint le_value (bs : list Z) : Z :=
  match bs with
  | [] => 0
  | b :: rest => b + 256 * le_value rest
  end.

End Py.
Export Py.

(** ** MapEncoder: [build_map_bin], [build_map_bin_from_grid] *)

Module Encoder.

Definition _le_u16 (v : Z) : result (list Z) := to_bytes 2 v.
Definition _le_u32 (v : Z) : result (list Z) := to_bytes 4 v.

(** The header both encoders emit: format byte, width, height, and the three
    section offsets. *)
Definition header (w h : Z) (include_heights : bool) : result (list Z) :=
  let tile_format := 2 in
  let header_len := 17 in
  let tiles_offset := header_len in
  let heights_offset := if negb include_heights then 0 else 3 * w * h + header_len in
  let resources_offset := (if include_heights then 4 else 3) * w * h + header_len in
  out ← bytearray_append [] tile_format;
  b ← _le_u16 w; let out := out ++ b in
  b ← _le_u16 h; let out := out ++ b in
  b ← _le_u32 tiles_offset; let out := out ++ b in
  b ← _le_u32 heights_offset; let out := out ++ b in
  b ← _le_u32 resources_offset; let out := out ++ b in
  Ok out.

(** The optional heights layer and the resources layer, all zero. *)
Definition trailer (w h : Z) (include_heights : bool) (out : list Z) : list Z :=
  let out := if include_heights then out ++ repeat_seq [0] (w * h) else out in
  out ++ repeat_seq [0; 0] (w * h).

Definition build_map_bin (width height : Z) (default_template_id default_variant : Z)
    (include_heights : bool) : result (list Z) :=
  let w := width in
  let h := height in
  out ← header w h include_heights;
  out ← for_in (range w) (fun i out =>
           for_in (range h) (fun j out =>
             b ← _le_u16 default_template_id;
             bytearray_append (out ++ b) (Z.land default_variant 255)) out) out;
  Ok (trailer w h include_heights out).

(** The shape validation loops: every column must have [h] entries. *)
Definition check_heights {A} (cols : list (list A)) (h : Z) : result unit :=
  for_in cols (fun col _ => if len col =? h then Ok tt else Raise ValueError) tt.

Definition build_map_bin_from_grid (tiles_type tiles_variant : list (list Z))
    (include_heights : bool) : result (list Z) :=
  if falsy tiles_type then Ok [] else
  col0 ← getitem tiles_type 0;
  if falsy col0 then Ok [] else
  let w := len tiles_type in
  let h := len col0 in
  _ ← check_heights tiles_type h;
  _ ← check_heights tiles_variant h;
  out ← header w h include_heights;
  out ← for_in (range w) (fun i out =>
           for_in (range h) (fun j out =>
             ct ← getitem tiles_type i;
             t ← getitem ct j;
             b ← _le_u16 t;
             cv ← getitem tiles_variant i;
             v ← getitem cv j;
             bytearray_append (out ++ b) (Z.land v 255)) out) out;
  Ok (trailer w h include_heights out).

End Encoder.


(** ** Python floats *)

Module PyFloat.

(** Neither an infinity nor a NaN. *)
Definition is_finite (x : float) : bool :=
  match Prim2SF x with
  | S754_zero _ | S754_finite _ _ _ => true
  | S754_infinity _ | S754_nan => false
  end.

(** [float(z)] on an [int]: the nearest binary64, ties to even. (CPython raises
    [OverflowError] beyond the binary64 range; the integers converted by the
    modelled code are list indices and cell counts.) *)
Definition of_int (z : Z) : float :=
  SF2Prim (binary_normalize prec emax z 0 false).

(** The magnitude [m * 2^e] cut to an integer towards zero. *)
Definition magnitude_trunc (m : positive) (e : Z) : Z :=
  match e with
  | Z0 => Zpos m
  | Zpos p => Zpos m * 2 ^ Zpos p
  | Zneg p => Zpos m / 2 ^ Zpos p
  end.

(** The magnitude [m * 2^e] rounded to the nearest integer, ties to even. *)
Definition magnitude_round (m : positive) (e : Z) : Z :=
  match e with
  | Z0 => Zpos m
  | Zpos p => Zpos m * 2 ^ Zpos p
  | Zneg p =>
      let d := 2 ^ Zpos p in
      let q := Zpos m / d in
      let r := Zpos m mod d in
      if 2 * r <? d then q
      else if d <? 2 * r then q + 1
      else if Z.even q then q else q + 1
  end.

Definition to_integer (round : positive -> Z -> Z) (x : float) : result Z :=
  match Prim2SF x with
  | S754_zero _ => Ok 0
  | S754_finite s m e => Ok (if s then - round m e else round m e)
  | S754_infinity _ => Raise OverflowError
  | S754_nan => Raise ValueError
  end.

(** [int(x)] on a [float]. *)
Definition trunc (x : float) : result Z := to_integer magnitude_trunc x.

(** [round(x)] on a [float]. *)
Definition round (x : float) : result Z := to_integer magnitude_round x.

(** [a / b] on floats. *)
Definition fdiv (a b : float) : result float :=
  if (b =? 0)%float then Raise ZeroDivisionError else Ok (a / b)%float.

(** [min(a, b)] and [max(a, b)]: the first argument unless the second is
    strictly smaller (larger). *)
Definition fmin (a b : float) : float := if (b <? a)%float then b else a.
Definition fmax (a b : float) : float := if (a <? b)%float then b else a.

(** [min(xs)] and [max(xs)] on a list. *)
Definition min_list (xs : list float) : result float :=
  match xs with
  | [] => Raise ValueError
  | x :: rest => Ok (fold_left fmin rest x)
  end.
Definition max_list (xs : list float) : result float :=
  match xs with
  | [] => Raise ValueError
  | x :: rest => Ok (fold_left fmax rest x)
  end.

(** The shared pseudo-random source: the floats [random.random()] will return
    and the indices [random.choice] will pick, with the number of draws made
    so far. Any sequence of draws is some [Rng]. *)
Record Rng := {
  next_random : nat -> float;
  next_choice : nat -> nat;
  cursor : nat;
}.

Definition advance (r : Rng) : Rng :=
  {| next_random := next_random r; next_choice := next_choice r; cursor := S (cursor r) |}.

(** [random.random()] *)
Definition random (r : Rng) : float * Rng := (next_random r (cursor r), advance r).

(** [random.choice(seq)] *)
Definition choice {A} (seq : list A) (r : Rng) : result (A * Rng) :=
  match seq !! (next_choice r (cursor r) mod length seq)%nat with
  | Some x => Ok (x, advance r)
  | None => Raise IndexError
  end.

(** [sorted(xs)] on floats: a stable insertion sort by [<]. *)
Fixpoint insert_sorted (x : float) (xs : list float) : list float :=
  match xs with
  | [] => [x]
  | y :: rest => if (x <? y)%float then x :: y :: rest else y :: insert_sorted x rest
  end.
Definition sort (xs : list float) : list float := fold_left (fun acc x => insert_sorted x acc) xs [].

End PyFloat.
Export PyFloat.

(** ** CoordinateMapper *)

Module Geo.

(** The geodesy collaborator (the [utm] package): latitude and longitude to
    easting, northing, zone number and zone letter, and back. *)
Class Utm := {
  from_latlon : float -> float -> float * float * Z * string;
  to_latlon : float -> float -> Z -> string -> float * float;
}.

(** [center["utm"]] *)
Record Center := {
  easting : float;
  northing : float;
  zone_number : Z;
  zone_letter : string;
}.

(** [bounds["bbox_utm"]] *)
Record Bounds := {
  min_e : float;
  max_e : float;
  min_n : float;
  max_n : float;
}.

Section Mapper.
Context `{Utm}.
Variables (center : Center) (bounds : Bounds) (mpc : float).

Definition _latlon_to_cell (lat lon : float) : result (option (float * float)) :=
  let '(e, n, zn, zl) := from_latlon lat lon in
  let czn := zone_number center in
  let czl := zone_letter center in
  if negb (zn =? czn) || negb (String.eqb zl czl) then Ok None
  else
    x ← fdiv (e - min_e bounds) mpc;
    y ← fdiv (max_n bounds - n) mpc;
    Ok (Some (x, y)).

Definition _cell_to_latlon (i j : Z) : float * float :=
  let e := (min_e bounds + (of_int i + 0.5) * mpc)%float in
  let n := (max_n bounds - (of_int j + 0.5) * mpc)%float in
  to_latlon e n (zone_number center) (zone_letter center).

(** [nodes_by_id.get(int(nid))] followed by the projection of each node that
    is known; nodes outside the zone of the area of interest are dropped. *)
Definition _assemble_way_nodes (way_nodes : list Z) (nodes_by_id : gmap Z (float * float))
  : result (list (float * float)) :=
  for_in way_nodes (fun nid coords =>
    match nodes_by_id !! nid with
    | None => Ok coords
    | Some npos =>
        cell ← _latlon_to_cell (fst npos) (snd npos);
        match cell with
        | Some c => Ok (coords ++ [c])
        | None => Ok coords
        end
    end) [].

End Mapper.
End Geo.

(** ** VectorRasterizer and TemplateStamper *)

Module Raster.

(** Template ids of the tileset. *)
Definition CLEAR_TEMPLATE_ID : Z := 255.
Definition WATER_TEMPLATE_ID : Z := 1.
Definition ROAD_TEMPLATE_ID : Z := 227.
Definition BEACH_TEMPLATE_ID : Z := 6.
Definition RIVER_TEMPLATE_VERT_CENTER : Z := 117.
Definition RIVER_TEMPLATE_HORIZ_TOP : Z := 121.
Definition RIVER_TEMPLATE_HORIZ_TOP_ALT : Z := 122.

Definition TEMPLATE_SIZES : gmap Z (Z * Z) :=
  {[ RIVER_TEMPLATE_VERT_CENTER := (3, 2);
     RIVER_TEMPLATE_HORIZ_TOP := (2, 2);
     RIVER_TEMPLATE_HORIZ_TOP_ALT := (2, 2);
     206 := (3, 3);
     207 := (3, 3) ]}.

Definition RIVER_TEMPLATE_IDS : gset Z :=
  {[ 112; 113; 114; 115; 116; 117; 118; 119; 120; 121; 122; 123; 124; 229; 230 ]}.

Definition RIVER_STAMP_SKIP_WATER_FRAC : float := 0.45.

Definition ROAD_BASE_TEMPLATE_IDS : gset Z := {[ 227; 228 ]}.
Definition ROAD_MULTI_TEMPLATE_IDS : gset Z := {[ 206; 207 ]}.
Definition ROAD_ALL_TEMPLATE_IDS : gset Z :=
  ROAD_BASE_TEMPLATE_IDS ∪ ROAD_MULTI_TEMPLATE_IDS.

(** A tile grid, column-major: [grid[i][j]] is column [i], row [j]. *)
Abbreviation Grid := (list (list Z)).

(** [grid[i][j]] *)
Definition grid_get (g : Grid) (i j : Z) : result Z :=
  col ← getitem g i; getitem col j.

(** [grid[i][j] = v] *)
Definition grid_set (g : Grid) (i j v : Z) : result Grid :=
  col ← getitem g i;
  col' ← setitem col j v;
  setitem g i col'.

(** [len(grid[0]) if len(grid) else 0] *)
Definition grid_height (g : Grid) : Z :=
  match g with
  | [] => 0
  | col0 :: _ => len col0
  end.

(** [0 <= i < w and 0 <= j < h] *)
Definition in_bounds (w h i j : Z) : bool :=
  (0 <=? i) && (i <? w) && (0 <=? j) && (j <? h).

(** [if grid[i][j] != value: grid[i][j] = value; set_count += 1] *)
Definition paint (i j value : Z) (st : Grid * Z) : result (Grid * Z) :=
  let '(grid, set_count) := st in
  old ← grid_get grid i j;
  if negb (old =? value) then
    grid' ← grid_set grid i j value; Ok (grid', set_count + 1)
  else Ok (grid, set_count).

Definition _draw_disc (grid : Grid) (cx cy radius_cells : float) (value : Z)
  : result (Grid * Z) :=
  let w := len grid in
  let h := grid_height grid in
  let r := fmax 0 radius_cells in
  let r2 := (r * r)%float in
  a ← trunc (cx - r); let xmin := Z.max 0 (a - 1) in
  a ← trunc (cx + r); let xmax := Z.min (w - 1) (a + 1) in
  a ← trunc (cy - r); let ymin := Z.max 0 (a - 1) in
  a ← trunc (cy + r); let ymax := Z.min (h - 1) (a + 1) in
  for_in (range2 xmin (xmax + 1)) (fun i st =>
    for_in (range2 ymin (ymax + 1)) (fun j st =>
      let dx := ((of_int i + 0.5) - cx)%float in
      let dy := ((of_int j + 0.5) - cy)%float in
      if (dx * dx + dy * dy <=? r2)%float then
        if in_bounds w h i j then paint i j value st else Ok st
      else Ok st) st) (grid, 0).

(** Does the horizontal ray from [(px, py)] cross the edge from [pj] to [pi]? *)
Definition edge_crosses (px py : float) (pi pj : float * float) : result bool :=
  let '(xi, yi) := pi in
  let '(xj, yj) := pj in
  if xorb (py <? yi)%float (py <? yj)%float then
    q ← fdiv ((xj - xi) * (py - yi))%float (yj - yi + 1e-9)%float;
    Ok (px <? q + xi)%float
  else Ok false.

Definition _point_in_poly (px py : float) (poly : list (float * float)) : result bool :=
  let n := len poly in
  if n <? 3 then Ok false
  else
    last ← getitem poly (-1);
    r ← for_in poly (fun pi (st : bool * (float * float)) =>
           let '(inside, pj) := st in
           c ← edge_crosses px py pi pj;
           Ok (if (c : bool) then negb inside else inside, pi)) (false, last);
    Ok (fst r).

Definition _fill_polygon (grid : Grid) (poly : list (float * float)) (value : Z)
  : result (Grid * Z) :=
  if falsy poly then Ok (grid, 0)
  else
    let w := len grid in
    let h := grid_height grid in
    let xs := map fst poly in
    let ys := map snd poly in
    m ← min_list xs; a ← trunc m; let xmin := Z.max 0 (a - 1) in
    m ← max_list xs; a ← trunc m; let xmax := Z.min (w - 1) (a + 1) in
    m ← min_list ys; a ← trunc m; let ymin := Z.max 0 (a - 1) in
    m ← max_list ys; a ← trunc m; let ymax := Z.min (h - 1) (a + 1) in
    for_in (range2 xmin (xmax + 1)) (fun i st =>
      for_in (range2 ymin (ymax + 1)) (fun j st =>
        let cx := (of_int i + 0.5)%float in
        let cy := (of_int j + 0.5)%float in
        b ← _point_in_poly cx cy poly;
        if (b : bool) then paint i j value st else Ok st) st) (grid, 0).

Definition _stamp_template (tiles_type tiles_variant : Grid) (i0 j0 template_id : Z)
  : result (Grid * Grid * Z) :=
  match TEMPLATE_SIZES !! template_id with
  | None => Ok (tiles_type, tiles_variant, 0)
  | Some (tw, th) =>
      let w := len tiles_type in
      let h := grid_height tiles_type in
      for_in (range th) (fun dy st =>
        for_in (range tw) (fun dx (st : Grid * Grid * Z) =>
          let '(tiles_type, tiles_variant, written) := st in
          let i := i0 + dx in
          let j := j0 + dy in
          if in_bounds w h i j then
            tiles_type' ← grid_set tiles_type i j template_id;
            tiles_variant' ← grid_set tiles_variant i j (dy * tw + dx);
            Ok (tiles_type', tiles_variant', written + 1)
          else Ok (tiles_type, tiles_variant, written)) st)
        (tiles_type, tiles_variant, 0)
  end.

(** The window scan of [_local_water_fraction]: the number of in-grid cells
    of the window and how many of them hold the water template. *)
Definition window_counts (tiles_type : Grid) (ci cj radius : Z) : result (Z * Z) :=
  let w := len tiles_type in
  let h := grid_height tiles_type in
  for_in (range2 (- radius) (radius + 1)) (fun dj st =>
    let j := cj + dj in
    if (j <? 0) || (h <=? j) then Ok st
    else
      for_in (range2 (- radius) (radius + 1)) (fun di (st : Z * Z) =>
        let '(total, water) := st in
        let i := ci + di in
        if (i <? 0) || (w <=? i) then Ok (total, water)
        else
          t ← grid_get tiles_type i j;
          Ok (total + 1, if t =? WATER_TEMPLATE_ID then water + 1 else water)) st)
    (0, 0).

Definition _local_water_fraction (tiles_type : Grid) (ci cj radius : Z) : result float :=
  let w := len tiles_type in
  let h := grid_height tiles_type in
  if (w =? 0) || (h =? 0) then Ok 0%float
  else
    '(total, water) ← window_counts tiles_type ci cj radius;
    if total =? 0 then Ok 0%float
    else fdiv (of_int water) (of_int total).

End Raster.


(** ** The overlay pipeline: river smoothing, classification, placement *)

Module Overlay.
Import Raster.

(** *** River smoothing pass *)

(** One sample [(ii, jj, orient)] of the pass; [orient] is 0 for a vertical
    and 1 for a horizontal stretch of waterway. *)
Definition river_sample (sample : Z * Z * Z) (st : Grid * Grid * Z)
  : result (Grid * Grid * Z) :=
  let '(ii, jj, orient) := sample in
  let '(tiles_type, tiles_variant, river_stamp_count) := st in
  t ← grid_get tiles_type ii jj;
  if negb (t =? WATER_TEMPLATE_ID) then Ok st
  else
    f ← _local_water_fraction tiles_type ii jj 4;
    if (RIVER_STAMP_SKIP_WATER_FRAC <? f)%float then Ok st
    else if orient =? 0 then
      r ← _stamp_template tiles_type tiles_variant (ii - 1) jj RIVER_TEMPLATE_VERT_CENTER;
      Ok (fst (fst r), snd (fst r), river_stamp_count + snd r)
    else
      let templ := if Z.land (ii + jj) 1 =? 0 then RIVER_TEMPLATE_HORIZ_TOP
                   else RIVER_TEMPLATE_HORIZ_TOP_ALT in
      r ← _stamp_template tiles_type tiles_variant ii jj templ;
      Ok (fst (fst r), snd (fst r), river_stamp_count + snd r).

(** The pass over [list(river_samples_set)]; [river_samples] is the set in its
    iteration order. *)
Definition river_smoothing_pass (include_water : bool) (river_samples : list (Z * Z * Z))
    (tiles_type tiles_variant : Grid) : result (Grid * Grid * Z) :=
  if include_water && negb (falsy river_samples) then
    for_in river_samples river_sample (tiles_type, tiles_variant, 0)
  else Ok (tiles_type, tiles_variant, 0).

(** *** OpenStreetMap elements *)

(** A member of a relation: [m["type"]], [m.get("role")], [m.get("ref")]. *)
Record Member := {
  member_type : string;
  member_role : option string;
  member_ref : option Z;
}.

(** An element of [osm_data["elements"]]; [tags] is [el.get("tags", {}) or {}]. *)
Inductive Element :=
| Node (id : Z) (lat lon : float)
| Way (id : Z) (nodes : list Z) (tags : gmap string string)
| Relation (id : Z) (members : list Member) (tags : gmap string string).

(** [s.lower()] on ASCII text. *)
Definition ascii_lower (c : ascii) : ascii :=
  let n := nat_of_ascii c in
  if ((65 <=? n) && (n <=? 90))%nat then ascii_of_nat (n + 32) else c.
Fixpoint lower (s : string) : string :=
  match s with
  | EmptyString => EmptyString
  | String c rest => String (ascii_lower c) (lower rest)
  end.

(** [nodes_by_id]: the position of every node element, later entries winning. *)
Definition collect_nodes (elements : list Element) : gmap Z (float * float) :=
  fold_left (fun m el =>
               match el with
               | Node id lat lon => <[id := (lat, lon)]> m
               | _ => m
               end) elements ∅.

(** [ways_by_id]: every way element by id, later entries winning. *)
Definition collect_ways (elements : list Element)
  : gmap Z (list Z * gmap string string) :=
  fold_left (fun m el =>
               match el with
               | Way id nodes tags => <[id := (nodes, tags)]> m
               | _ => m
               end) elements ∅.

(** *** Forest and built-up classification *)

Definition is_forest (tags : gmap string string) : bool :=
  bool_decide (tags !! "natural"%string = Some "wood"%string)
  || bool_decide (tags !! "landuse"%string = Some "forest"%string)
  || bool_decide (tags !! "landcover"%string = Some "trees"%string).

Definition is_builtup (tags : gmap string string) : bool :=
  bool_decide (lower (default ""%string (tags !! "landuse"%string))
               ∈ ["residential"; "industrial"; "commercial"]%string).

(** [p != q] on coordinate pairs. *)
Definition pair_ne (p q : float * float) : bool :=
  negb ((fst p =? fst q)%float && (snd p =? snd q)%float).

(** [if ring[0] != ring[-1]: ring = ring + [ring[0]]] *)
Definition close_ring (ring : list (float * float)) : result (list (float * float)) :=
  first ← getitem ring 0;
  last ← getitem ring (-1);
  Ok (if pair_ne first last then ring ++ [first] else ring).

(** The innermost statement of the classification loop. *)
Definition mark_cell (forest_tag builtup_tag : bool) (ring : list (float * float))
    (i j : Z) (st : gset (Z * Z) * gset (Z * Z)) : result (gset (Z * Z) * gset (Z * Z)) :=
  let '(forest_cells, builtup_cells) := st in
  let cx := (of_int i + 0.5)%float in
  let cy := (of_int j + 0.5)%float in
  b ← _point_in_poly cx cy ring;
  if (b : bool) then
    if forest_tag then Ok ({[ (i, j) ]} ∪ forest_cells, builtup_cells)
    else if builtup_tag then Ok (forest_cells, {[ (i, j) ]} ∪ builtup_cells)
    else Ok st
  else Ok st.

Section Classifier.
Context `{Geo.Utm}.
Variables (center : Geo.Center) (bounds : Geo.Bounds) (mpc : float).
Variables (tiles_type : Grid) (nodes_by_id : gmap Z (float * float)).

(** One iteration of the loop over [osm_data["elements"]]. *)
Definition classify_element (el : Element) (st : gset (Z * Z) * gset (Z * Z))
  : result (gset (Z * Z) * gset (Z * Z)) :=
  match el with
  | Way _ nodes tags =>
      if decide (tags = ∅) then Ok st
      else if is_forest tags || is_builtup tags then
        ring ← Geo._assemble_way_nodes center bounds mpc nodes nodes_by_id;
        if 3 <=? len ring then
          ring ← close_ring ring;
          let w := len tiles_type in
          let h := grid_height tiles_type in
          let xs := map fst ring in
          let ys := map snd ring in
          m ← min_list xs; a ← trunc m; let xmin := Z.max 0 (a - 1) in
          m ← max_list xs; a ← trunc m; let xmax := Z.min (w - 1) (a + 1) in
          m ← min_list ys; a ← trunc m; let ymin := Z.max 0 (a - 1) in
          m ← max_list ys; a ← trunc m; let ymax := Z.min (h - 1) (a + 1) in
          for_in (range2 xmin (xmax + 1)) (fun i st =>
            for_in (range2 ymin (ymax + 1)) (fun j st =>
              mark_cell (is_forest tags) (is_builtup tags) ring i j st) st) st
        else Ok st
      else Ok st
  | _ => Ok st
  end.

(** The forest and built-up cell sets: the polygons of the feature
    collection, then the auxiliary land-cover masks
    [(builtup_cells, forest_pref_cells)] when supplied. *)
Definition classify (elements : list Element)
    (worldcover_masks : option (gset (Z * Z) * gset (Z * Z)))
  : result (gset (Z * Z) * gset (Z * Z)) :=
  st ← for_in elements classify_element (∅, ∅);
  let '(forest_cells, builtup_cells) := st in
  match worldcover_masks with
  | Some (wc_built, wc_forest_pref) =>
      Ok (forest_cells ∪ wc_forest_pref, builtup_cells ∪ wc_built)
  | None => Ok (forest_cells, builtup_cells)
  end.

End Classifier.

(** *** Placed actors *)

Inductive ActorKind : Set := Bld | Tree.

(** An entry of [extra_actors]: [<kind><index>: <actor_type>] at [location].
    [dims] is the footprint under which the actor was placed ([(1, 1)] for a
    tree). *)
Record Actor := {
  kind : ActorKind;
  index : Z;
  actor_type : string;
  location : Z * Z;
  dims : Z * Z;
}.

(** *** Building placement *)

(** A row of the placement audit. *)
Record AuditRow := {
  audit_id_type : string;
  audit_osm_id : Z;
  audit_placed : bool;
  audit_reason : string;
  audit_dims : Z * Z;
  audit_bbox : Z * Z;
}.

(** The variables the building stage updates. *)
Record BState := {
  placed_b : Z;
  total_osm_b : Z;
  audit_rows : list AuditRow;
  extra_actors : list Actor;
  occupied_cells : gset (Z * Z);
  rng : Rng;
}.

Definition by_dims (d : Z * Z) : option (list string) :=
  if decide (d = (1, 1)) then Some ["LHUS"]%string
  else if decide (d = (1, 2)) then Some ["RUSHOUSE"]%string
  else if decide (d = (2, 1)) then Some ["V22"; "V26"; "V30"; "V31"; "V32"; "V33"]%string
  else if decide (d = (2, 2)) then Some ["V20"; "V21"; "V24"; "V25"]%string
  else None.

(** The cells [(i0 + dx, j0 + dy)] of a [w_] x [h_] footprint, in scan order. *)
Definition footprint_cells (i0 j0 w_ h_ : Z) : list (Z * Z) :=
  dx ← range w_; dy ← range h_; [(i0 + dx, j0 + dy)].

(** The scan of [_can_place]: no cell is water, river, beach or occupied. *)
Fixpoint cells_free (tiles_type : Grid) (occupied_cells : gset (Z * Z))
    (cs : list (Z * Z)) : result bool :=
  match cs with
  | [] => Ok true
  | (ii, jj) :: rest =>
      t ← grid_get tiles_type ii jj;
      if t =? WATER_TEMPLATE_ID then Ok false
      else if bool_decide (t ∈ RIVER_TEMPLATE_IDS) then Ok false
      else if t =? BEACH_TEMPLATE_ID then Ok false
      else if bool_decide ((ii, jj) ∈ occupied_cells) then Ok false
      else cells_free tiles_type occupied_cells rest
  end.

Definition _dims_with_fallbacks (w_fit h_fit : Z) (mode : string) : list (Z * Z) :=
  let seq := [(w_fit, h_fit)] in
  if bool_decide (mode ∈ ["fallback"; "aggressive"]%string) then
    let opts :=
      if decide ((w_fit, h_fit) = (2, 2)) then [(2, 1); (1, 2); (1, 1)]
      else if bool_decide ((w_fit, h_fit) ∈ [(2, 1); (1, 2)]) then [(1, 1)]
      else [] in
    fold_left (fun seq d => if bool_decide (d ∈ seq) then seq else seq ++ [d]) opts seq
  else seq.

Section Buildings.
Variables (width height : Z) (tiles_type : Grid).
Variables (building_density : float) (max_buildings building_search_radius : Z).
Variable (building_placement_mode : string).

Definition _can_place (occupied_cells : gset (Z * Z)) (i0 j0 w_ h_ : Z) : result bool :=
  if (i0 <? 0) || (j0 <? 0) || (width <=? i0 + w_ - 1) || (height <=? j0 + h_ - 1)
  then Ok false
  else cells_free tiles_type occupied_cells (footprint_cells i0 j0 w_ h_).

(** The body of [if _can_place(ci, cj, wf, hf):]: pick the actor, emit it,
    mark its cells occupied and count it. *)
Definition commit_building (actor_choices : list string) (ci cj wf hf : Z) (st : BState)
  : result BState :=
  c ← choice actor_choices (rng st);
  let '(chosen_actor, rng') := c in
  Ok {| placed_b := placed_b st + 1;
        total_osm_b := total_osm_b st;
        audit_rows := audit_rows st;
        extra_actors := extra_actors st ++
          [{| kind := Bld; index := placed_b st; actor_type := chosen_actor;
              location := (ci, cj); dims := (wf, hf) |}];
        occupied_cells := list_to_set (footprint_cells ci cj wf hf) ∪ occupied_cells st;
        rng := rng' |}.

(** The loop over [di]: stops at the first place that fits. The flag is
    [placed_here]. *)
Fixpoint scan_di (actor_choices : list string) (ai aj wf hf dj : Z) (dis : list Z)
    (st : BState) : result (BState * bool) :=
  match dis with
  | [] => Ok (st, false)
  | di :: rest =>
      let ci := ai + di in
      let cj := aj + dj in
      ok ← _can_place (occupied_cells st) ci cj wf hf;
      if (ok : bool) then
        st' ← commit_building actor_choices ci cj wf hf st; Ok (st', true)
      else scan_di actor_choices ai aj wf hf dj rest st
  end.

(** The loop over [dj]. *)
Fixpoint scan_dj (actor_choices : list string) (ai aj wf hf : Z) (dis djs : list Z)
    (st : BState) (placed_here : bool) : result (BState * bool) :=
  match djs with
  | [] => Ok (st, placed_here)
  | dj :: rest =>
      if placed_here then Ok (st, placed_here)
      else
        r ← scan_di actor_choices ai aj wf hf dj dis st;
        scan_dj actor_choices ai aj wf hf dis rest (fst r) (snd r)
  end.

(** The loop over the footprint fallbacks; returns the state, [placed_here]
    and [chosen_dims]. *)
Fixpoint scan_dims (ai aj local_r : Z) (dims_list : list (Z * Z)) (st : BState)
    (chosen_dims : Z * Z) : result (BState * bool * (Z * Z)) :=
  match dims_list with
  | [] => Ok (st, false, chosen_dims)
  | (wf, hf) :: rest =>
      match by_dims (wf, hf) with
      | None | Some [] => scan_dims ai aj local_r rest st chosen_dims
      | Some actor_choices =>
          let window := range2 (- local_r) (local_r + 1) in
          r ← scan_dj actor_choices ai aj wf hf window window st false;
          let st' := fst r in
          let placed_here : bool := snd r in
          let chosen_dims := if placed_here then (wf, hf) else chosen_dims in
          if (max_buildings <=? placed_b st') || placed_here
          then Ok (st', placed_here, chosen_dims)
          else scan_dims ai aj local_r rest st' chosen_dims
      end
  end.

Definition add_audit (row : AuditRow) (st : BState) : BState :=
  {| placed_b := placed_b st; total_osm_b := total_osm_b st;
     audit_rows := audit_rows st ++ [row]; extra_actors := extra_actors st;
     occupied_cells := occupied_cells st; rng := rng st |}.

Definition _place_from_bbox (id_type : string) (osm_id : Z) (xs ys : list float)
    (st : BState) : result BState :=
  if max_buildings <=? placed_b st then Ok st
  else
    let st := {| placed_b := placed_b st; total_osm_b := total_osm_b st + 1;
                 audit_rows := audit_rows st; extra_actors := extra_actors st;
                 occupied_cells := occupied_cells st; rng := rng st |} in
    let '(draw, rng') := random (rng st) in
    let st := {| placed_b := placed_b st; total_osm_b := total_osm_b st;
                 audit_rows := audit_rows st; extra_actors := extra_actors st;
                 occupied_cells := occupied_cells st; rng := rng' |} in
    if (fmax 0 (fmin 1 building_density) <? draw)%float then
      Ok (add_audit {| audit_id_type := id_type; audit_osm_id := osm_id;
                       audit_placed := false; audit_reason := "density_skip";
                       audit_dims := (0, 0); audit_bbox := (0, 0) |} st)
    else if falsy xs || falsy ys then
      Ok (add_audit {| audit_id_type := id_type; audit_osm_id := osm_id;
                       audit_placed := false; audit_reason := "no_coords";
                       audit_dims := (0, 0); audit_bbox := (0, 0) |} st)
    else
      min_x ← min_list xs; max_x ← max_list xs;
      min_y ← min_list ys; max_y ← max_list ys;
      a ← round (max_x - min_x); let bbox_w := Z.max 1 a in
      a ← round (max_y - min_y); let bbox_h := Z.max 1 a in
      let w_fit := Z.max 1 (Z.min 2 bbox_w) in
      let h_fit := Z.max 1 (Z.min 2 bbox_h) in
      ai ← round ((min_x + max_x) / 2 - of_int w_fit / 2)%float;
      aj ← round ((min_y + max_y) / 2 - of_int h_fit / 2)%float;
      let ai := Z.max 0 (Z.min (width - w_fit) ai) in
      let aj := Z.max 0 (Z.min (height - h_fit) aj) in
      let mode := if String.eqb building_placement_mode "" then "accurate"%string
                  else building_placement_mode in
      let base_r := Z.max 0 building_search_radius in
      let local_r := base_r * (if String.eqb mode "aggressive" then 2 else 1) in
      let dims_list := _dims_with_fallbacks w_fit h_fit mode in
      r ← scan_dims ai aj local_r dims_list st (w_fit, h_fit);
      let st := fst (fst r) in
      let placed_here : bool := snd (fst r) in
      let chosen_dims := snd r in
      if placed_here then
        Ok (add_audit {| audit_id_type := id_type; audit_osm_id := osm_id;
                         audit_placed := true; audit_reason := "ok";
                         audit_dims := chosen_dims; audit_bbox := (bbox_w, bbox_h) |} st)
      else
        Ok (add_audit {| audit_id_type := id_type; audit_osm_id := osm_id;
                         audit_placed := false; audit_reason := "search_fail";
                         audit_dims := (w_fit, h_fit); audit_bbox := (bbox_w, bbox_h) |} st).

(** A building candidate as the two passes hand it to [_place_from_bbox]:
    the kind and id of its feature and the cell coordinates of its nodes. *)
Record Candidate := {
  cand_id_type : string;
  cand_osm_id : Z;
  cand_xs : list float;
  cand_ys : list float;
}.

(** A pass over the candidates of one kind; it stops at the cap. *)
Fixpoint building_pass (candidates : list Candidate) (st : BState) : result BState :=
  match candidates with
  | [] => Ok st
  | c :: rest =>
      if max_buildings <=? placed_b st then Ok st
      else
        st' ← _place_from_bbox (cand_id_type c) (cand_osm_id c) (cand_xs c) (cand_ys c) st;
        building_pass rest st'
  end.

(** The building stage: way candidates, then relation candidates, from no
    actor emitted, no building placed and no cell occupied. *)
Definition building_stage (include_buildings : bool) (ways relations : list Candidate)
    (rng0 : Rng) : result BState :=
  let st0 := {| placed_b := 0; total_osm_b := 0; audit_rows := [];
                extra_actors := []; occupied_cells := ∅; rng := rng0 |} in
  if include_buildings then
    st ← building_pass ways st0;
    building_pass relations st
  else Ok st0.

End Buildings.

(** *** Vegetation placement *)

(** The variables the vegetation loop updates. *)
Record VState := {
  placed : Z;
  skipped_water : Z;
  skipped_built : Z;
  skipped_road_adj : Z;
  skipped_bld_adj : Z;
  skipped_spacing : Z;
  skipped_tiletype : Z;
  veg_actors : list Actor;
  veg_occupied : gset (Z * Z);
  veg_rng : Rng;
}.

Definition tree_types : list string :=
  ["t01"; "t02"; "t03"; "t05"; "t06"; "t07"; "t08"; "t10"; "t11"; "t12"; "t13"]%string.

(** [patch_counts[key] = patch_counts.get(key, 0) + 1] on a dictionary kept in
    insertion order. *)
Fixpoint dict_incr (key : Z * Z) (d : list ((Z * Z) * Z)) : list ((Z * Z) * Z) :=
  match d with
  | [] => [(key, 1)]
  | (k, v) :: rest =>
      if decide (k = key) then (k, v + 1) :: rest else (k, v) :: dict_incr key rest
  end.

(** Is some cell of the [(2r+1) x (2r+1)] window around [(i, j)] in [cells]?
    (The flagged double loop with [break].) *)
Definition near (cells : gset (Z * Z)) (i j r : Z) : bool :=
  existsb (fun di =>
    existsb (fun dj => bool_decide ((i + di, j + dj) ∈ cells))
            (range2 (- r) (r + 1)))
    (range2 (- r) (r + 1)).

Section Vegetation.
Variables (width height : Z) (tiles_type : Grid).
Variables (veg_density : float) (max_veg_actors veg_min_spacing veg_patch_size : Z).
Variables (veg_patch_boost : float) (suppress_veg_near_roads suppress_veg_near_buildings : Z).
Variables (builtup_cells road_cells occupied_cells : gset (Z * Z)).

Definition target : Z := max_veg_actors.
Definition base_prob : float := fmax 0 (fmin 1 veg_density).
Definition spacing : Z := Z.max 0 veg_min_spacing.
Definition road_r : Z := Z.max 0 suppress_veg_near_roads.
Definition bld_r : Z := Z.max 0 suppress_veg_near_buildings.
Definition ps : Z := Z.max 1 veg_patch_size.

(** [forest_iter] is [forest_cells] in its iteration order. *)
Definition patch_counts (forest_iter : list (Z * Z)) : list ((Z * Z) * Z) :=
  fold_left (fun d c => dict_incr (fst c / ps, snd c / ps) d) forest_iter [].

Definition patch_totals : gmap (Z * Z) Z :=
  let max_pi := (width + ps - 1) / ps in
  let max_pj := (height + ps - 1) / ps in
  fold_left (fun m pi =>
    fold_left (fun m pj =>
      let w_rem := Z.min ps (width - pi * ps) in
      let h_rem := Z.min ps (height - pj * ps) in
      <[(pi, pj) := Z.max 1 (w_rem * h_rem)]> m) (range max_pj) m)
    (range max_pi) ∅.

(** [cnt / float(patch_totals.get(key, ps * ps))] *)
Definition patch_density (key : Z * Z) (cnt : Z) : result float :=
  fdiv (of_int cnt) (of_int (default (ps * ps) (patch_totals !! key))).

(** The density of every non-empty patch, in dictionary order. *)
Definition densities (counts : list ((Z * Z) * Z)) : result (list float) :=
  for_in counts (fun kc acc => x ← patch_density (fst kc) (snd kc); Ok (acc ++ [x])) [].

Definition high_patches (forest_iter : list (Z * Z)) : result (gset (Z * Z)) :=
  let counts := patch_counts forest_iter in
  ds ← densities counts;
  let sorted := sort ds in
  median ← (if falsy sorted then Ok 0%float else getitem sorted (len sorted / 2));
  for_in counts (fun kc acc =>
      x ← patch_density (fst kc) (snd kc);
      Ok (if (median <=? x)%float then {[ fst kc ]} ∪ acc else acc)) ∅.

(** The body of the loop over the forest cells, past the cap check. *)
Definition veg_cell (high : gset (Z * Z)) (c : Z * Z) (st : VState) : result VState :=
  let '(i, j) := c in
  t ← grid_get tiles_type i j;
  if t =? WATER_TEMPLATE_ID then
    Ok {| placed := placed st; skipped_water := skipped_water st + 1;
          skipped_built := skipped_built st; skipped_road_adj := skipped_road_adj st;
          skipped_bld_adj := skipped_bld_adj st; skipped_spacing := skipped_spacing st;
          skipped_tiletype := skipped_tiletype st; veg_actors := veg_actors st;
          veg_occupied := veg_occupied st; veg_rng := veg_rng st |}
  else if bool_decide (t ∈ RIVER_TEMPLATE_IDS) || (t =? BEACH_TEMPLATE_ID)
          || bool_decide (t ∈ ROAD_ALL_TEMPLATE_IDS) then
    Ok {| placed := placed st; skipped_water := skipped_water st;
          skipped_built := skipped_built st; skipped_road_adj := skipped_road_adj st;
          skipped_bld_adj := skipped_bld_adj st; skipped_spacing := skipped_spacing st;
          skipped_tiletype := skipped_tiletype st + 1; veg_actors := veg_actors st;
          veg_occupied := veg_occupied st; veg_rng := veg_rng st |}
  else if bool_decide ((i, j) ∈ builtup_cells) then
    Ok {| placed := placed st; skipped_water := skipped_water st;
          skipped_built := skipped_built st + 1; skipped_road_adj := skipped_road_adj st;
          skipped_bld_adj := skipped_bld_adj st; skipped_spacing := skipped_spacing st;
          skipped_tiletype := skipped_tiletype st; veg_actors := veg_actors st;
          veg_occupied := veg_occupied st; veg_rng := veg_rng st |}
  else
    let pi := i / ps in
    let pj := j / ps in
    let prob := (base_prob * (if bool_decide ((pi, pj) ∈ high) then veg_patch_boost else 1))%float in
    let prob := if (1 <? prob)%float then 1%float else prob in
    let '(draw, rng') := random (veg_rng st) in
    if (prob <? draw)%float then
      Ok {| placed := placed st; skipped_water := skipped_water st;
            skipped_built := skipped_built st; skipped_road_adj := skipped_road_adj st;
            skipped_bld_adj := skipped_bld_adj st; skipped_spacing := skipped_spacing st;
            skipped_tiletype := skipped_tiletype st; veg_actors := veg_actors st;
            veg_occupied := veg_occupied st; veg_rng := rng' |}
    else if (0 <? road_r) && near road_cells i j road_r then
      Ok {| placed := placed st; skipped_water := skipped_water st;
            skipped_built := skipped_built st; skipped_road_adj := skipped_road_adj st + 1;
            skipped_bld_adj := skipped_bld_adj st; skipped_spacing := skipped_spacing st;
            skipped_tiletype := skipped_tiletype st; veg_actors := veg_actors st;
            veg_occupied := veg_occupied st; veg_rng := rng' |}
    else if (0 <? bld_r) && near occupied_cells i j bld_r then
      Ok {| placed := placed st; skipped_water := skipped_water st;
            skipped_built := skipped_built st; skipped_road_adj := skipped_road_adj st;
            skipped_bld_adj := skipped_bld_adj st + 1; skipped_spacing := skipped_spacing st;
            skipped_tiletype := skipped_tiletype st; veg_actors := veg_actors st;
            veg_occupied := veg_occupied st; veg_rng := rng' |}
    else if (0 <? spacing) && near (veg_occupied st) i j spacing then
      Ok {| placed := placed st; skipped_water := skipped_water st;
            skipped_built := skipped_built st; skipped_road_adj := skipped_road_adj st;
            skipped_bld_adj := skipped_bld_adj st; skipped_spacing := skipped_spacing st + 1;
            skipped_tiletype := skipped_tiletype st; veg_actors := veg_actors st;
            veg_occupied := veg_occupied st; veg_rng := rng' |}
    else
      pick ← choice tree_types rng';
      Ok {| placed := placed st + 1; skipped_water := skipped_water st;
            skipped_built := skipped_built st; skipped_road_adj := skipped_road_adj st;
            skipped_bld_adj := skipped_bld_adj st; skipped_spacing := skipped_spacing st;
            skipped_tiletype := skipped_tiletype st;
            veg_actors := veg_actors st ++
              [{| kind := Tree; index := placed st; actor_type := fst pick;
                  location := (i, j); dims := (1, 1) |}];
            veg_occupied := {[ (i, j) ]} ∪ veg_occupied st;
            veg_rng := snd pick |}.

(** The loop over the forest cells; it stops at the cap. *)
Fixpoint veg_loop (high : gset (Z * Z)) (forest_iter : list (Z * Z)) (st : VState)
  : result VState :=
  match forest_iter with
  | [] => Ok st
  | c :: rest =>
      if target <=? placed st then Ok st
      else st' ← veg_cell high c st; veg_loop high rest st'
  end.

(** The vegetation stage, from no tree placed. The trees the code appends to
    the shared [extra_actors] list are the list [veg_actors]. *)
Definition vegetation_stage (include_vegetation : bool) (forest_iter : list (Z * Z))
    (rng0 : Rng) : result VState :=
  let st0 := {| placed := 0; skipped_water := 0; skipped_built := 0;
                skipped_road_adj := 0; skipped_bld_adj := 0; skipped_spacing := 0;
                skipped_tiletype := 0; veg_actors := []; veg_occupied := ∅;
                veg_rng := rng0 |} in
  if include_vegetation then
    high ← high_patches forest_iter;
    veg_loop high forest_iter st0
  else Ok st0.

End Vegetation.

End Overlay.

(** ** Vocabulary of the specification *)

Module Spec.

(** A [w] x [h] grid: [w] columns of [h] entries each. *)
Definition rectangular {A} (w h : Z) (g : list (list A)) : Prop :=
  len g = w /\ Forall (fun col => len col = h) g.

(** Every entry fits an unsigned 16-bit field. *)
Definition fits_u16 (g : list (list Z)) : Prop :=
  Forall (Forall (fun t => 0 <= t < 65536)) g.

(** The 17-byte header of section 4.7 without a heights layer: format version,
    width and height (uint16), tiles offset 17, heights offset 0 and resources
    offset [3*w*h + 17] (uint32), all little-endian. *)
Definition expected_header (w h : Z) : list Z :=
  [2] ++ le_digits 2 w ++ le_digits 2 h
      ++ le_digits 4 17 ++ le_digits 4 0 ++ le_digits 4 (3 * w * h + 17).

(** The bytes one tile contributes: template id (uint16), variant (byte). *)
Definition tile_bytes (t v : Z) : list Z := le_digits 2 t ++ [Z.land v 255].

(** Entry [(i, j)] of a grid that holds it. *)
Definition cell_at (g : list (list Z)) (i j : Z) : Z :=
  (g !!! Z.to_nat i) !!! Z.to_nat j.

(** Entry [(i, j)] of a grid, for indices from 0 up. *)
Definition lookup2 (g : list (list Z)) (i j : Z) : option Z :=
  col ← g !! Z.to_nat i; col !! Z.to_nat j.

(** The grid with entry [(i, j)] replaced by [v]. *)
Definition upd (g : list (list Z)) (i j v : Z) : list (list Z) :=
  alter (fun col => <[Z.to_nat j := v]> col) (Z.to_nat i) g.

(** The number of cells at which two grids of one shape differ. *)
Definition column_changes (c c' : list Z) : nat :=
  length (filter (fun p => fst p <> snd p) (zip c c')).
Definition changed_cells (g g' : list (list Z)) : Z :=
  Z.of_nat (sum_list (zip_with column_changes g g')).

(** The cells a pair of nested loops visits, in order. *)
Definition cells_of (xs ys : list Z) : list (Z * Z) :=
  i ← xs; j ← ys; [(i, j)].

(** One iteration of a rasterising loop: paint the cell when [sel] selects it. *)
Definition paint_if (sel : Z -> Z -> result bool) (value : Z) (c : Z * Z)
    (st : list (list Z) * Z) : result (list (list Z) * Z) :=
  b ← sel (fst c) (snd c);
  if (b : bool) then Raster.paint (fst c) (snd c) value st else Ok st.

(** The cells scanned by [_draw_disc] and [_fill_polygon]: the bounding box
    [x0..x1] x [y0..y1] widened by one cell and clipped to the grid. *)
Definition window (w h : Z) (x0 x1 y0 y1 : float) : result (list (Z * Z)) :=
  a ← trunc x0; let xmin := Z.max 0 (a - 1) in
  a ← trunc x1; let xmax := Z.min (w - 1) (a + 1) in
  a ← trunc y0; let ymin := Z.max 0 (a - 1) in
  a ← trunc y1; let ymax := Z.min (h - 1) (a + 1) in
  Ok (cells_of (range2 xmin (xmax + 1)) (range2 ymin (ymax + 1))).

(** The cells [_draw_disc] paints: centre within the radius, inside the grid. *)
Definition disc_sel (w h : Z) (cx cy r2 : float) (i j : Z) : result bool :=
  let dx := ((of_int i + 0.5) - cx)%float in
  let dy := ((of_int j + 0.5) - cy)%float in
  Ok ((dx * dx + dy * dy <=? r2)%float && Raster.in_bounds w h i j).

(** The cells [_fill_polygon] paints: centre inside the ring. *)
Definition poly_sel (poly : list (float * float)) (i j : Z) : result bool :=
  if (0 <=? i) && (0 <=? j) then
    Raster._point_in_poly (of_int i + 0.5)%float (of_int j + 0.5)%float poly
  else Ok false.

(** No edge of the ring makes the crossing test divide by zero. *)
Fixpoint edges_defined (pj : float * float) (poly : list (float * float)) : bool :=
  match poly with
  | [] => true
  | pi :: rest =>
      negb (snd pj - snd pi + 1e-9 =? 0)%float && edges_defined pi rest
  end.
Definition ring_defined (poly : list (float * float)) : bool :=
  match last poly with
  | Some pl => edges_defined pl poly
  | None => true
  end.

(** Every coordinate of the ring is a finite number. *)
Definition finite_ring (poly : list (float * float)) : Prop :=
  Forall (fun p => is_finite (fst p) = true /\ is_finite (snd p) = true) poly.

(** The cells of the [(2r+1) x (2r+1)] window centred at [(ci, cj)] that lie
    inside a [w] x [h] grid. *)
Definition clipped_window (w h ci cj r : Z) : list (Z * Z) :=
  filter (fun c => Raster.in_bounds w h (fst c) (snd c) = true)
         (dj ← range2 (- r) (r + 1); di ← range2 (- r) (r + 1); [(ci + di, cj + dj)]).

(** How many of the cells [cs] hold the water template. *)
Definition water_cells_in (g : list (list Z)) (cs : list (Z * Z)) : Z :=
  len (filter (fun c => lookup2 g (fst c) (snd c) = Some Raster.WATER_TEMPLATE_ID) cs).

(** What the river smoothing pass does with a sample. *)
Inductive river_action : Set :=
| Skip
| Stamp (i0 j0 template_id : Z).

Definition apply_river_action (a : river_action) (st : list (list Z) * list (list Z) * Z)
  : result (list (list Z) * list (list Z) * Z) :=
  match a with
  | Skip => Ok st
  | Stamp i0 j0 template_id =>
      r ← Raster._stamp_template (fst (fst st)) (snd (fst st)) i0 j0 template_id;
      Ok (fst (fst r), snd (fst r), snd st + snd r)
  end.

(** The template and anchor for a sample that is stamped. *)
Definition river_stamp_for (ii jj orient : Z) : river_action :=
  if orient =? 0 then Stamp (ii - 1) jj Raster.RIVER_TEMPLATE_VERT_CENTER
  else if Z.even (ii + jj) then Stamp ii jj Raster.RIVER_TEMPLATE_HORIZ_TOP
  else Stamp ii jj Raster.RIVER_TEMPLATE_HORIZ_TOP_ALT.

(** The rule the code follows: stamp when the cell still holds water and the
    water fraction [water / total] of the clipped 9 x 9 window does not exceed
    0.45 = 9/20. *)
Definition river_rule (tt : list (list Z)) (w h ii jj orient : Z) : river_action :=
  let win := clipped_window w h ii jj 4 in
  if (cell_at tt ii jj =? Raster.WATER_TEMPLATE_ID)
     && (20 * water_cells_in tt win <=? 9 * len win)
  then river_stamp_for ii jj orient else Skip.

(** The rule as the specification words it: the fraction must be below 0.45. *)
Definition river_rule_below (tt : list (list Z)) (w h ii jj orient : Z) : river_action :=
  let win := clipped_window w h ii jj 4 in
  if (cell_at tt ii jj =? Raster.WATER_TEMPLATE_ID)
     && (20 * water_cells_in tt win <? 9 * len win)
  then river_stamp_for ii jj orient else Skip.

(** For every window size up to 81 cells, the floating-point test
    [RIVER_STAMP_SKIP_WATER_FRAC < float(water) / float(total)] decides the
    exact comparison [9/20 < water/total]. *)
Definition threshold_table_ok : bool :=
  forallb (fun total =>
    forallb (fun water =>
      negb (of_int total =? 0)%float
      && Bool.eqb (Raster.RIVER_STAMP_SKIP_WATER_FRAC <? of_int water / of_int total)%float
                  (9 * total <? 20 * water))
      (range 82))
    (range2 1 82).

(** What the river smoothing pass does with the sample [(ii, jj, orient)] in
    state [(tt, tv, cnt)]: it follows [river_rule]; a stamp is made exactly
    when the cell holds water and at most 9/20 of the clipped window is water;
    a vertical sample stamps the 3 x 2 template 117 anchored at [(ii-1, jj)],
    a horizontal one template 121 or 122 at [(ii, jj)] by the parity of
    [ii + jj]. *)
Definition river_sample_follows_rule (tt tv : list (list Z)) (w h ii jj orient cnt : Z)
  : Prop :=
  let win := clipped_window w h ii jj 4 in
  Overlay.river_sample (ii, jj, orient) (tt, tv, cnt)
  = apply_river_action (river_rule tt w h ii jj orient) (tt, tv, cnt) /\
  (river_rule tt w h ii jj orient <> Skip <->
     cell_at tt ii jj = Raster.WATER_TEMPLATE_ID /\
     20 * water_cells_in tt win <= 9 * len win) /\
  (river_rule tt w h ii jj orient <> Skip ->
     river_rule tt w h ii jj orient = river_stamp_for ii jj orient) /\
  (orient = 0 ->
     river_stamp_for ii jj orient = Stamp (ii - 1) jj 117 /\
     Raster.TEMPLATE_SIZES !! 117 = Some (3, 2)) /\
  (orient <> 0 -> Z.even (ii + jj) = true -> river_stamp_for ii jj orient = Stamp ii jj 121) /\
  (orient <> 0 -> Z.even (ii + jj) = false -> river_stamp_for ii jj orient = Stamp ii jj 122).

(** The cells of [cs] that [sel] selects, in order. *)
Fixpoint select (sel : Z -> Z -> result bool) (cs : list (Z * Z)) : result (list (Z * Z)) :=
  match cs with
  | [] => Ok []
  | c :: rest =>
      b ← sel (fst c) (snd c);
      r ← select sel rest;
      Ok (if (b : bool) then c :: r else r)
  end.

(** Is the centre of cell [(i, j)] inside the ring? *)
Definition centre_in (ring : list (float * float)) (i j : Z) : result bool :=
  Raster._point_in_poly (of_int i + 0.5)%float (of_int j + 0.5)%float ring.

(** The cells a ring covers on a grid: those of its clipped bounding box
    whose centre it contains. *)
Definition ring_cover (tt : list (list Z)) (ring : list (float * float))
  : result (list (Z * Z)) :=
  let xs := map fst ring in
  let ys := map snd ring in
  x0 ← min_list xs; x1 ← max_list xs; y0 ← min_list ys; y1 ← max_list ys;
  cs ← window (len tt) (Raster.grid_height tt) x0 x1 y0 y1;
  select (centre_in ring) cs.

(** Where a feature's cells go. *)
Definition file_under (ft bt : bool) (cells : list (Z * Z)) (F B : gset (Z * Z))
  : gset (Z * Z) * gset (Z * Z) :=
  if ft then (list_to_set cells ∪ F, B)
  else if bt then (F, list_to_set cells ∪ B) else (F, B).

(** The two land classes of the classifier. *)
Inductive land_class : Set := ForestClass | BuiltupClass.

(** The class under which the classifier files an element, with the element's
    node list: a way with tags, forest-tagged ways being forest whatever else
    they are tagged. *)
Definition element_class (el : Overlay.Element) : option (land_class * list Z) :=
  match el with
  | Overlay.Way _ nodes tags =>
      if decide (tags = ∅) then None
      else if Overlay.is_forest tags then Some (ForestClass, nodes)
      else if Overlay.is_builtup tags then Some (BuiltupClass, nodes)
      else None
  | _ => None
  end.

(** The auxiliary masks, as sets. *)
Definition mask_forest (worldcover_masks : option (gset (Z * Z) * gset (Z * Z)))
  : gset (Z * Z) :=
  match worldcover_masks with
  | Some (_, wc_forest_pref) => wc_forest_pref
  | None => ∅
  end.
Definition mask_builtup (worldcover_masks : option (gset (Z * Z) * gset (Z * Z)))
  : gset (Z * Z) :=
  match worldcover_masks with
  | Some (wc_built, _) => wc_built
  | None => ∅
  end.

Section Cover.
Context `{Geo.Utm}.
Variables (center : Geo.Center) (bounds : Geo.Bounds) (mpc : float).
Variables (tt : list (list Z)) (nodes_by_id : gmap Z (float * float)).

(** The cells the polygon of a way covers (none when fewer than three of its
    nodes are known and in the zone). *)
Definition way_cover (nodes : list Z) : result (list (Z * Z)) :=
  ring ← Geo._assemble_way_nodes center bounds mpc nodes nodes_by_id;
  if 3 <=? len ring then
    ring ← Overlay.close_ring ring;
    ring_cover tt ring
  else Ok [].

(** Cell [c] is covered by an element of class [k]. *)
Definition covered_by (elements : list Overlay.Element) (k : land_class) (c : Z * Z) : Prop :=
  exists el nodes cells,
    el ∈ elements /\ element_class el = Some (k, nodes) /\
    way_cover nodes = Ok cells /\ c ∈ cells.

(** The forest set [F] and the built-up set [B] hold exactly the cells
    covered by an element of their class or listed in their auxiliary mask;
    they are disjoint when no cell has a source of each class. *)
Definition classified_as (elements : list Overlay.Element)
    (masks : option (gset (Z * Z) * gset (Z * Z))) (F B : gset (Z * Z)) : Prop :=
  (forall c, c ∈ F <-> covered_by elements ForestClass c \/ c ∈ mask_forest masks) /\
  (forall c, c ∈ B <-> covered_by elements BuiltupClass c \/ c ∈ mask_builtup masks) /\
  ((forall c, ~ ((covered_by elements ForestClass c \/ c ∈ mask_forest masks) /\
                 (covered_by elements BuiltupClass c \/ c ∈ mask_builtup masks))) ->
   F ## B).

End Cover.

(** The cells an actor's footprint covers. *)
Definition footprint (a : Overlay.Actor) : list (Z * Z) :=
  Overlay.footprint_cells (fst (Overlay.location a)) (snd (Overlay.location a))
                          (fst (Overlay.dims a)) (snd (Overlay.dims a)).

(** No cell is covered by the footprints of two actors of the list. *)
Definition exclusive (actors : list Overlay.Actor) : Prop :=
  forall m n a b, m <> n -> actors !! m = Some a -> actors !! n = Some b ->
  forall c, c ∈ footprint a -> c ∉ footprint b.

(** The part of the building state the placement guarantees speak of. *)
Definition bcore (st : Overlay.BState) : Z * list Overlay.Actor * gset (Z * Z) :=
  (Overlay.placed_b st, Overlay.extra_actors st, Overlay.occupied_cells st).

(** [st'] is [st] with one more building: it fitted on the cells free in
    [st], and its cells are occupied in [st']. *)
Definition grows (width height : Z) (tiles_type : list (list Z))
    (st st' : Overlay.BState) : Prop :=
  exists a,
    Overlay.kind a = Overlay.Bld /\
    Overlay._can_place width height tiles_type (Overlay.occupied_cells st)
      (fst (Overlay.location a)) (snd (Overlay.location a))
      (fst (Overlay.dims a)) (snd (Overlay.dims a)) = Ok true /\
    Overlay.placed_b st' = Overlay.placed_b st + 1 /\
    Overlay.extra_actors st' = Overlay.extra_actors st ++ [a] /\
    Overlay.occupied_cells st' = list_to_set (footprint a) ∪ Overlay.occupied_cells st.

(** The guarantee of the building stage: [placed_b] counts the emitted
    actors, the occupied set is the union of their footprints, and no two
    footprints share a cell. *)
Definition building_invariant (st : Overlay.BState) : Prop :=
  Overlay.placed_b st = len (Overlay.extra_actors st) /\
  (forall c, c ∈ Overlay.occupied_cells st <->
     exists a, a ∈ Overlay.extra_actors st /\ c ∈ footprint a) /\
  exclusive (Overlay.extra_actors st).

(** Chebyshev distance between two cells. *)
Definition chebyshev (p q : Z * Z) : Z :=
  Z.max (Z.abs (fst p - fst q)) (Z.abs (snd p - snd q)).

(** Any two actors of the list are at Chebyshev distance at least [s]. *)
Definition spaced (s : Z) (actors : list Overlay.Actor) : Prop :=
  forall m n a b, m <> n -> actors !! m = Some a -> actors !! n = Some b ->
  s <= chebyshev (Overlay.location a) (Overlay.location b).

(** The guarantee of the vegetation stage for minimum spacing [s]: [placed]
    counts the trees, [veg_occupied] holds their cells, and any two of them
    are farther apart than [s] when [s] is positive. *)
Definition vegetation_invariant (s : Z) (st : Overlay.VState) : Prop :=
  Overlay.placed st = len (Overlay.veg_actors st) /\
  (forall c, c ∈ Overlay.veg_occupied st <->
     exists a, a ∈ Overlay.veg_actors st /\ Overlay.location a = c) /\
  spaced (if 0 <? s then s + 1 else 0) (Overlay.veg_actors st).

(** What one building candidate may do to the actors and the occupied set:
    nothing, or append one actor whose footprint was wholly unoccupied and is
    wholly occupied afterwards. *)
Definition check_then_commit (st st' : Overlay.BState) : Prop :=
  (Overlay.extra_actors st' = Overlay.extra_actors st /\
   Overlay.occupied_cells st' = Overlay.occupied_cells st) \/
  exists a,
    Overlay.extra_actors st' = Overlay.extra_actors st ++ [a] /\
    (forall c, c ∈ footprint a -> c ∉ Overlay.occupied_cells st) /\
    Overlay.occupied_cells st' = list_to_set (footprint a) ∪ Overlay.occupied_cells st.

(** The actors of a stage's run, none when the run raised. *)
Definition buildings_of (run : result Overlay.BState) : list Overlay.Actor :=
  match run with
  | Ok st => Overlay.extra_actors st
  | Raise _ => []
  end.
Definition trees_of (run : result Overlay.VState) : list Overlay.Actor :=
  match run with
  | Ok st => Overlay.veg_actors st
  | Raise _ => []
  end.

Section Caps.
Variables (width height : Z) (tiles_type : list (list Z)).
Variables (building_density : float) (max_buildings building_search_radius : Z).
Variable (building_placement_mode : string).
Variables (veg_density : float) (max_veg_actors veg_min_spacing veg_patch_size : Z).
Variables (veg_patch_boost : float) (suppress_veg_near_roads suppress_veg_near_buildings : Z).
Variables (builtup_cells road_cells occupied_cells : gset (Z * Z)).

(** The placement caps: neither stage ends with more actors than its cap, and
    a state at its cap is left as it is by every further candidate. *)
Definition caps_respected : Prop :=
  (forall include_buildings ways relations rng0 st,
     Overlay.building_stage width height tiles_type building_density max_buildings
       building_search_radius building_placement_mode include_buildings ways relations rng0
     = Ok st ->
     Overlay.placed_b st = len (Overlay.extra_actors st) /\
     len (Overlay.extra_actors st) <= max_buildings) /\
  (forall include_vegetation forest_iter rng0 st,
     Overlay.vegetation_stage width height tiles_type veg_density max_veg_actors
       veg_min_spacing veg_patch_size veg_patch_boost suppress_veg_near_roads
       suppress_veg_near_buildings builtup_cells road_cells occupied_cells
       include_vegetation forest_iter rng0 = Ok st ->
     Overlay.placed st = len (Overlay.veg_actors st) /\
     len (Overlay.veg_actors st) <= max_veg_actors) /\
  (forall st id_type osm_id xs ys,
     max_buildings <= Overlay.placed_b st ->
     Overlay._place_from_bbox width height tiles_type building_density max_buildings
       building_search_radius building_placement_mode id_type osm_id xs ys st = Ok st) /\
  (forall st candidates,
     max_buildings <= Overlay.placed_b st ->
     Overlay.building_pass width height tiles_type building_density max_buildings
       building_search_radius building_placement_mode candidates st = Ok st) /\
  (forall st high forest_iter,
     max_veg_actors <= Overlay.placed st ->
     Overlay.veg_loop tiles_type veg_density max_veg_actors veg_min_spacing veg_patch_size
       veg_patch_boost suppress_veg_near_roads suppress_veg_near_buildings
       builtup_cells road_cells occupied_cells high forest_iter st = Ok st).

End Caps.

(** What the encoder size invariant asks of an encoder run. *)
Definition encodes_no_heights (w h : Z) (run : result (list Z)) : Prop :=
  exists out,
    run = Ok out /\
    len out = 17 + 3 * w * h + 2 * w * h /\
    take 17 out = expected_header w h.

End Spec.

(** ** Concrete data on which the properties are exercised *)

Module Fixtures.
Import Geo Raster.

(** A stand-in for the geodesy collaborator: a flat projection, 1000 m per
    degree, zone 17S west of longitude 6 and zone 18S from there on. *)
Definition flat_utm : Utm := {|
  from_latlon lat lon :=
    ((lon * 1000)%float, (lat * 1000)%float,
     if (lon <? 6)%float then 17 else 18, "S"%string);
  to_latlon e n _ _ := ((n / 1000)%float, (e / 1000)%float);
|}.

(** An area of interest of 8 x 8 cells, 1000 m per cell, in zone 17S; cell
    [(0, 0)] is its north-west corner. *)
Definition aoi_center : Center :=
  {| easting := 4000; northing := 4000; zone_number := 17; zone_letter := "S" |}.
Definition aoi_bounds : Bounds :=
  {| min_e := 0; max_e := 8000; min_n := 0; max_n := 8000 |}.
Definition aoi_mpc : float := 1000.

(** An 8 x 8 grid whose two western columns, and two more cells of the third,
    are water: a river mouth. Around cell (0, 3) the clipped 9 x 9 window has
    40 cells, 18 of them water. *)
Definition bay8 : Grid :=
  [ replicate 8 1; replicate 8 1; [1; 1; 255; 255; 255; 255; 255; 255] ]
  ++ replicate 5 (replicate 8 255).
Definition zeros8 : Grid := replicate 8 (replicate 8 0).

(** A feature collection with a forest polygon over cells (0..1, 0..1) and a
    distinct residential polygon over cells (1..2, 1..2), which overlap in
    cell (1, 1). Node [n] at (lat, lon) projects to the cell point
    (lon, 8 - lat). *)
Definition clear8 : Grid := replicate 8 (replicate 8 CLEAR_TEMPLATE_ID).
Definition overlapping_landuse : list Overlay.Element :=
  [ Overlay.Node 1 8 0; Overlay.Node 2 8 2; Overlay.Node 3 6 2; Overlay.Node 4 6 0;
    Overlay.Node 5 7 1; Overlay.Node 6 7 3; Overlay.Node 7 5 3; Overlay.Node 8 5 1;
    Overlay.Way 100 [1; 2; 3; 4; 1] {[ "natural"%string := "wood"%string ]};
    Overlay.Way 101 [5; 6; 7; 8; 5] {[ "landuse"%string := "residential"%string ]} ].

(** A random source whose every draw is 0.5 and whose every pick is the
    first item. *)
Definition rng_half : Rng :=
  {| next_random := fun _ => 0.5%float; next_choice := fun _ => 0%nat; cursor := 0 |}.

(** The vegetation stage of the spacing example: clear 8 x 8 terrain, density
    1.0, minimum spacing 2, the default patch size 32 and boost 1.5, no road,
    building or built-up cell. *)
Definition spacing_example (forest_iter : list (Z * Z)) : result Overlay.VState :=
  Overlay.vegetation_stage 8 8 clear8 1 4000 2 32 1.5 1 1 ∅ ∅ ∅ true forest_iter rng_half.

(** Two building candidates with the same outline, the square from
    (0.2, 0.2) to (1.8, 1.8), on clear 8 x 8 terrain: density 1.0, search
    radius 2, accurate mode. [cap] is the building cap. *)
Definition same_outline : Overlay.Candidate :=
  {| Overlay.cand_id_type := "way"; Overlay.cand_osm_id := 7;
     Overlay.cand_xs := [0.2; 1.8; 1.8; 0.2]%float;
     Overlay.cand_ys := [0.2; 0.2; 1.8; 1.8]%float |}.
Definition two_buildings (cap : Z) : result Overlay.BState :=
  Overlay.building_stage 8 8 clear8 1 cap 2 "accurate" true
    [same_outline; same_outline] [] rng_half.

(** A 4 x 4 grid of clear tiles. *)
Definition clear4 : Grid := replicate 4 (replicate 4 CLEAR_TEMPLATE_ID).

(** The closed ring of the square with corners (0,0) and (2,2). *)
Definition square_ring : list (float * float) :=
  [(0, 0); (2, 0); (2, 2); (0, 2); (0, 0)]%float.

(** The 4 x 4 grid after the disc of radius 1 around (2, 2) was drawn with
    water, and after the square ring was filled with water. *)
Definition disc_drawn : Grid :=
  [[255; 255; 255; 255]; [255; 1; 1; 255]; [255; 1; 1; 255]; [255; 255; 255; 255]].
Definition square_filled : Grid :=
  [[1; 1; 255; 255]; [1; 1; 255; 255]; [255; 255; 255; 255]; [255; 255; 255; 255]].

(** A segment: a ring of two vertices. *)
Definition two_vertex_ring : list (float * float) := [(0.5, 0.5); (3, 3)]%float.

End Fixtures.

(* ===================================================================== *)
(** * Part I, continued. The rest of the encoder and of the pipeline      *)
(* ===================================================================== *)

(** ** The encoder of [cli_enhance_river.py] *)

Module EnhanceRiver.
Import Encoder.

(** [build_map_bin_from_grid] as [cli_enhance_river.py] has it: the encoder of
    [cli.py] without the two shape validation loops. *)
Definition build_map_bin_from_grid (tiles_type tiles_variant : list (list Z))
    (include_heights : bool) : result (list Z) :=
  if falsy tiles_type then Ok [] else
  col0 ← getitem tiles_type 0;
  if falsy col0 then Ok [] else
  let w := len tiles_type in
  let h := len col0 in
  out ← header w h include_heights;
  out ← for_in (range w) (fun i out =>
           for_in (range h) (fun j out =>
             ct ← getitem tiles_type i;
             t ← getitem ct j;
             b ← _le_u16 t;
             cv ← getitem tiles_variant i;
             v ← getitem cv j;
             bytearray_append (out ++ b) (Z.land v 255)) out) out;
  Ok (trailer w h include_heights out).

End EnhanceRiver.

(** ** Reading a map.bin stream

    The layout the encoder's docstring gives (OpenRA's TileFormat 2), read
    back: a format byte, width and height (uint16), three section offsets
    (uint32), then three bytes per tile in column-major order. *)

Module Format.

(** The [n] bytes of [out] from offset [off]. *)
Definition slice (out : list Z) (off n : Z) : list Z :=
  take (Z.to_nat n) (drop (Z.to_nat off) out).

Definition read_u8 (out : list Z) (off : Z) : Z := le_value (slice out off 1).
Definition read_u16 (out : list Z) (off : Z) : Z := le_value (slice out off 2).
Definition read_u32 (out : list Z) (off : Z) : Z := le_value (slice out off 4).

Definition tile_format (out : list Z) : Z := read_u8 out 0.
Definition map_width (out : list Z) : Z := read_u16 out 1.
Definition map_height (out : list Z) : Z := read_u16 out 3.
Definition tiles_offset (out : list Z) : Z := read_u32 out 5.
Definition heights_offset (out : list Z) : Z := read_u32 out 9.
Definition resources_offset (out : list Z) : Z := read_u32 out 13.

(** The tile of cell [(i, j)]: template id and variant index. *)
Definition read_tile (out : list Z) (i j : Z) : Z * Z :=
  let off := tiles_offset out + 3 * (i * map_height out + j) in
  (read_u16 out off, read_u8 out (off + 2)).

(** The header the encoders emit for a [w] x [h] map. *)
Definition header_bytes (w h : Z) (include_heights : bool) : list Z :=
  [2] ++ le_digits 2 w ++ le_digits 2 h ++ le_digits 4 17
      ++ le_digits 4 (if include_heights then 3 * w * h + 17 else 0)
      ++ le_digits 4 ((if include_heights then 4 else 3) * w * h + 17).

(** The tiles section of a grid, column by column. *)
Definition tiles_section (w h : Z) (tile : Z -> Z -> Z * Z) : list Z :=
  concat (map (fun c => Spec.tile_bytes (fst (tile (fst c) (snd c))) (snd (tile (fst c) (snd c))))
              (Spec.cells_of (range w) (range h))).

(** The whole stream: header, tiles, the optional heights and the resources,
    both all zero. *)
Definition stream (w h : Z) (include_heights : bool) (tile : Z -> Z -> Z * Z) : list Z :=
  header_bytes w h include_heights ++ tiles_section w h tile
    ++ replicate (Z.to_nat (if include_heights then w * h else 0)) 0
    ++ replicate (Z.to_nat (2 * (w * h))) 0.

(** The header fields fit their uint16 and uint32 slots. *)
Definition fields_fit (w h : Z) (include_heights : bool) : Prop :=
  0 <= w < 65536 /\ 0 <= h < 65536 /\
  (if include_heights then 4 else 3) * w * h + 17 < 2 ^ 32.


(** A stream laid out for a [w] x [h] map: the header fields, the section
    offsets they announce, the total length, and the heights (when present)
    and resources sections, which the encoders leave all zero. *)
Definition laid_out (w h : Z) (include_heights : bool) (out : list Z) : Prop :=
  tile_format out = 2 /\ map_width out = w /\ map_height out = h /\
  tiles_offset out = 17 /\
  heights_offset out = (if include_heights then 17 + 3 * w * h else 0) /\
  resources_offset out = 17 + (if include_heights then 4 else 3) * w * h /\
  len out = resources_offset out + 2 * w * h /\
  (include_heights = true ->
   slice out (heights_offset out) (w * h) = replicate (Z.to_nat (w * h)) 0) /\
  slice out (resources_offset out) (2 * w * h) = replicate (Z.to_nat (2 * w * h)) 0.

End Format.

(** ** Python numbers, continued *)

Module PyNum.

(** An [int] as an unrounded binary number. *)
Definition spec_of_int (z : Z) : spec_float :=
  match z with
  | Z0 => S754_zero false
  | Zpos p => S754_finite false p 0
  | Zneg p => S754_finite true p 0
  end.

(** [a / b] on two [int]s: the quotient rounded once, to the nearest binary64;
    OverflowError when that is beyond the binary64 range. *)
Definition int_truediv (a b : Z) : result float :=
  if b =? 0 then Raise ZeroDivisionError
  else
    let q := SF2Prim (SFdiv prec emax (spec_of_int a) (spec_of_int b)) in
    if is_finite q then Ok q else Raise OverflowError.

(** [x < n] and [n < x] for a [float] and an [int]: Python compares the two
    exactly, without rounding the [int]. *)
Definition float_compare_int (x : float) (n : Z) : option comparison :=
  match Prim2SF x with
  | S754_nan => None
  | S754_infinity s => Some (if s then Lt else Gt)
  | S754_zero _ => Some (0 ?= n)
  | S754_finite s m e =>
      let v := if s then Zneg m else Zpos m in
      Some (if 0 <=? e then v * 2 ^ e ?= n else v ?= n * 2 ^ (- e))
  end.
Definition float_lt_int (x : float) (n : Z) : bool :=
  match float_compare_int x n with Some Lt => true | _ => false end.
Definition float_gt_int (x : float) (n : Z) : bool :=
  match float_compare_int x n with Some Gt => true | _ => false end.

End PyNum.
Export PyNum.

(** ** Thick lines and river samples *)

Module Strokes.
Import Raster.

(** The C library behind [math.hypot]. *)
Class Libm := {
  hypot : float -> float -> float;
}.

Section Lines.
Context `{Libm}.

Definition _rasterize_line (grid : Grid) (x0 y0 x1 y1 radius_cells : float) (value : Z)
  : result (Grid * Z) :=
  let length := hypot (x1 - x0) (y1 - y0) in
  if (length =? 0)%float then _draw_disc grid x0 y0 radius_cells value
  else
    a ← trunc (length * 2); let steps := Z.max 1 a in
    for_in (range (steps + 1)) (fun s (st : Grid * Z) =>
      let '(grid, count) := st in
      t ← int_truediv s steps;
      let x := (x0 + (x1 - x0) * t)%float in
      let y := (y0 + (y1 - y0) * t)%float in
      r ← _draw_disc grid x y radius_cells value;
      Ok (fst r, count + snd r)) (grid, 0).

(** [_clamp_cell] of [overlay_osm_to_tiles]: a point more than one cell
    outside the map is dropped. *)
Definition _clamp_cell (width height : Z) (pt : float * float) : option (float * float) :=
  let '(x, y) := pt in
  if float_lt_int x (-1) || float_lt_int y (-1)
     || float_gt_int x (width + 1) || float_gt_int y (height + 1)
  then None else Some (x, y).

(** The sparse sample points collected along one clamped waterway segment
    [pa]-[pb] drawn with radius [r_cells]; [orient] is 0 for a vertical and 1
    for a horizontal stretch. *)
Definition collect_river_samples (width height : Z) (pa pb : float * float) (r_cells : float)
    (river_samples_set : gset (Z * Z * Z)) : result (gset (Z * Z * Z)) :=
  let dx := (fst pb - fst pa)%float in
  let dy := (snd pb - snd pa)%float in
  let orient := if (abs dx <=? abs dy)%float then 0 else 1 in
  let length := hypot dx dy in
  let step := fmax 1 r_cells in
  q ← fdiv length step;
  a ← trunc q; let steps := Z.max 1 a in
  for_in (range (steps + 1)) (fun s samples =>
    t ← int_truediv s (Z.max 1 steps);
    let x := (fst pa + (fst pb - fst pa) * t)%float in
    let y := (snd pa + (snd pb - snd pa) * t)%float in
    ii ← trunc x;
    jj ← trunc y;
    if (0 <=? ii) && (ii <? width) && (0 <=? jj) && (jj <? height)
    then Ok ({[ (ii, jj, orient) ]} ∪ samples) else Ok samples) river_samples_set.

End Lines.
End Strokes.

(** ** The passes of [overlay_osm_to_tiles] over the grids *)

Module Passes.
Import Raster.

(** *** Water from the surface-water mask *)

(** One cell of the mask. *)
Definition gsw_cell (width height : Z) (c : Z * Z) (st : Grid * Z) : result (Grid * Z) :=
  let '(i, j) := c in
  let '(tiles_type, added) := st in
  if in_bounds width height i j then
    t ← grid_get tiles_type i j;
    if negb (t =? WATER_TEMPLATE_ID) then
      tiles_type' ← grid_set tiles_type i j WATER_TEMPLATE_ID;
      Ok (tiles_type', added + 1)
    else Ok (tiles_type, added)
  else Ok (tiles_type, added).

(** [if include_water and gsw_water_mask:]; the mask is given in its
    iteration order, [None] when no mask was supplied. Returns the grid and
    [added]. *)
Definition augment_water (include_water : bool) (width height : Z)
    (gsw_water_mask : option (list (Z * Z))) (tiles_type : Grid) : result (Grid * Z) :=
  let mask := default [] gsw_water_mask in
  if include_water && negb (falsy mask)
  then for_in mask (gsw_cell width height) (tiles_type, 0)
  else Ok (tiles_type, 0).

(** *** Shoreline *)

Definition BEACH_VARIANT : Z := 4.

(** The search of the 8-neighbourhood, with its two [break]s: once a water
    neighbour is found nothing more is read. *)
Definition has_water_neighbor (tiles_type : Grid) (width height i j : Z) : result bool :=
  for_in [-1; 0; 1] (fun di (found : bool) =>
    if found then Ok found
    else
      for_in [-1; 0; 1] (fun dj (found : bool) =>
        if found then Ok found
        else if (di =? 0) && (dj =? 0) then Ok found
        else
          let ni := i + di in
          let nj := j + dj in
          if in_bounds width height ni nj then
            neighbor_id ← grid_get tiles_type ni nj;
            Ok ((neighbor_id =? WATER_TEMPLATE_ID)
                || bool_decide (neighbor_id ∈ RIVER_TEMPLATE_IDS))
          else Ok found) found) false.

Definition shore_cell (width height : Z) (c : Z * Z) (st : Grid * Grid * Z)
  : result (Grid * Grid * Z) :=
  let '(i, j) := c in
  let '(tiles_type, tiles_variant, shore_count) := st in
  t ← grid_get tiles_type i j;
  if negb (t =? CLEAR_TEMPLATE_ID) then Ok (tiles_type, tiles_variant, shore_count)
  else
    found ← has_water_neighbor tiles_type width height i j;
    if (found : bool) then
      tiles_type' ← grid_set tiles_type i j BEACH_TEMPLATE_ID;
      tiles_variant' ← grid_set tiles_variant i j BEACH_VARIANT;
      Ok (tiles_type', tiles_variant', shore_count + 1)
    else Ok (tiles_type, tiles_variant, shore_count).

(** The pass; returns the grids and [shore_count]. *)
Definition shoreline_pass (include_water : bool) (width height : Z)
    (tiles_type tiles_variant : Grid) : result (Grid * Grid * Z) :=
  if include_water then
    for_in (range width) (fun i st =>
      for_in (range height) (fun j st => shore_cell width height (i, j) st) st)
      (tiles_type, tiles_variant, 0)
  else Ok (tiles_type, tiles_variant, 0).

(** *** Urban patches *)

Definition urban_cell (width height : Z) (c : Z * Z) (st : Grid * Grid * Z)
  : result (Grid * Grid * Z) :=
  let '(i, j) := c in
  let '(tiles_type, tiles_variant, urban_cells) := st in
  if in_bounds width height i j then
    t ← grid_get tiles_type i j;
    if t =? CLEAR_TEMPLATE_ID then
      tiles_type' ← grid_set tiles_type i j ROAD_TEMPLATE_ID;
      tiles_variant' ← grid_set tiles_variant i j 0;
      Ok (tiles_type', tiles_variant', urban_cells + 1)
    else Ok (tiles_type, tiles_variant, urban_cells)
  else Ok (tiles_type, tiles_variant, urban_cells).

(** The loop over [builtup_cells], given in its iteration order. *)
Definition urban_patch (width height : Z) (builtup_iter : list (Z * Z))
    (tiles_type tiles_variant : Grid) : result (Grid * Grid * Z) :=
  for_in builtup_iter (urban_cell width height) (tiles_type, tiles_variant, 0).

(** *** The set of road cells *)

Definition road_cells_of (width height : Z) (tiles_type : Grid) : result (gset (Z * Z)) :=
  for_in (range width) (fun i road_cells =>
    for_in (range height) (fun j road_cells =>
      t ← grid_get tiles_type i j;
      Ok (if bool_decide (t ∈ ROAD_ALL_TEMPLATE_IDS) then {[ (i, j) ]} ∪ road_cells
          else road_cells)) road_cells) ∅.

End Passes.

(** ** Vocabulary for the rasterising passes *)

Module Painting.
Import Raster Spec.

(** [g'] is [g] with some cells repainted with [v]: the same shape, and every
    cell either as it was or holding [v]. *)
Definition repaints (v : Z) (g g' : Grid) : Prop :=
  map length g' = map length g /\
  forall i j, 0 <= i -> 0 <= j ->
    lookup2 g' i j = lookup2 g i j \/ lookup2 g' i j = Some v.

(** A test that ran and said yes. *)
Definition chosen (r : result bool) : bool :=
  match r with
  | Ok true => true
  | _ => false
  end.

(** Cell [(i, j)] lies in the [tw] x [th] block anchored at [(i0, j0)]. *)
Definition in_block (i0 j0 tw th i j : Z) : bool :=
  (i0 <=? i) && (i <? i0 + tw) && (j0 <=? j) && (j <? j0 + th).

(** Water or river: what the shoreline pass takes for water. *)
Definition waterlike (t : Z) : bool :=
  (t =? WATER_TEMPLATE_ID) || bool_decide (t ∈ RIVER_TEMPLATE_IDS).

(** The eight neighbours of a cell, in the order the shoreline pass scans
    them. *)
Definition neighbours8 (i j : Z) : list (Z * Z) :=
  [(i - 1, j - 1); (i - 1, j); (i - 1, j + 1);
   (i, j - 1); (i, j + 1);
   (i + 1, j - 1); (i + 1, j); (i + 1, j + 1)].

(** Cell [(i, j)] of [g] holds water or river. *)
Definition tile_waterlike (g : Grid) (i j : Z) : bool :=
  match lookup2 g i j with
  | Some t => waterlike t
  | None => false
  end.

(** Some neighbour of [(i, j)] inside the [w] x [h] map holds water or
    river in [g]. *)
Definition near_water (g : Grid) (w h i j : Z) : bool :=
  existsb (fun c => in_bounds w h (fst c) (snd c) && tile_waterlike g (fst c) (snd c))
          (neighbours8 i j).

(** [g] is the [w] x [h] grid [g0] with some of the cells that qualify for a
    conversion to [a] already converted. *)
Definition partly_converted (w h a : Z) (g0 : Grid) (qualifies : Z -> Z -> bool) (g : Grid)
  : Prop :=
  rectangular w h g /\
  forall i j, 0 <= i -> 0 <= j ->
    lookup2 g i j = lookup2 g0 i j \/ (qualifies i j = true /\ lookup2 g i j = Some a).

(** A clear cell that touches water: what the shoreline pass turns into
    beach. *)
Definition shore (g : Grid) (w h i j : Z) : bool :=
  in_bounds w h i j
  && bool_decide (lookup2 g i j = Some CLEAR_TEMPLATE_ID) && near_water g w h i j.

(** A clear cell of the built-up set: what urban patching turns into road. *)
Definition urban (g : Grid) (w h : Z) (builtup : list (Z * Z)) (i j : Z) : bool :=
  in_bounds w h i j && bool_decide ((i, j) ∈ builtup)
  && bool_decide (lookup2 g i j = Some CLEAR_TEMPLATE_ID).

(** For every window of up to 81 cells, the quotient
    [float(water) / float(total)] lies between 0.0 and 1.0. *)
Definition fractions_in_unit_interval : bool :=
  forallb (fun total =>
    forallb (fun water =>
      let q := (of_int water / of_int total)%float in
      (0 <=? q)%float && (q <=? 1)%float)
      (range (total + 1)))
    (range2 1 82).

End Painting.

(** ** More concrete data *)

Module Samples.

(** A 2 x 2 map: clear and water in the first column, beach and road in the
    second, with their variant indices. *)
Definition types2 : list (list Z) := [[255; 1]; [6; 227]].
Definition variants2 : list (list Z) := [[0; 0]; [4; 0]].


(** A stand-in for the C library: the textbook formula for [hypot]. *)
Definition plain_libm : Strokes.Libm :=
  {| Strokes.hypot x y := sqrt (x * x + y * y) |}.

End Samples.
(* ===================================================================== *)
(** * Part II. Properties                                                  *)
(* ===================================================================== *)

(* stdpp's [set_solver] clears hypotheses it has already consumed. *)
Set Warnings "-clear-no-such-hyp".

(** ** Generic facts about the primitives *)

Section PyFacts.

Lemma bind_Ok {A B} (f : A -> result B) (a : A) : (Ok a ≫= f) = f a.
Proof. reflexivity. Qed.

Lemma bind_Raise {A B} (f : A -> result B) (e : exn) : (Raise e ≫= f) = Raise e.
Proof. reflexivity. Qed.

Lemma bind_inv_Ok {A B} (f : A -> result B) (m : result A) (b : B) :
  (m ≫= f) = Ok b -> exists a, m = Ok a /\ f a = Ok b.
Proof. destruct m as [a|e]; [eauto | discriminate]. Qed.

Lemma for_in_app {A S} (xs ys : list A) (body : A -> S -> result S) (s : S) :
  for_in (xs ++ ys) body s = (for_in xs body s ≫= for_in ys body).
Proof.
  revert s; induction xs as [|x xs IH]; intros s; [reflexivity|].
  cbn [app for_in]. destruct (body x s) as [s'|e]; [apply IH | reflexivity].
Qed.

(** A loop whose every iteration appends a chunk appends their concatenation. *)
Lemma for_in_append {A B} (xs : list A) (body : A -> list B -> result (list B))
    (chunk : A -> list B) (out : list B) :
  (forall x o, x ∈ xs -> body x o = Ok (o ++ chunk x)) ->
  for_in xs body out = Ok (out ++ concat (map chunk xs)).
Proof.
  revert out; induction xs as [|x xs IH]; intros out Hb.
  - cbn. now rewrite app_nil_r.
  - cbn [for_in map concat]. rewrite Hb by left. cbn.
    rewrite IH by (intros; apply Hb; now right). now rewrite <- app_assoc.
Qed.

Lemma length_concat_const {B} (k : nat) (ls : list (list B)) :
  Forall (fun l => length l = k) ls -> length (concat ls) = (k * length ls)%nat.
Proof.
  induction 1 as [|l ls Hl _ IH]; cbn; [lia|].
  rewrite length_app, IH, Hl. lia.
Qed.

Lemma len_range (n : Z) : 0 <= n -> length (range n) = Z.to_nat n.
Proof. intros. unfold range, range2. rewrite length_seqZ. f_equal. lia. Qed.

Lemma elem_of_range (n i : Z) : i ∈ range n <-> 0 <= i < n.
Proof. unfold range, range2. rewrite elem_of_seqZ. lia. Qed.

Lemma getitem_Ok {A} (l : list A) (i : Z) (x : A) :
  0 <= i -> l !! Z.to_nat i = Some x -> getitem l i = Ok x.
Proof.
  intros Hi Hx. unfold getitem, len.
  apply lookup_lt_Some in Hx as Hlt.
  destruct (Z.ltb_spec i 0); [lia|].
  destruct (Z.leb_spec 0 i); [|lia].
  destruct (Z.ltb_spec i (Z.of_nat (length l))); [|lia].
  cbn. now rewrite Hx.
Qed.

Lemma length_le_digits (n : nat) (v : Z) : length (le_digits n v) = n.
Proof. revert v; induction n; intros; cbn; [reflexivity | now rewrite IHn]. Qed.

Lemma le_digits_bytes (n : nat) (v : Z) :
  Forall (fun b => 0 <= b < 256) (le_digits n v).
Proof.
  revert v; induction n; intros; cbn; constructor; [|apply IHn].
  apply Z.mod_pos_bound; lia.
Qed.

Lemma le_value_digits (n : nat) (v : Z) :
  0 <= v < 2 ^ (8 * Z.of_nat n) -> le_value (le_digits n v) = v.
Proof.
  revert v; induction n as [|n IH]; intros v Hv.
  - cbn in *. lia.
  - cbn [le_digits le_value].
    assert (H256 : 2 ^ (8 * Z.of_nat (S n)) = 256 * 2 ^ (8 * Z.of_nat n)).
    { replace (8 * Z.of_nat (S n)) with (8 + 8 * Z.of_nat n) by lia.
      rewrite Z.pow_add_r by lia. reflexivity. }
    rewrite IH.
    + pose proof (Z.div_mod v 256). lia.
    + split; [apply Z.div_pos; lia|].
      apply Z.div_lt_upper_bound; lia.
Qed.

Lemma to_bytes_Ok (n : nat) (v : Z) :
  0 <= v < 2 ^ (8 * Z.of_nat n) -> to_bytes n v = Ok (le_digits n v).
Proof.
  intros [H0 H1]. unfold to_bytes.
  destruct (Z.ltb_spec v 0); [lia|].
  destruct (Z.leb_spec (2 ^ (8 * Z.of_nat n)) v); [lia|]. reflexivity.
Qed.

Lemma to_bytes_overflow (n : nat) (v : Z) :
  2 ^ (8 * Z.of_nat n) <= v -> to_bytes n v = Raise OverflowError.
Proof.
  intros H. unfold to_bytes.
  destruct (Z.leb_spec (2 ^ (8 * Z.of_nat n)) v); [|lia].
  now rewrite orb_true_r.
Qed.

Lemma length_repeat_seq {A} (l : list A) (n : Z) :
  length (repeat_seq l n) = (length l * Z.to_nat n)%nat.
Proof.
  unfold repeat_seq. rewrite (length_concat_const (length l)).
  - now rewrite length_replicate.
  - apply Forall_replicate. reflexivity.
Qed.

End PyFacts.

(** ** MapEncoder *)

Section EncoderFacts.
Import Encoder Spec.

Lemma land_255_byte (v : Z) : 0 <= Z.land v 255 < 256.
Proof.
  change 255 with (Z.ones 8). rewrite Z.land_ones by lia.
  apply Z.mod_pos_bound. lia.
Qed.

Lemma bytearray_append_Ok (out : list Z) (b : Z) :
  0 <= b < 256 -> bytearray_append out b = Ok (out ++ [b]).
Proof.
  intros [H0 H1]. unfold bytearray_append.
  destruct (Z.leb_spec 0 b); [|lia]. destruct (Z.ltb_spec b 256); [|lia]. reflexivity.
Qed.

Lemma emit_tile (out : list Z) (t v : Z) :
  0 <= t < 65536 ->
  (_le_u16 t ≫= fun b => bytearray_append (out ++ b) (Z.land v 255))
  = Ok (out ++ tile_bytes t v).
Proof.
  intros Ht. unfold _le_u16. rewrite to_bytes_Ok by (cbn; lia). cbn [mbind result_bind].
  rewrite bytearray_append_Ok by apply land_255_byte.
  unfold tile_bytes. now rewrite <- app_assoc.
Qed.

Lemma header_Ok (w h : Z) :
  0 <= w < 65536 -> 0 <= h < 65536 -> 3 * w * h + 17 < 2 ^ 32 ->
  header w h false = Ok (expected_header w h).
Proof.
  intros Hw Hh Hr. unfold header, _le_u16, _le_u32. cbn [negb].
  rewrite bytearray_append_Ok by lia. cbn [mbind result_bind].
  rewrite (to_bytes_Ok 2 w), (to_bytes_Ok 2 h) by (cbn; lia). cbn [mbind result_bind].
  rewrite (to_bytes_Ok 4 17), (to_bytes_Ok 4 0) by (cbn; lia). cbn [mbind result_bind].
  rewrite (to_bytes_Ok 4 (3 * w * h + 17)) by (cbn; nia). cbn [mbind result_bind].
  unfold expected_header. now rewrite <- !app_assoc.
Qed.

Lemma to_bytes_Raise (n : nat) (v : Z) (e : exn) :
  to_bytes n v = Raise e -> e = OverflowError.
Proof. unfold to_bytes. case_match; congruence. Qed.

(** The header is rejected as soon as the resources offset does not fit. *)
Lemma header_overflow (w h : Z) (ih : bool) :
  0 <= w -> 0 <= h -> 2 ^ 32 <= 3 * w * h + 17 -> header w h ih = Raise OverflowError.
Proof.
  intros Hw Hh Hr. unfold header, _le_u16, _le_u32.
  rewrite bytearray_append_Ok by lia. cbn [mbind result_bind].
  destruct (to_bytes 2 w) eqn:Ew; cbn [mbind result_bind];
    [|now rewrite (to_bytes_Raise _ _ _ Ew)].
  destruct (to_bytes 2 h) eqn:Eh; cbn [mbind result_bind];
    [|now rewrite (to_bytes_Raise _ _ _ Eh)].
  rewrite (to_bytes_Ok 4 17) by (cbn; lia). cbn [mbind result_bind].
  destruct (to_bytes 4 (if negb ih then 0 else 3 * w * h + 17)) eqn:E0;
    cbn [mbind result_bind]; [|now rewrite (to_bytes_Raise _ _ _ E0)].
  rewrite to_bytes_overflow; [reflexivity|]. destruct ih; cbn; nia.
Qed.

Lemma length_expected_header (w h : Z) : length (expected_header w h) = 17%nat.
Proof. unfold expected_header. rewrite !length_app, !length_le_digits. reflexivity. Qed.

Lemma length_tile_bytes (t v : Z) : length (tile_bytes t v) = 3%nat.
Proof. unfold tile_bytes. rewrite length_app, length_le_digits. reflexivity. Qed.

(** Length and header of a stream laid out as header, tiles, resources. *)
Lemma layout_no_heights (w h : Z) (tiles : list Z) :
  0 <= w -> 0 <= h -> len tiles = 3 * w * h ->
  let out := trailer w h false (expected_header w h ++ tiles) in
  len out = 17 + 3 * w * h + 2 * w * h /\ take 17 out = expected_header w h.
Proof.
  intros Hw Hh Ht out. subst out. unfold trailer, len in *. split.
  - rewrite !length_app, length_expected_header, length_repeat_seq. cbn [length]. nia.
  - rewrite <- app_assoc. rewrite take_app_length'; [reflexivity|].
    now rewrite length_expected_header.
Qed.

Lemma build_map_bin_layout (w h tid var : Z) :
  1 <= w <= 65535 -> 1 <= h <= 65535 -> 3 * w * h + 17 < 2 ^ 32 ->
  0 <= tid < 65536 ->
  encodes_no_heights w h (build_map_bin w h tid var false).
Proof.
  intros Hw Hh Hr Ht. unfold build_map_bin.
  rewrite header_Ok by lia. cbn [mbind result_bind].
  rewrite (for_in_append _ _ (fun _ => concat (map (fun _ => tile_bytes tid var) (range h)))).
  2:{ intros i o _. apply for_in_append. intros j o' _. now apply emit_tile. }
  cbn [mbind result_bind]. eexists. split; [reflexivity|].
  apply layout_no_heights; [lia|lia|].
  unfold len. rewrite (length_concat_const (3 * Z.to_nat h)).
  - rewrite length_map, len_range by lia. lia.
  - apply Forall_map, Forall_forall. intros i _. cbn.
    rewrite (length_concat_const 3).
    + now rewrite length_map, len_range by lia.
    + apply Forall_map, Forall_forall. intros j _. apply length_tile_bytes.
Qed.

Lemma falsy_false {A} (l : list A) : 0 < len l -> falsy l = false.
Proof. destruct l; [unfold len; cbn; lia | reflexivity]. Qed.

Lemma check_heights_Ok {A} (cols : list (list A)) (h : Z) :
  Forall (fun col => len col = h) cols -> check_heights cols h = Ok tt.
Proof.
  unfold check_heights. induction 1 as [|col cols Hc _ IH]; [reflexivity|].
  cbn [for_in]. rewrite Hc, Z.eqb_refl. exact IH.
Qed.

Lemma getitem_total {A} `{Inhabited A} (l : list A) (i : Z) :
  0 <= i < len l -> getitem l i = Ok (l !!! Z.to_nat i).
Proof.
  intros Hi. apply getitem_Ok; [lia|].
  apply list_lookup_lookup_total_lt. unfold len in Hi. lia.
Qed.

Lemma rectangular_column {A} `{Inhabited A} (w h : Z) (g : list (list A)) (i : Z) :
  rectangular w h g -> 0 <= i < w -> len (g !!! Z.to_nat i) = h.
Proof.
  intros [Hw Hcols] Hi. rewrite Forall_forall in Hcols. apply Hcols.
  apply list_elem_of_lookup. exists (Z.to_nat i).
  apply list_lookup_lookup_total_lt. unfold len in Hw. lia.
Qed.

Lemma fits_u16_cell (w h : Z) (g : list (list Z)) (i j : Z) :
  rectangular w h g -> fits_u16 g -> 0 <= i < w -> 0 <= j < h ->
  0 <= cell_at g i j < 65536.
Proof.
  intros Hr Hf Hi Hj. unfold cell_at.
  pose proof (rectangular_column w h g i Hr Hi) as Hlen.
  destruct Hr as [Hw _]. unfold fits_u16 in Hf. rewrite Forall_forall in Hf.
  assert (Hcol : g !!! Z.to_nat i ∈ g).
  { apply list_elem_of_lookup. exists (Z.to_nat i).
    apply list_lookup_lookup_total_lt. unfold len in Hw. lia. }
  specialize (Hf _ Hcol). rewrite Forall_forall in Hf. apply Hf.
  apply list_elem_of_lookup. exists (Z.to_nat j).
  apply list_lookup_lookup_total_lt. unfold len in Hlen. lia.
Qed.

Lemma build_map_bin_from_grid_layout (w h : Z) (tt tv : list (list Z)) :
  1 <= w <= 65535 -> 1 <= h <= 65535 -> 3 * w * h + 17 < 2 ^ 32 ->
  rectangular w h tt -> rectangular w h tv -> fits_u16 tt ->
  encodes_no_heights w h (build_map_bin_from_grid tt tv false).
Proof.
  intros Hw Hh Hr Htt Htv Hfit.
  pose proof (rectangular_column w h tt 0 Htt ltac:(lia)) as Hcol0.
  assert (Hlw : len tt = w) by apply Htt.
  unfold build_map_bin_from_grid.
  rewrite (falsy_false tt) by lia.
  rewrite getitem_total by lia. cbn [mbind result_bind].
  rewrite (falsy_false (tt !!! Z.to_nat 0)) by lia.
  rewrite Hlw, Hcol0.
  rewrite (check_heights_Ok tt) by apply Htt. cbn [mbind result_bind].
  rewrite (check_heights_Ok tv) by apply Htv. cbn [mbind result_bind].
  rewrite header_Ok by lia. cbn [mbind result_bind].
  rewrite (for_in_append _ _
    (fun i => concat (map (fun j => tile_bytes (cell_at tt i j) (cell_at tv i j)) (range h)))).
  2:{ intros i o Hi. apply elem_of_range in Hi. apply for_in_append.
      intros j o' Hj. apply elem_of_range in Hj.
      pose proof (rectangular_column w h tt i Htt Hi) as Hci.
      pose proof (rectangular_column w h tv i Htv Hi) as Hvi.
      assert (Hlv : len tv = w) by apply Htv.
      rewrite (getitem_total tt) by lia. cbn [mbind result_bind].
      rewrite (getitem_total (tt !!! Z.to_nat i)) by lia. cbn [mbind result_bind].
      pose proof (fits_u16_cell w h tt i j Htt Hfit ltac:(lia) ltac:(lia)) as Hc.
      unfold cell_at in *. unfold _le_u16. rewrite to_bytes_Ok by (cbn; lia).
      cbn [mbind result_bind].
      rewrite (getitem_total tv) by lia. cbn [mbind result_bind].
      rewrite (getitem_total (tv !!! Z.to_nat i)) by lia. cbn [mbind result_bind].
      rewrite bytearray_append_Ok by apply land_255_byte.
      unfold tile_bytes. now rewrite <- app_assoc. }
  cbn [mbind result_bind]. eexists. split; [reflexivity|].
  apply layout_no_heights; [lia|lia|].
  unfold len. rewrite (length_concat_const (3 * Z.to_nat h)).
  - rewrite length_map, len_range by lia. lia.
  - apply Forall_map, Forall_forall. intros i _. cbn.
    rewrite (length_concat_const 3).
    + now rewrite length_map, len_range by lia.
    + apply Forall_map, Forall_forall. intros j _. apply length_tile_bytes.
Qed.

End EncoderFacts.

(** ** Grids *)

Section GridFacts.
Import Raster Spec.

Lemma getitem_nonneg {A} (l : list A) (i : Z) :
  0 <= i ->
  getitem l i = match l !! Z.to_nat i with Some x => Ok x | None => Raise IndexError end.
Proof.
  intros Hi. unfold getitem, len.
  destruct (Z.ltb_spec i 0); [lia|].
  destruct (Z.leb_spec 0 i); [|lia].
  destruct (Z.ltb_spec i (Z.of_nat (length l))); cbn [andb]; [reflexivity|].
  rewrite lookup_ge_None_2 by lia. reflexivity.
Qed.

Lemma setitem_nonneg {A} (l : list A) (i : Z) (x : A) :
  0 <= i ->
  setitem l i x = if decide (Z.to_nat i < length l)%nat
                  then Ok (<[Z.to_nat i := x]> l) else Raise IndexError.
Proof.
  intros Hi. unfold setitem, len.
  destruct (Z.ltb_spec i 0); [lia|].
  destruct (Z.leb_spec 0 i); [|lia].
  destruct (Z.ltb_spec i (Z.of_nat (length l))); cbn [andb];
    destruct (decide _); try reflexivity; lia.
Qed.

Lemma grid_get_nonneg (g : Grid) (i j : Z) :
  0 <= i -> 0 <= j ->
  grid_get g i j = match lookup2 g i j with Some x => Ok x | None => Raise IndexError end.
Proof.
  intros Hi Hj. unfold grid_get, lookup2. rewrite getitem_nonneg by assumption.
  destruct (g !! Z.to_nat i) as [col|]; simpl; [|reflexivity].
  now rewrite getitem_nonneg.
Qed.

Lemma grid_set_nonneg (g : Grid) (i j v a : Z) :
  0 <= i -> 0 <= j -> lookup2 g i j = Some a -> grid_set g i j v = Ok (upd g i j v).
Proof.
  intros Hi Hj Ha. unfold grid_set, lookup2, upd in *.
  rewrite getitem_nonneg by assumption.
  destruct (g !! Z.to_nat i) as [col|] eqn:Ecol; cbn in Ha; [|discriminate].
  cbn [mbind result_bind]. rewrite setitem_nonneg by assumption.
  apply lookup_lt_Some in Ha as Hj'. apply lookup_lt_Some in Ecol as Hi'.
  destruct (decide _); [|lia]. cbn [mbind result_bind].
  rewrite setitem_nonneg by assumption. destruct (decide _); [|lia].
  f_equal. apply list_eq. intros k. destruct (decide (k = Z.to_nat i)) as [->|Hk].
  - rewrite list_lookup_insert_eq by assumption.
    rewrite list_lookup_alter_eq, Ecol. reflexivity.
  - rewrite list_lookup_insert_ne by congruence.
    now rewrite list_lookup_alter_ne by congruence.
Qed.

Lemma lookup2_upd_eq (g : Grid) (i j v a : Z) :
  lookup2 g i j = Some a -> lookup2 (upd g i j v) i j = Some v.
Proof.
  unfold lookup2, upd. intros Ha. rewrite list_lookup_alter_eq.
  destruct (g !! Z.to_nat i) as [col|]; cbn in *; [|discriminate].
  apply list_lookup_insert_eq. now apply lookup_lt_Some in Ha.
Qed.

Lemma lookup2_upd_ne (g : Grid) (i j v i' j' : Z) :
  0 <= i -> 0 <= j -> 0 <= i' -> 0 <= j' -> (i', j') <> (i, j) ->
  lookup2 (upd g i j v) i' j' = lookup2 g i' j'.
Proof.
  intros Hi Hj Hi' Hj' Hne. unfold lookup2, upd.
  destruct (decide (Z.to_nat i' = Z.to_nat i)) as [E|E].
  - rewrite E, list_lookup_alter_eq.
    destruct (g !! Z.to_nat i) as [col|]; cbn; [|reflexivity].
    apply list_lookup_insert_ne. intros E'.
    apply Hne. f_equal; lia.
  - now rewrite list_lookup_alter_ne by congruence.
Qed.

Lemma shape_upd (g : Grid) (i j v : Z) : map length (upd g i j v) = map length g.
Proof.
  unfold upd. generalize (Z.to_nat i) as k. induction g as [|col g IH]; intros [|k]; cbn;
    try reflexivity.
  - now rewrite length_insert.
  - f_equal. apply IH.
Qed.

Lemma len_of_shape (g g' : Grid) : map length g' = map length g -> len g' = len g.
Proof. intros E. unfold len. now rewrite <- (length_map length g'), E, length_map. Qed.

Lemma grid_height_of_shape (g g' : Grid) :
  map length g' = map length g -> grid_height g' = grid_height g.
Proof.
  destruct g, g'; cbn; intros E; try discriminate; [reflexivity|].
  unfold len. now injection E as ->.
Qed.

Lemma column_changes_insert (c c' : list Z) (j : nat) (a v : Z) :
  c !! j = Some a -> c' !! j = Some a -> a <> v ->
  column_changes c (<[j := v]> c') = S (column_changes c c').
Proof.
  unfold column_changes. revert c c'.
  induction j as [|j IH]; intros [|x c] [|y c'] Hc Hc' Hne; try discriminate.
  - simpl in Hc, Hc'. injection Hc as ->. injection Hc' as ->. simpl.
    rewrite !filter_cons. simpl.
    destruct (decide (a <> v)); [|contradiction].
    destruct (decide (a <> a)); [contradiction|]. reflexivity.
  - simpl in Hc, Hc'. simpl. rewrite !filter_cons.
    specialize (IH c c' Hc Hc' Hne).
    destruct (decide _); simpl; now rewrite IH.
Qed.

Lemma changed_cells_upd (g g' : Grid) (i j v a : Z) :
  lookup2 g i j = Some a -> lookup2 g' i j = Some a -> a <> v ->
  changed_cells g (upd g' i j v) = changed_cells g g' + 1.
Proof.
  unfold changed_cells, lookup2, upd. generalize (Z.to_nat i) as k.
  intros k Hg Hg' Hne.
  enough (sum_list (zip_with column_changes g (alter (fun col => <[Z.to_nat j := v]> col) k g'))
          = S (sum_list (zip_with column_changes g g'))) as -> by lia.
  revert g g' Hg Hg'. induction k as [|k IH]; intros [|c g] [|c' g'] Hg Hg';
    try discriminate; cbn in Hg, Hg'.
  - cbn. now rewrite (column_changes_insert c c' _ a v).
  - cbn. cbn in IH. rewrite (IH g g' Hg Hg'). lia.
Qed.

Lemma changed_cells_refl (g : Grid) : changed_cells g g = 0.
Proof.
  unfold changed_cells. enough (sum_list (zip_with column_changes g g) = 0%nat) as -> by reflexivity.
  induction g as [|c g IH]; [reflexivity|]. cbn. rewrite IH.
  enough (column_changes c c = 0%nat) as -> by reflexivity.
  unfold column_changes. induction c as [|x c IHc]; [reflexivity|].
  cbn [zip zip_with]. rewrite filter_cons. cbn [fst snd].
  destruct (decide (x <> x)); [contradiction | exact IHc].
Qed.

End GridFacts.

(** ** Rasterising loops *)

Section PaintFacts.
Import Raster Spec.

Lemma for_in_ext {A S} (xs : list A) (f g : A -> S -> result S) (s : S) :
  (forall x s, x ∈ xs -> f x s = g x s) -> for_in xs f s = for_in xs g s.
Proof.
  revert s; induction xs as [|x xs IH]; intros s Hfg; [reflexivity|].
  cbn [for_in]. rewrite Hfg by left. destruct (g x s); cbn [mbind result_bind]; [|reflexivity].
  apply IH. intros; apply Hfg. now right.
Qed.

Lemma for_in_nested {S} (xs ys : list Z) (body : Z * Z -> S -> result S) (s : S) :
  for_in xs (fun i st => for_in ys (fun j st => body (i, j) st) st) s
  = for_in (cells_of xs ys) body s.
Proof.
  unfold cells_of. revert s; induction xs as [|i xs IH]; intros s; [reflexivity|].
  cbn [for_in]. change ((i :: xs) ≫= _) with
    ((ys ≫= fun j => [(i, j)]) ++ (xs ≫= fun i => ys ≫= fun j => [(i, j)])).
  rewrite for_in_app.
  assert (E : forall s, for_in ys (fun j st => body (i, j) st) s
                        = for_in (ys ≫= fun j => [(i, j)]) body s).
  { clear. induction ys as [|j ys IHy]; intros s; [reflexivity|].
    cbn [for_in]. change ((j :: ys) ≫= _) with ((i, j) :: (ys ≫= fun j => [(i, j)])).
    cbn [for_in]. destruct (body (i, j) s); cbn [mbind result_bind]; [apply IHy | reflexivity]. }
  rewrite E. destruct (for_in _ body s); cbn [mbind result_bind]; [apply IH | reflexivity].
Qed.

Lemma elem_of_cells_of (xs ys : list Z) (i j : Z) :
  (i, j) ∈ cells_of xs ys <-> i ∈ xs /\ j ∈ ys.
Proof.
  unfold cells_of. rewrite list_elem_of_bind. split.
  - intros (i' & Hin & Hi'). apply list_elem_of_bind in Hin as (j' & Hin & Hj').
    apply list_elem_of_singleton in Hin. injection Hin as -> ->. now split.
  - intros [Hi Hj]. exists i. split; [|assumption].
    apply list_elem_of_bind. exists j. split; [|assumption]. now left.
Qed.

Lemma NoDup_cells_of (xs ys : list Z) : NoDup xs -> NoDup ys -> NoDup (cells_of xs ys).
Proof.
  intros Hxs Hys. unfold cells_of. induction Hxs as [|i xs Hi Hxs IH]; [constructor|].
  change ((i :: xs) ≫= _) with
    ((ys ≫= fun j => [(i, j)]) ++ (xs ≫= fun i => ys ≫= fun j => [(i, j)])).
  apply NoDup_app. split; [|split; [|exact IH]].
  - clear -Hys. induction Hys as [|j ys Hj Hys IHy]; [constructor|].
    change ((j :: ys) ≫= _) with ((i, j) :: (ys ≫= fun j => [(i, j)])).
    constructor; [|exact IHy]. intros Hin.
    apply list_elem_of_bind in Hin as (j' & Hin & Hj').
    apply list_elem_of_singleton in Hin. injection Hin as ->. contradiction.
  - intros [i' j'] Hin Hin'.
    apply list_elem_of_bind in Hin as (j0 & Hin & _).
    apply list_elem_of_singleton in Hin. injection Hin as -> ->.
    change (xs ≫= _) with (cells_of xs ys) in Hin'.
    apply elem_of_cells_of in Hin' as [? _]. contradiction.
Qed.

Lemma NoDup_range2 (lo hi : Z) : NoDup (range2 lo hi).
Proof. apply NoDup_seqZ. Qed.

Lemma elem_of_range2 (lo hi i : Z) : i ∈ range2 lo hi <-> lo <= i < hi.
Proof. unfold range2. rewrite elem_of_seqZ. lia. Qed.

(** The three outcomes of painting a cell with indices from 0 up. *)
Lemma paint_outside (g : Grid) (n i j v : Z) :
  0 <= i -> 0 <= j -> lookup2 g i j = None -> paint i j v (g, n) = Raise IndexError.
Proof. intros Hi Hj E. unfold paint. now rewrite grid_get_nonneg, E. Qed.

Lemma paint_same (g : Grid) (n i j v : Z) :
  0 <= i -> 0 <= j -> lookup2 g i j = Some v -> paint i j v (g, n) = Ok (g, n).
Proof.
  intros Hi Hj E. unfold paint. rewrite grid_get_nonneg, E by assumption.
  cbn [mbind result_bind]. now rewrite Z.eqb_refl.
Qed.

Lemma paint_changes (g : Grid) (n i j v a : Z) :
  0 <= i -> 0 <= j -> lookup2 g i j = Some a -> a <> v ->
  paint i j v (g, n) = Ok (upd g i j v, n + 1).
Proof.
  intros Hi Hj E Hne. unfold paint. rewrite grid_get_nonneg, E by assumption.
  cbn [mbind result_bind]. destruct (Z.eqb_spec a v); [contradiction|]. cbn [negb].
  now rewrite (grid_set_nonneg g i j v a).
Qed.

Lemma paint_if_cell (sel : Z -> Z -> result bool) (v i j : Z) (st : Grid * Z) :
  paint_if sel v (i, j) st
  = (sel i j ≫= fun b : bool => if b then paint i j v st else Ok st).
Proof. reflexivity. Qed.

Section Loop.
Variables (sel : Z -> Z -> result bool) (v : Z).
Hypothesis sel_nonneg : forall i j, sel i j = Ok true -> 0 <= i /\ 0 <= j.

(** Nothing happens when every selected cell already holds the value. *)
Lemma paint_loop_noop (cs : list (Z * Z)) (g : Grid) (n : Z) :
  (forall c, c ∈ cs -> exists b, sel (fst c) (snd c) = Ok b /\
                                 (b = true -> lookup2 g (fst c) (snd c) = Some v)) ->
  for_in cs (paint_if sel v) (g, n) = Ok (g, n).
Proof.
  induction cs as [|[i j] cs IH]; intros Hcs; [reflexivity|].
  cbn [for_in]. destruct (Hcs (i, j)) as (b & Hb & Hv); [left|].
  rewrite paint_if_cell. cbn [fst snd] in *. rewrite Hb. cbn [mbind result_bind].
  destruct b.
  - destruct (sel_nonneg i j Hb). rewrite paint_same by auto. cbn [mbind result_bind].
    apply IH. intros; apply Hcs. now right.
  - cbn [mbind result_bind]. apply IH. intros; apply Hcs. now right.
Qed.

(** What a completed loop has done, relative to a reference grid [g0] with
    which the current grid still agrees on the cells yet to be visited. *)
Lemma paint_loop_spec (g0 : Grid) (cs : list (Z * Z)) :
  NoDup cs ->
  forall (g : Grid) (n : Z) (g' : Grid) (n' : Z),
  (forall i j, (i, j) ∈ cs -> 0 <= i -> 0 <= j -> lookup2 g i j = lookup2 g0 i j) ->
  for_in cs (paint_if sel v) (g, n) = Ok (g', n') ->
  n' - n = changed_cells g0 g' - changed_cells g0 g /\
  map length g' = map length g /\
  (forall c, c ∈ cs -> exists b, sel (fst c) (snd c) = Ok b /\
                                 (b = true -> lookup2 g' (fst c) (snd c) = Some v)) /\
  (forall i j, 0 <= i -> 0 <= j -> (i, j) ∉ cs -> lookup2 g' i j = lookup2 g i j).
Proof.
  induction 1 as [|[i j] cs Hnotin Hnd IH]; intros g n g' n' Hagree Hrun.
  - cbn in Hrun. injection Hrun as <- <-. repeat split; try lia.
    intros c Hc. inversion Hc.
  - cbn [for_in] in Hrun. apply bind_inv_Ok in Hrun as ([g1 n1] & Hstep & Hrest).
    rewrite paint_if_cell in Hstep.
    apply bind_inv_Ok in Hstep as (b & Hb & Hstep).
    assert (Hstep' :
      (g1, n1) = (g, n) /\ (b = true -> lookup2 g i j = Some v) \/
      exists a, b = true /\ 0 <= i /\ 0 <= j /\ lookup2 g i j = Some a /\ a <> v /\
                g1 = upd g i j v /\ n1 = n + 1).
    { destruct b; [|left; split; [congruence | discriminate]].
      destruct (sel_nonneg i j Hb) as [Hi Hj].
      destruct (lookup2 g i j) as [a|] eqn:Ea.
      - destruct (decide (a = v)) as [->|Hne].
        + rewrite paint_same in Hstep by assumption. left. split; congruence.
        + rewrite (paint_changes g n i j v a) in Hstep by assumption.
          right. exists a. injection Hstep as <- <-. repeat split; auto.
      - rewrite paint_outside in Hstep by assumption. discriminate. }
    destruct Hstep' as [[E Hv] | (a & -> & Hi & Hj & Ea & Hne & -> & ->)].
    + injection E as -> ->.
      destruct (IH g n g' n') as (Hn & Hshape & Hsel & Hother); [|assumption|].
      { intros; apply Hagree; [now right | lia | lia]. }
      repeat split; [exact Hn | exact Hshape | |].
      * intros c Hc. apply elem_of_cons in Hc as [->|Hc]; [|now apply Hsel].
        exists b. split; [exact Hb|]. intros ->. cbn [fst snd].
        destruct (sel_nonneg i j Hb). rewrite Hother by assumption. now apply Hv.
      * intros i' j' Hi' Hj' Hn'. apply Hother; try assumption.
        intros Hin. apply Hn'. now right.
    + destruct (IH (upd g i j v) (n + 1) g' n') as (Hn & Hshape & Hsel & Hother);
        [|assumption|].
      { intros i' j' Hin Hi' Hj'. rewrite lookup2_upd_ne by (try assumption; congruence).
        apply Hagree; [now right | lia | lia]. }
      assert (Ea0 : lookup2 g0 i j = Some a).
      { rewrite <- Hagree by (try assumption; left). exact Ea. }
      rewrite (changed_cells_upd g0 g i j v a) in Hn by assumption.
      repeat split; [lia | now rewrite Hshape, shape_upd | |].
      * intros c Hc. apply elem_of_cons in Hc as [->|Hc]; [|now apply Hsel].
        exists true. split; [exact Hb|]. intros _. cbn [fst snd].
        rewrite Hother by assumption. now apply (lookup2_upd_eq g i j v a).
      * intros i' j' Hi' Hj' Hn'. rewrite Hother; try assumption.
        -- apply lookup2_upd_ne; try assumption. intros E. apply Hn'. rewrite E. now left.
        -- intros Hin. apply Hn'. now right.
Qed.

(** A rasterising loop reports the number of cells it changed, and running it
    again on its own output changes nothing. *)
Lemma paint_loop_idempotent (cs : list (Z * Z)) (g g' : Grid) (n : Z) :
  NoDup cs ->
  for_in cs (paint_if sel v) (g, 0) = Ok (g', n) ->
  n = changed_cells g g' /\
  map length g' = map length g /\
  for_in cs (paint_if sel v) (g', 0) = Ok (g', 0).
Proof.
  intros Hnd Hrun.
  destruct (paint_loop_spec g cs Hnd g 0 g' n) as (Hn & Hshape & Hsel & _);
    [reflexivity | assumption |].
  rewrite changed_cells_refl in Hn.
  repeat split; [lia | exact Hshape |]. now apply paint_loop_noop.
Qed.

End Loop.

End PaintFacts.

(** ** [_draw_disc] and [_fill_polygon] as rasterising loops *)

Section RasterLoops.
Import Raster Spec.

Lemma window_cells (w h : Z) (x0 x1 y0 y1 : float) (cs : list (Z * Z)) :
  window w h x0 x1 y0 y1 = Ok cs ->
  NoDup cs /\ forall i j, (i, j) ∈ cs -> 0 <= i < w /\ 0 <= j < h.
Proof.
  unfold window. intros Hw.
  apply bind_inv_Ok in Hw as (a0 & _ & Hw). apply bind_inv_Ok in Hw as (a1 & _ & Hw).
  apply bind_inv_Ok in Hw as (b0 & _ & Hw). apply bind_inv_Ok in Hw as (b1 & _ & Hw).
  injection Hw as <-. split.
  - apply NoDup_cells_of; apply NoDup_range2.
  - intros i j Hin. apply elem_of_cells_of in Hin as [Hi Hj].
    apply elem_of_range2 in Hi, Hj. lia.
Qed.

Lemma draw_disc_loop (g : Grid) (cx cy rc : float) (v : Z) :
  _draw_disc g cx cy rc v
  = let r := fmax 0 rc in
    cs ← window (len g) (grid_height g) (cx - r) (cx + r) (cy - r) (cy + r);
    for_in cs (paint_if (disc_sel (len g) (grid_height g) cx cy (r * r)) v) (g, 0).
Proof.
  unfold _draw_disc, window. cbv zeta.
  destruct (trunc (cx - fmax 0 rc)) as [a0|]; [|reflexivity]. cbn [mbind result_bind].
  destruct (trunc (cx + fmax 0 rc)) as [a1|]; [|reflexivity]. cbn [mbind result_bind].
  destruct (trunc (cy - fmax 0 rc)) as [b0|]; [|reflexivity]. cbn [mbind result_bind].
  destruct (trunc (cy + fmax 0 rc)) as [b1|]; [|reflexivity]. cbn [mbind result_bind].
  rewrite <- for_in_nested. apply for_in_ext. intros i st _.
  apply for_in_ext. intros j st' _. rewrite paint_if_cell. unfold disc_sel.
  cbn [mbind result_bind]. now destruct (_ <=? _)%float, (in_bounds _ _ i j).
Qed.

Lemma disc_sel_nonneg (w h : Z) (cx cy r2 : float) (i j : Z) :
  disc_sel w h cx cy r2 i j = Ok true -> 0 <= i /\ 0 <= j.
Proof.
  unfold disc_sel, in_bounds. intros E. injection E as E.
  apply andb_true_iff in E as [_ E]. lia.
Qed.

Lemma poly_sel_nonneg (poly : list (float * float)) (i j : Z) :
  poly_sel poly i j = Ok true -> 0 <= i /\ 0 <= j.
Proof.
  unfold poly_sel. destruct (Z.leb_spec 0 i), (Z.leb_spec 0 j); cbn [andb];
    try discriminate. now split.
Qed.

Lemma fill_polygon_loop (g : Grid) (p : float * float) (rest : list (float * float)) (v : Z) :
  let poly := p :: rest in
  _fill_polygon g poly v
  = (cs ← window (len g) (grid_height g)
            (fold_left fmin (map fst rest) (fst p)) (fold_left fmax (map fst rest) (fst p))
            (fold_left fmin (map snd rest) (snd p)) (fold_left fmax (map snd rest) (snd p));
     for_in cs (paint_if (poly_sel poly) v) (g, 0)).
Proof.
  intros poly. subst poly. unfold _fill_polygon, window.
  cbn [falsy map min_list max_list mbind result_bind].
  destruct (trunc (fold_left fmin (map fst rest) (fst p))) as [a0|]; [|reflexivity].
  cbn [mbind result_bind].
  destruct (trunc (fold_left fmax (map fst rest) (fst p))) as [a1|]; [|reflexivity].
  cbn [mbind result_bind].
  destruct (trunc (fold_left fmin (map snd rest) (snd p))) as [b0|]; [|reflexivity].
  cbn [mbind result_bind].
  destruct (trunc (fold_left fmax (map snd rest) (snd p))) as [b1|]; [|reflexivity].
  cbn [mbind result_bind].
  rewrite <- for_in_nested. apply for_in_ext. intros i st Hi.
  apply for_in_ext. intros j st' Hj. apply elem_of_range2 in Hi, Hj.
  rewrite paint_if_cell. unfold poly_sel.
  destruct (Z.leb_spec 0 i); [|lia]. destruct (Z.leb_spec 0 j); [|lia]. reflexivity.
Qed.

(** Idempotence of [_draw_disc]. *)
Lemma draw_disc_idempotent (g g' : Grid) (cx cy rc : float) (v n : Z) :
  _draw_disc g cx cy rc v = Ok (g', n) ->
  n = changed_cells g g' /\ _draw_disc g' cx cy rc v = Ok (g', 0).
Proof.
  rewrite !draw_disc_loop. cbv zeta. intros Hrun.
  apply bind_inv_Ok in Hrun as (cs & Hcs & Hrun).
  destruct (window_cells _ _ _ _ _ _ _ Hcs) as [Hnd _].
  destruct (paint_loop_idempotent _ v (disc_sel_nonneg _ _ cx cy _) cs g g' n Hnd Hrun)
    as (Hn & Hshape & Hagain).
  split; [exact Hn|].
  rewrite (len_of_shape _ _ Hshape), (grid_height_of_shape _ _ Hshape), Hcs.
  exact Hagain.
Qed.

(** Idempotence of [_fill_polygon]. *)
Lemma fill_polygon_idempotent (g g' : Grid) (poly : list (float * float)) (v n : Z) :
  _fill_polygon g poly v = Ok (g', n) ->
  n = changed_cells g g' /\ _fill_polygon g' poly v = Ok (g', 0).
Proof.
  destruct poly as [|p rest].
  - cbn. intros E. injection E as <- <-. now rewrite changed_cells_refl.
  - rewrite !fill_polygon_loop. cbv zeta. intros Hrun.
    apply bind_inv_Ok in Hrun as (cs & Hcs & Hrun).
    destruct (window_cells _ _ _ _ _ _ _ Hcs) as [Hnd _].
    destruct (paint_loop_idempotent _ v (poly_sel_nonneg (p :: rest)) cs g g' n Hnd Hrun)
      as (Hn & Hshape & Hagain).
    split; [exact Hn|].
    rewrite (len_of_shape _ _ Hshape), (grid_height_of_shape _ _ Hshape), Hcs.
    exact Hagain.
Qed.

(** Both rasterisers keep the shape of the grid: the number of columns and
    the length of every column. *)
Lemma draw_disc_shape (g g' : Grid) (cx cy rc : float) (v n : Z) :
  _draw_disc g cx cy rc v = Ok (g', n) -> map length g' = map length g.
Proof.
  rewrite draw_disc_loop. cbv zeta. intros Hrun.
  apply bind_inv_Ok in Hrun as (cs & Hcs & Hrun).
  destruct (window_cells _ _ _ _ _ _ _ Hcs) as [Hnd _].
  now destruct (paint_loop_idempotent _ v (disc_sel_nonneg _ _ cx cy _) cs g g' n Hnd Hrun)
    as (_ & Hshape & _).
Qed.

Lemma fill_polygon_shape (g g' : Grid) (poly : list (float * float)) (v n : Z) :
  _fill_polygon g poly v = Ok (g', n) -> map length g' = map length g.
Proof.
  destruct poly as [|p rest].
  - cbn. intros E. now injection E as <- <-.
  - rewrite fill_polygon_loop. cbv zeta. intros Hrun.
    apply bind_inv_Ok in Hrun as (cs & Hcs & Hrun).
    destruct (window_cells _ _ _ _ _ _ _ Hcs) as [Hnd _].
    now destruct (paint_loop_idempotent _ v (poly_sel_nonneg (p :: rest)) cs g g' n Hnd Hrun)
      as (_ & Hshape & _).
Qed.

End RasterLoops.

(** ** When the rasterisers return *)

Section RasterTotal.
Import Raster Spec.

Lemma trunc_finite (x : float) : is_finite x = true -> exists a, trunc x = Ok a.
Proof.
  unfold is_finite, trunc, to_integer. destruct (Prim2SF x); try discriminate; eauto.
Qed.

Lemma trunc_not_finite (x : float) : is_finite x = false -> exists e, trunc x = Raise e.
Proof.
  unfold is_finite, trunc, to_integer. destruct (Prim2SF x); try discriminate; eauto.
Qed.

Lemma fold_fmin_elem (l : list float) (x : float) : fold_left fmin l x ∈ x :: l.
Proof.
  revert x; induction l as [|y l IH]; intros x; [left|].
  cbn [fold_left]. specialize (IH (fmin x y)).
  apply elem_of_cons in IH as [E|IH]; [|now do 2 right].
  rewrite E. unfold fmin. destruct (y <? x)%float; [right|]; left.
Qed.

Lemma fold_fmax_elem (l : list float) (x : float) : fold_left fmax l x ∈ x :: l.
Proof.
  revert x; induction l as [|y l IH]; intros x; [left|].
  cbn [fold_left]. specialize (IH (fmax x y)).
  apply elem_of_cons in IH as [E|IH]; [|now do 2 right].
  rewrite E. unfold fmax. destruct (x <? y)%float; [right|]; left.
Qed.

Lemma window_total (w h : Z) (x0 x1 y0 y1 : float) :
  is_finite x0 = true -> is_finite x1 = true ->
  is_finite y0 = true -> is_finite y1 = true ->
  exists cs, window w h x0 x1 y0 y1 = Ok cs.
Proof.
  intros H0 H1 H2 H3. unfold window.
  destruct (trunc_finite _ H0) as [a0 ->]. destruct (trunc_finite _ H1) as [a1 ->].
  destruct (trunc_finite _ H2) as [b0 ->]. destruct (trunc_finite _ H3) as [b1 ->].
  cbn [mbind result_bind]. eauto.
Qed.

Lemma finite_ring_box (p : float * float) (rest : list (float * float)) :
  finite_ring (p :: rest) ->
  is_finite (fold_left fmin (map fst rest) (fst p)) = true /\
  is_finite (fold_left fmax (map fst rest) (fst p)) = true /\
  is_finite (fold_left fmin (map snd rest) (snd p)) = true /\
  is_finite (fold_left fmax (map snd rest) (snd p)) = true.
Proof.
  intros Hfin. unfold finite_ring in Hfin. rewrite Forall_forall in Hfin.
  assert (Hx : forall x, x ∈ fst p :: map fst rest -> is_finite x = true).
  { intros x Hx. change (fst p :: map fst rest) with (map fst (p :: rest)) in Hx.
    apply list_elem_of_fmap in Hx as (q & -> & Hq). now apply Hfin. }
  assert (Hy : forall y, y ∈ snd p :: map snd rest -> is_finite y = true).
  { intros y Hy. change (snd p :: map snd rest) with (map snd (p :: rest)) in Hy.
    apply list_elem_of_fmap in Hy as (q & -> & Hq). now apply Hfin. }
  split; [apply Hx, fold_fmin_elem|].
  split; [apply Hx, fold_fmax_elem|].
  split; [apply Hy, fold_fmin_elem | apply Hy, fold_fmax_elem].
Qed.

Lemma getitem_last {A} (l : list A) (x : A) : last l = Some x -> getitem l (-1) = Ok x.
Proof.
  intros Hl. rewrite last_lookup in Hl. apply lookup_lt_Some in Hl as Hlt.
  unfold getitem, len. cbn [Z.ltb Z.compare].
  destruct (Z.leb_spec 0 (-1 + Z.of_nat (length l))); [|lia].
  destruct (Z.ltb_spec (-1 + Z.of_nat (length l)) (Z.of_nat (length l))); [|lia].
  cbn [andb]. replace (Z.to_nat (-1 + Z.of_nat (length l))) with (pred (length l)) by lia.
  now rewrite Hl.
Qed.

Lemma point_in_poly_short (px py : float) (poly : list (float * float)) :
  len poly < 3 -> _point_in_poly px py poly = Ok false.
Proof.
  intros Hn. unfold _point_in_poly. now destruct (Z.ltb_spec (len poly) 3); [|lia].
Qed.

Lemma edge_crosses_defined (px py : float) (pi pj : float * float) :
  negb (snd pj - snd pi + 1e-9 =? 0)%float = true ->
  exists c, edge_crosses px py pi pj = Ok c.
Proof.
  intros Hne. apply negb_true_iff in Hne. unfold edge_crosses, fdiv.
  destruct pi as [xi yi], pj as [xj yj]. cbn [snd] in Hne. rewrite Hne.
  destruct (xorb (py <? yi)%float (py <? yj)%float); cbn [mbind result_bind]; eauto.
Qed.

Lemma point_in_poly_total (px py : float) (poly : list (float * float)) :
  ring_defined poly = true -> exists b, _point_in_poly px py poly = Ok b.
Proof.
  intros Hdef. unfold _point_in_poly. destruct (Z.ltb_spec (len poly) 3) as [|Hlen]; [eauto|].
  unfold ring_defined in Hdef. destruct (last poly) as [pl|] eqn:Hlast.
  - rewrite (getitem_last _ _ Hlast). cbn [mbind result_bind].
    enough (forall inside,
      exists r, for_in poly (fun pi (st : bool * (float * float)) =>
                  let '(inside, pj) := st in
                  c ← edge_crosses px py pi pj;
                  Ok (if (c : bool) then negb inside else inside, pi)) (inside, pl) = Ok r)
      as Hloop.
    { destruct (Hloop false) as [r ->]. cbn [mbind result_bind]. eauto. }
    clear Hlast Hlen. revert pl Hdef. induction poly as [|pi poly IH]; intros pj Hdef inside;
      [cbn; eauto|].
    cbn [edges_defined] in Hdef. apply andb_true_iff in Hdef as [Hne Hdef].
    cbn [for_in]. destruct (edge_crosses_defined px py pi pj Hne) as [c ->].
    cbn [mbind result_bind]. apply IH. exact Hdef.
  - apply last_None in Hlast. subst poly. unfold len in Hlen. cbn in Hlen. lia.
Qed.

Lemma rectangular_of_shape (w h : Z) (g g' : Grid) :
  map length g' = map length g -> rectangular w h g -> rectangular w h g'.
Proof.
  intros Hshape [Hw Hcols]. split.
  - now rewrite (len_of_shape _ _ Hshape).
  - unfold len in *.
    apply (Forall_fmap length (fun l => Z.of_nat l = h)) in Hcols.
    apply (Forall_fmap length (fun l => Z.of_nat l = h)).
    change (fmap length g') with (map length g'). now rewrite Hshape.
Qed.

Lemma rectangular_lookup2 (w h : Z) (g : Grid) (i j : Z) :
  rectangular w h g -> 0 <= i < w -> 0 <= j < h -> exists a, lookup2 g i j = Some a.
Proof.
  intros [Hw Hcols] Hi Hj. unfold lookup2, len in *.
  destruct (lookup_lt_is_Some_2 g (Z.to_nat i)) as [col Hcol]; [lia|].
  rewrite Hcol. cbn. rewrite Forall_forall in Hcols.
  assert (Hlen : Z.of_nat (length col) = h).
  { apply Hcols. apply list_elem_of_lookup. eauto. }
  destruct (lookup_lt_is_Some_2 col (Z.to_nat j)) as [a Ha]; [lia|]. eauto.
Qed.

Lemma paint_loop_total (sel : Z -> Z -> result bool) (v w h : Z) (cs : list (Z * Z)) :
  (forall c, c ∈ cs -> exists b, sel (fst c) (snd c) = Ok b /\
                                 (b = true -> 0 <= fst c < w /\ 0 <= snd c < h)) ->
  forall (g : Grid) (n : Z), rectangular w h g ->
  exists g' n', for_in cs (paint_if sel v) (g, n) = Ok (g', n').
Proof.
  induction cs as [|[i j] cs IH]; intros Hcs g n Hrect; [cbn; eauto|].
  cbn [for_in]. rewrite paint_if_cell.
  destruct (Hcs (i, j)) as (b & Hb & Hin); [left|]. cbn [fst snd] in *.
  rewrite Hb. cbn [mbind result_bind].
  assert (Hcs' : forall c, c ∈ cs -> exists b, sel (fst c) (snd c) = Ok b /\
                                 (b = true -> 0 <= fst c < w /\ 0 <= snd c < h)).
  { intros; apply Hcs. now right. }
  destruct b; [|cbn [mbind result_bind]; now apply IH].
  destruct (Hin eq_refl) as [Hi Hj].
  destruct (rectangular_lookup2 w h g i j Hrect Hi Hj) as [a Ha].
  destruct (decide (a = v)) as [->|Hne].
  - rewrite paint_same by (try assumption; lia). cbn [mbind result_bind]. now apply IH.
  - rewrite (paint_changes g n i j v a) by (try assumption; lia).
    cbn [mbind result_bind]. apply IH; [assumption|].
    apply (rectangular_of_shape w h g); [apply shape_upd | assumption].
Qed.

Lemma draw_disc_total (g : Grid) (cx cy rc : float) (v : Z) :
  rectangular (len g) (grid_height g) g ->
  (let r := fmax 0 rc in
   is_finite (cx - r) && is_finite (cx + r) && is_finite (cy - r) && is_finite (cy + r)) = true ->
  exists g' n, _draw_disc g cx cy rc v = Ok (g', n).
Proof.
  cbv zeta. intros Hrect Hfin. rewrite !andb_true_iff in Hfin.
  destruct Hfin as [[[H0 H1] H2] H3]. rewrite draw_disc_loop. cbv zeta.
  destruct (window_total (len g) (grid_height g) _ _ _ _ H0 H1 H2 H3) as [cs Hcs].
  rewrite Hcs. cbn [mbind result_bind].
  apply (paint_loop_total _ v (len g) (grid_height g)); [|assumption].
  intros [i j] _. eexists. split; [reflexivity|]. cbn [fst snd].
  unfold in_bounds. intros E. apply andb_true_iff in E as [_ E]. lia.
Qed.

Lemma fill_polygon_total (g : Grid) (poly : list (float * float)) (v : Z) :
  rectangular (len g) (grid_height g) g ->
  finite_ring poly -> ring_defined poly = true ->
  exists g' n, _fill_polygon g poly v = Ok (g', n).
Proof.
  intros Hrect Hfin Hdef. destruct poly as [|p rest]; [cbn; eauto|].
  rewrite fill_polygon_loop. cbv zeta.
  destruct (finite_ring_box p rest Hfin) as (H0 & H1 & H2 & H3).
  destruct (window_total (len g) (grid_height g) _ _ _ _ H0 H1 H2 H3) as [cs Hcs].
  rewrite Hcs. cbn [mbind result_bind].
  destruct (window_cells _ _ _ _ _ _ _ Hcs) as [_ Hin].
  apply (paint_loop_total _ v (len g) (grid_height g)); [|assumption].
  intros [i j] Hc. cbn [fst snd]. specialize (Hin i j Hc). unfold poly_sel.
  destruct (Z.leb_spec 0 i); [|lia]. destruct (Z.leb_spec 0 j); [|lia]. cbn [andb].
  destruct (point_in_poly_total (of_int i + 0.5) (of_int j + 0.5) (p :: rest) Hdef) as [b ->].
  eauto.
Qed.

(** A ring with fewer than three vertices selects no cell. *)
Lemma fill_polygon_short (g : Grid) (poly : list (float * float)) (v : Z) :
  len poly < 3 -> finite_ring poly -> _fill_polygon g poly v = Ok (g, 0).
Proof.
  intros Hn Hfin. destruct poly as [|p rest] eqn:Epoly; [reflexivity|].
  rewrite fill_polygon_loop. cbv zeta.
  destruct (finite_ring_box p rest Hfin) as (H0 & H1 & H2 & H3).
  destruct (window_total (len g) (grid_height g) _ _ _ _ H0 H1 H2 H3) as [cs Hcs].
  rewrite Hcs. cbn [mbind result_bind].
  apply (paint_loop_noop _ v (poly_sel_nonneg (p :: rest))).
  intros [i j] _. exists false. split; [|discriminate]. cbn [fst snd]. unfold poly_sel.
  destruct (_ && _); [|reflexivity]. now apply point_in_poly_short.
Qed.

End RasterTotal.

(** ** The rasterisers on the fixtures *)

Section RasterExamples.
Import Raster Spec Fixtures.

(** Polygon fill exactness (section 8): the square ring fills exactly the four
    cells with centres (0.5,0.5), (1.5,0.5), (0.5,1.5), (1.5,1.5). *)
Example fill_square :
  _fill_polygon clear4 square_ring WATER_TEMPLATE_ID
  = Ok ([[1; 1; 255; 255]; [1; 1; 255; 255]; [255; 255; 255; 255]; [255; 255; 255; 255]], 4).
Proof. vm_compute. reflexivity. Qed.

(** A disc of radius 1 around (2, 2) covers the four cells that meet at the
    point, and drawing it again changes nothing. *)
Example draw_disc_then_again :
  _draw_disc clear4 2 2 1 WATER_TEMPLATE_ID
  = Ok ([[255; 255; 255; 255]; [255; 1; 1; 255]; [255; 1; 1; 255]; [255; 255; 255; 255]], 4) /\
  _draw_disc [[255; 255; 255; 255]; [255; 1; 1; 255]; [255; 1; 1; 255]; [255; 255; 255; 255]]
             2 2 1 WATER_TEMPLATE_ID
  = Ok ([[255; 255; 255; 255]; [255; 1; 1; 255]; [255; 1; 1; 255]; [255; 255; 255; 255]], 0).
Proof. split; vm_compute; reflexivity. Qed.

End RasterExamples.

(** ** River smoothing *)

Section RiverFacts.
Import Raster Overlay Spec.

Lemma rectangular_dims (w h : Z) (g : Grid) :
  rectangular w h g -> 0 < w -> len g = w /\ grid_height g = h.
Proof.
  intros [Hw Hcols] Hpos. split; [exact Hw|].
  destruct g as [|col g]; [unfold len in Hw; cbn in Hw; lia|].
  cbn. now inversion Hcols.
Qed.

Lemma rectangular_cell_at (w h : Z) (g : Grid) (i j : Z) :
  rectangular w h g -> 0 <= i < w -> 0 <= j < h -> lookup2 g i j = Some (cell_at g i j).
Proof.
  intros Hrect Hi Hj. destruct (rectangular_lookup2 w h g i j Hrect Hi Hj) as [a Ha].
  rewrite Ha. f_equal. unfold lookup2, cell_at in *.
  destruct (g !! Z.to_nat i) as [col|] eqn:Ecol; [|discriminate]. cbn in Ha.
  rewrite (list_lookup_total_correct _ _ _ Ecol).
  now rewrite (list_lookup_total_correct _ _ _ Ha).
Qed.

Lemma water_cells_in_app (g : Grid) (a b : list (Z * Z)) :
  water_cells_in g (a ++ b) = water_cells_in g a + water_cells_in g b.
Proof. unfold water_cells_in, len. rewrite filter_app, length_app. lia. Qed.

Lemma len_app {A} (a b : list A) : len (a ++ b) = len a + len b.
Proof. unfold len. rewrite length_app. lia. Qed.

Lemma len_cons {A} (x : A) (l : list A) : len (x :: l) = 1 + len l.
Proof. unfold len. cbn [length]. lia. Qed.

Lemma water_cells_in_cons (g : Grid) (c : Z * Z) (cs : list (Z * Z)) :
  water_cells_in g (c :: cs)
  = (if decide (lookup2 g (fst c) (snd c) = Some WATER_TEMPLATE_ID) then 1 else 0)
    + water_cells_in g cs.
Proof.
  unfold water_cells_in. rewrite filter_cons.
  destruct (decide _); [apply len_cons | reflexivity].
Qed.

Lemma in_bounds_spec (w h i j : Z) :
  in_bounds w h i j = true <-> 0 <= i < w /\ 0 <= j < h.
Proof. unfold in_bounds. rewrite !andb_true_iff. lia. Qed.

(** The inner loop of the window scan, on a row inside the grid. *)
Lemma window_row_inside (tt : Grid) (w h ci j : Z) (dis : list Z) (total water : Z) :
  rectangular w h tt -> len tt = w -> 0 <= j < h ->
  let row := filter (fun c => in_bounds w h (fst c) (snd c) = true)
                    (di ← dis; [(ci + di, j)]) in
  for_in dis (fun di (st : Z * Z) =>
      let '(total, water) := st in
      if (ci + di <? 0) || (w <=? ci + di) then Ok (total, water)
      else
        t ← grid_get tt (ci + di) j;
        Ok (total + 1, if t =? WATER_TEMPLATE_ID then water + 1 else water)) (total, water)
  = Ok (total + len row, water + water_cells_in tt row).
Proof.
  intros Hrect Hw Hj row. subst row. revert total water.
  induction dis as [|di dis IH]; intros total water.
  - cbn. unfold water_cells_in, len. cbn. do 2 f_equal; lia.
  - cbn [for_in].
    change ((di :: dis) ≫= _) with ((ci + di, j) :: (dis ≫= fun di => [(ci + di, j)])).
    rewrite filter_cons. cbn [fst snd].
    destruct (Z.ltb_spec (ci + di) 0) as [Hlo|Hlo]; cbn [orb].
    { cbn [mbind result_bind]. rewrite IH.
      destruct (decide _) as [Hin|_]; [apply in_bounds_spec in Hin; lia | reflexivity]. }
    destruct (Z.leb_spec w (ci + di)) as [Hhi|Hhi].
    { cbn [mbind result_bind]. rewrite IH.
      destruct (decide _) as [Hin|_]; [apply in_bounds_spec in Hin; lia | reflexivity]. }
    pose proof (rectangular_cell_at w h tt (ci + di) j Hrect ltac:(lia) Hj) as Hcell.
    rewrite grid_get_nonneg, Hcell by lia. cbn [mbind result_bind]. rewrite IH.
    destruct (decide _) as [_|Hout]; [|exfalso; apply Hout, in_bounds_spec; lia].
    rewrite len_cons, water_cells_in_cons. cbn [fst snd]. rewrite Hcell.
    destruct (Z.eqb_spec (cell_at tt (ci + di) j) WATER_TEMPLATE_ID) as [E|E].
    + rewrite E. destruct (decide _); [|congruence]. do 2 f_equal; lia.
    + destruct (decide _) as [E'|_]; [injection E' as E'; contradiction|].
      do 2 f_equal; lia.
Qed.

(** A row outside the grid contributes no cell. *)
Lemma window_row_outside (w h ci j : Z) (dis : list Z) :
  ~ 0 <= j < h ->
  filter (fun c => in_bounds w h (fst c) (snd c) = true) (di ← dis; [(ci + di, j)]) = [].
Proof.
  intros Hj. induction dis as [|di dis IH]; [reflexivity|].
  change ((di :: dis) ≫= _) with ((ci + di, j) :: (dis ≫= fun di => [(ci + di, j)])).
  rewrite filter_cons, IH. cbn [fst snd].
  destruct (decide _) as [Hin|_]; [apply in_bounds_spec in Hin; lia | reflexivity].
Qed.

Lemma window_counts_spec (tt : Grid) (w h ci cj r : Z) :
  rectangular w h tt -> 0 < w ->
  window_counts tt ci cj r
  = Ok (len (clipped_window w h ci cj r), water_cells_in tt (clipped_window w h ci cj r)).
Proof.
  intros Hrect Hpos. destruct (rectangular_dims w h tt Hrect Hpos) as [Hw Hh].
  unfold window_counts, clipped_window. rewrite Hw, Hh.
  set (dis := range2 (- r) (r + 1)). clearbody dis.
  enough (forall djs total water,
    for_in djs (fun dj (st : Z * Z) =>
        let j := cj + dj in
        if (j <? 0) || (h <=? j) then Ok st
        else for_in dis (fun di (st : Z * Z) =>
               let '(total, water) := st in
               let i := ci + di in
               if (i <? 0) || (w <=? i) then Ok (total, water)
               else
                 t ← grid_get tt i j;
                 Ok (total + 1, if t =? WATER_TEMPLATE_ID then water + 1 else water)) st)
      (total, water)
    = Ok (total + len (filter (fun c => in_bounds w h (fst c) (snd c) = true)
                         (dj ← djs; di ← dis; [(ci + di, cj + dj)])),
          water + water_cells_in tt
                    (filter (fun c => in_bounds w h (fst c) (snd c) = true)
                         (dj ← djs; di ← dis; [(ci + di, cj + dj)])))) as Hloop.
  { rewrite Hloop. reflexivity. }
  induction djs as [|dj djs IH]; intros total water.
  - cbn. unfold water_cells_in, len. cbn. do 2 f_equal; lia.
  - cbn [for_in]. cbv zeta.
    change ((dj :: djs) ≫= _) with
      ((dis ≫= fun di => [(ci + di, cj + dj)])
         ++ (djs ≫= fun dj => dis ≫= fun di => [(ci + di, cj + dj)])).
    rewrite filter_app, len_app, water_cells_in_app.
    destruct (Z.ltb_spec (cj + dj) 0) as [Hlo|Hlo]; cbn [orb].
    { cbn [mbind result_bind]. rewrite IH, window_row_outside by lia.
      unfold water_cells_in, len. cbn. do 2 f_equal; lia. }
    destruct (Z.leb_spec h (cj + dj)) as [Hhi|Hhi].
    { cbn [mbind result_bind]. rewrite IH, window_row_outside by lia.
      unfold water_cells_in, len. cbn. do 2 f_equal; lia. }
    rewrite (window_row_inside tt w h ci (cj + dj) dis total water Hrect Hw) by lia.
    cbn [mbind result_bind]. rewrite IH. do 2 f_equal; lia.
Qed.

Lemma threshold_table : threshold_table_ok = true.
Proof. vm_compute. reflexivity. Qed.

Lemma fraction_vs_threshold (water total : Z) :
  1 <= total <= 81 -> 0 <= water <= 81 ->
  (of_int total =? 0)%float = false /\
  (RIVER_STAMP_SKIP_WATER_FRAC <? of_int water / of_int total)%float
  = (9 * total <? 20 * water).
Proof.
  intros Ht Hw. pose proof threshold_table as Htab. unfold threshold_table_ok in Htab.
  rewrite forallb_forall in Htab.
  specialize (Htab total). rewrite <- list_elem_of_In, elem_of_range2 in Htab.
  specialize (Htab ltac:(lia)). rewrite forallb_forall in Htab.
  specialize (Htab water). rewrite <- list_elem_of_In, elem_of_range in Htab.
  specialize (Htab ltac:(lia)). apply andb_true_iff in Htab as [H0 Hcmp].
  split; [now apply negb_true_iff in H0 | now apply eqb_prop in Hcmp].
Qed.

Lemma clipped_window_size (w h ci cj : Z) :
  0 <= ci < w -> 0 <= cj < h -> 1 <= len (clipped_window w h ci cj 4) <= 81.
Proof.
  intros Hi Hj. unfold clipped_window, len. split.
  - assert (Hin : (ci, cj) ∈ filter (fun c => in_bounds w h (fst c) (snd c) = true)
        (dj ← range2 (- 4) (4 + 1); di ← range2 (- 4) (4 + 1); [(ci + di, cj + dj)])).
    { apply list_elem_of_filter. split; [apply in_bounds_spec; cbn; lia|].
      apply list_elem_of_bind. exists 0. split; [|apply elem_of_range2; lia].
      apply list_elem_of_bind. exists 0. split; [|apply elem_of_range2; lia].
      rewrite !Z.add_0_r. now left. }
    destruct (filter _ _); [inversion Hin | cbn [length]; lia].
  - etransitivity; [apply inj_le, length_filter|]. vm_compute. discriminate.
Qed.

Lemma water_cells_in_le (g : Grid) (cs : list (Z * Z)) : 0 <= water_cells_in g cs <= len cs.
Proof. unfold water_cells_in, len. split; [lia | apply inj_le, length_filter]. Qed.

Lemma land_1_even (x : Z) : (Z.land x 1 =? 0) = Z.even x.
Proof.
  change 1 with (Z.ones 1). rewrite Z.land_ones by lia. change (2 ^ 1) with 2.
  rewrite Zeven_mod. reflexivity.
Qed.

(** The river smoothing step follows [river_rule]. *)
Lemma river_sample_rule (tt tv : Grid) (w h ii jj orient cnt : Z) :
  rectangular w h tt -> 0 <= ii < w -> 0 <= jj < h ->
  river_sample (ii, jj, orient) (tt, tv, cnt)
  = apply_river_action (river_rule tt w h ii jj orient) (tt, tv, cnt).
Proof.
  intros Hrect Hi Hj. unfold river_sample, river_rule. cbv zeta.
  rewrite grid_get_nonneg, (rectangular_cell_at w h tt ii jj Hrect Hi Hj) by lia.
  cbn [mbind result_bind].
  destruct (cell_at tt ii jj =? WATER_TEMPLATE_ID); cbn [negb andb]; [|reflexivity].
  destruct (rectangular_dims w h tt Hrect ltac:(lia)) as [Hw Hh].
  unfold _local_water_fraction. rewrite Hw, Hh.
  destruct (Z.eqb_spec w 0); [lia|]. destruct (Z.eqb_spec h 0); [lia|]. cbn [orb].
  rewrite (window_counts_spec tt w h ii jj 4 Hrect) by lia. cbn [mbind result_bind].
  pose proof (clipped_window_size w h ii jj Hi Hj) as Htot.
  pose proof (water_cells_in_le tt (clipped_window w h ii jj 4)) as Hwat.
  set (total := len (clipped_window w h ii jj 4)) in *.
  set (water := water_cells_in tt (clipped_window w h ii jj 4)) in *.
  destruct (Z.eqb_spec total 0); [lia|].
  destruct (fraction_vs_threshold water total ltac:(lia) ltac:(lia)) as [Hnz Hcmp].
  unfold fdiv. rewrite Hnz. cbn [mbind result_bind]. rewrite Hcmp.
  destruct (Z.ltb_spec (9 * total) (20 * water)); destruct (Z.leb_spec (20 * water) (9 * total));
    try lia; [reflexivity|].
  unfold river_stamp_for. destruct (orient =? 0); [reflexivity|].
  rewrite land_1_even. now destruct (Z.even (ii + jj)).
Qed.

End RiverFacts.

(** ** Classification *)

Section MarkLoop.
Import Raster Overlay Spec.

Lemma mark_cell_eq (ft bt : bool) (ring : list (float * float)) (i j : Z)
    (F B : gset (Z * Z)) :
  mark_cell ft bt ring i j (F, B)
  = (b ← centre_in ring i j;
     Ok (if (b : bool) then
           if ft then ({[ (i, j) ]} ∪ F, B)
           else if bt then (F, {[ (i, j) ]} ∪ B) else (F, B)
         else (F, B))).
Proof.
  unfold mark_cell, centre_in.
  destruct (_point_in_poly _ _ ring) as [b|e]; [|reflexivity].
  cbn [mbind result_bind]. now destruct b, ft, bt.
Qed.

(** The classification loop over a ring adds exactly the covered cells, to the
    forest set when the feature is forest-tagged and else to the built-up set. *)
Lemma mark_loop (ft bt : bool) (ring : list (float * float)) (cs : list (Z * Z))
    (F B : gset (Z * Z)) :
  for_in cs (fun c st => mark_cell ft bt ring (fst c) (snd c) st) (F, B)
  = (r ← select (centre_in ring) cs;
     Ok (if ft then (list_to_set r ∪ F, B)
         else if bt then (F, list_to_set r ∪ B) else (F, B))).
Proof.
  revert F B. induction cs as [|[i j] cs IH]; intros F B.
  - cbn. destruct ft, bt; do 2 f_equal; set_solver.
  - cbn [for_in select fst snd]. rewrite mark_cell_eq.
    destruct (centre_in ring i j) as [b|e]; [|reflexivity].
    cbn [mbind result_bind].
    destruct b, ft, bt; rewrite IH;
      destruct (select (centre_in ring) cs) as [r|e]; cbn [mbind result_bind];
      try reflexivity; do 2 f_equal; set_solver.
Qed.

End MarkLoop.

Section ClassifierFacts.
Import Raster Overlay Spec.
Context `{Geo.Utm}.
Variables (center : Geo.Center) (bounds : Geo.Bounds) (mpc : float).
Variables (tt : Grid) (nodes_by_id : gmap Z (float * float)).

(** The bounding-box scan of the classifier is [ring_cover]. *)
Lemma ring_scan (ft bt : bool) (ring : list (float * float)) (F B : gset (Z * Z)) :
  (let w := len tt in
   let h := grid_height tt in
   let xs := map fst ring in
   let ys := map snd ring in
   m ← min_list xs; a ← trunc m; let xmin := Z.max 0 (a - 1) in
   m ← max_list xs; a ← trunc m; let xmax := Z.min (w - 1) (a + 1) in
   m ← min_list ys; a ← trunc m; let ymin := Z.max 0 (a - 1) in
   m ← max_list ys; a ← trunc m; let ymax := Z.min (h - 1) (a + 1) in
   for_in (range2 xmin (xmax + 1)) (fun i st =>
     for_in (range2 ymin (ymax + 1)) (fun j st =>
       mark_cell ft bt ring i j st) st) (F, B))
  = (cells ← ring_cover tt ring; Ok (file_under ft bt cells F B)).
Proof.
  cbv zeta. unfold ring_cover, window. destruct ring as [|p rest]; [reflexivity|].
  cbn [map min_list max_list mbind result_bind].
  destruct (trunc (fold_left fmin (map fst rest) (fst p))) as [a0|]; [|reflexivity].
  cbn [mbind result_bind].
  destruct (trunc (fold_left fmax (map fst rest) (fst p))) as [a1|]; [|reflexivity].
  cbn [mbind result_bind].
  destruct (trunc (fold_left fmin (map snd rest) (snd p))) as [b0|]; [|reflexivity].
  cbn [mbind result_bind].
  destruct (trunc (fold_left fmax (map snd rest) (snd p))) as [b1|]; [|reflexivity].
  cbn [mbind result_bind].
  unfold file_under. rewrite <- (mark_loop ft bt (p :: rest)). rewrite <- for_in_nested.
  reflexivity.
Qed.

Lemma classify_element_spec (el : Element) (F B : gset (Z * Z)) :
  classify_element center bounds mpc tt nodes_by_id el (F, B)
  = match element_class el with
    | None => Ok (F, B)
    | Some (k, nodes) =>
        cells ← way_cover center bounds mpc tt nodes_by_id nodes;
        Ok (match k with
            | ForestClass => (list_to_set cells ∪ F, B)
            | BuiltupClass => (F, list_to_set cells ∪ B)
            end)
    end.
Proof.
  destruct el as [id lat lon | id nodes tags | id members tags]; try reflexivity.
  unfold classify_element, element_class, way_cover.
  destruct (decide (tags = ∅)); [reflexivity|].
  destruct (is_forest tags) eqn:Ef; [|destruct (is_builtup tags) eqn:Eb];
    cbn [orb]; try reflexivity.
  all: destruct (Geo._assemble_way_nodes _ _ _ nodes nodes_by_id) as [ring|e];
    [|reflexivity]; cbn [mbind result_bind].
  all: destruct (3 <=? len ring);
    [|cbn [mbind result_bind list_to_set]; now rewrite (left_id_L ∅ (∪))].
  all: destruct (close_ring ring) as [ring'|e]; [|reflexivity]; cbn [mbind result_bind].
  all: rewrite ring_scan; unfold file_under;
    destruct (ring_cover tt ring'); reflexivity.
Qed.

(** The loop over the elements: the sets grow by the cover of each classed
    element and by nothing else. *)
Lemma classify_loop (elements : list Element) :
  forall F0 B0 F B,
  for_in elements (classify_element center bounds mpc tt nodes_by_id) (F0, B0) = Ok (F, B) ->
  (forall c, c ∈ F <->
     c ∈ F0 \/ covered_by center bounds mpc tt nodes_by_id elements ForestClass c) /\
  (forall c, c ∈ B <->
     c ∈ B0 \/ covered_by center bounds mpc tt nodes_by_id elements BuiltupClass c).
Proof.
  induction elements as [|el elements IH]; intros F0 B0 F B Hrun.
  - cbn in Hrun. injection Hrun as <- <-.
    split; intros c; (split; [now left|]); intros [?|(el & ? & ? & Hin & _)];
      try assumption; inversion Hin.
  - cbn [for_in] in Hrun. apply bind_inv_Ok in Hrun as ([F1 B1] & Hstep & Hrest).
    rewrite classify_element_spec in Hstep.
    destruct (IH F1 B1 F B Hrest) as [HF HB]. clear IH Hrest.
    assert (Hcons : forall k c,
      covered_by center bounds mpc tt nodes_by_id (el :: elements) k c <->
      (exists nodes cells, element_class el = Some (k, nodes) /\
         way_cover center bounds mpc tt nodes_by_id nodes = Ok cells /\ c ∈ cells) \/
      covered_by center bounds mpc tt nodes_by_id elements k c).
    { intros k c. unfold covered_by. split.
      - intros (el' & nodes & cells & Hin & Hcl & Hcov & Hc).
        apply elem_of_cons in Hin as [->|Hin]; [left | right]; eauto 10.
      - intros [(nodes & cells & Hcl & Hcov & Hc) | (el' & nodes & cells & Hin & Hrest)].
        + exists el, nodes, cells. repeat split; try assumption. now left.
        + exists el', nodes, cells. split; [now right | assumption]. }
    destruct (element_class el) as [[k nodes]|] eqn:Ecl.
    + apply bind_inv_Ok in Hstep as (cells & Hcov & Hstep).
      destruct k; injection Hstep as <- <-; split; intros c;
        rewrite ?HF, ?HB, Hcons; clear HF HB Hcons.
      * rewrite elem_of_union, elem_of_list_to_set. split.
        -- intros [[Hc|Hc]|Hc]; [right; left; eauto | now left | now right; right].
        -- intros [Hc|[(nodes' & cells' & E & Hcov' & Hc)|Hc]];
             [left; now right | | now right].
           injection E as <-. rewrite Hcov in Hcov'. injection Hcov' as <-.
           left; now left.
      * split.
        -- intros [Hc|Hc]; [now left | now right; right].
        -- intros [Hc|[(nodes' & cells' & E & _)|Hc]];
             [now left | discriminate | now right].
      * split.
        -- intros [Hc|Hc]; [now left | now right; right].
        -- intros [Hc|[(nodes' & cells' & E & _)|Hc]];
             [now left | discriminate | now right].
      * rewrite elem_of_union, elem_of_list_to_set. split.
        -- intros [[Hc|Hc]|Hc]; [right; left; eauto | now left | now right; right].
        -- intros [Hc|[(nodes' & cells' & E & Hcov' & Hc)|Hc]];
             [left; now right | | now right].
           injection E as <-. rewrite Hcov in Hcov'. injection Hcov' as <-.
           left; now left.
    + injection Hstep as <- <-. split; intros c; rewrite ?HF, ?HB, Hcons; split.
      * intros [Hc|Hc]; [now left | now right; right].
      * intros [Hc|[(nodes' & cells' & E & _)|Hc]]; [now left | discriminate | now right].
      * intros [Hc|Hc]; [now left | now right; right].
      * intros [Hc|[(nodes' & cells' & E & _)|Hc]]; [now left | discriminate | now right].
Qed.

(** The two cell sets of a completed classification. *)
Lemma classify_sets (elements : list Element)
    (masks : option (gset (Z * Z) * gset (Z * Z))) (F B : gset (Z * Z)) :
  classify center bounds mpc tt nodes_by_id elements masks = Ok (F, B) ->
  (forall c, c ∈ F <->
     covered_by center bounds mpc tt nodes_by_id elements ForestClass c \/ c ∈ mask_forest masks) /\
  (forall c, c ∈ B <->
     covered_by center bounds mpc tt nodes_by_id elements BuiltupClass c \/ c ∈ mask_builtup masks).
Proof.
  unfold classify. intros Hrun. apply bind_inv_Ok in Hrun as ([F1 B1] & Hloop & Hmask).
  destruct (classify_loop elements ∅ ∅ F1 B1 Hloop) as [HF HB].
  destruct masks as [[wb wf]|]; injection Hmask as <- <-; cbn [mask_forest mask_builtup];
    split; intros c; rewrite ?elem_of_union, ?HF, ?HB; set_solver.
Qed.

End ClassifierFacts.

(** ** Building placement *)

Section BuildingFacts.
Import Raster Overlay Spec.
Variables (width height : Z) (tiles_type : Grid).
Variables (building_density : float) (max_buildings building_search_radius : Z).
Variable (building_placement_mode : string).

Lemma grows_core (st1 st1' st2 st2' : BState) :
  bcore st1 = bcore st2 -> bcore st1' = bcore st2' ->
  grows width height tiles_type st1 st1' -> grows width height tiles_type st2 st2'.
Proof.
  unfold bcore. intros E E' (a & Hk & Hfit & Hp & Ha & Ho).
  injection E as E1 E2 E3. injection E' as E1' E2' E3'.
  exists a. rewrite <- E1, <- E2, <- E3, <- E1', <- E2', <- E3'. auto.
Qed.

Lemma commit_grows (choices : list string) (ci cj wf hf : Z) (st st' : BState) :
  _can_place width height tiles_type (occupied_cells st) ci cj wf hf = Ok true ->
  commit_building choices ci cj wf hf st = Ok st' -> grows width height tiles_type st st'.
Proof.
  intros Hfit Hc. unfold commit_building in Hc.
  apply bind_inv_Ok in Hc as ([chosen rng'] & _ & Hc). injection Hc as <-.
  eexists {| kind := Bld; index := placed_b st; actor_type := chosen;
             location := (ci, cj); dims := (wf, hf) |}.
  cbn. repeat split; auto.
Qed.

Lemma scan_di_spec (choices : list string) (ai aj wf hf dj : Z) (dis : list Z)
    (st st' : BState) (flag : bool) :
  scan_di width height tiles_type choices ai aj wf hf dj dis st = Ok (st', flag) ->
  if flag then grows width height tiles_type st st' else st' = st.
Proof.
  induction dis as [|di dis IH]; cbn [scan_di]; intros Hrun.
  - now injection Hrun as <- <-.
  - apply bind_inv_Ok in Hrun as (ok & Hfit & Hrun). destruct ok; [|now apply IH].
    apply bind_inv_Ok in Hrun as (st1 & Hc & Hrun). injection Hrun as <- <-.
    now apply (commit_grows choices (ai + di) (aj + dj) wf hf).
Qed.

Lemma scan_dj_spec (choices : list string) (ai aj wf hf : Z) (dis djs : list Z) :
  forall (st st' : BState) (flag : bool),
  scan_dj width height tiles_type choices ai aj wf hf dis djs st false = Ok (st', flag) ->
  if flag then grows width height tiles_type st st' else st' = st.
Proof.
  induction djs as [|dj djs IH]; cbn [scan_dj]; intros st st' flag Hrun.
  - now injection Hrun as <- <-.
  - apply bind_inv_Ok in Hrun as ([st1 f1] & Hdi & Hrun). cbn [fst snd] in Hrun.
    apply scan_di_spec in Hdi. destruct f1.
    + destruct djs; cbn [scan_dj] in Hrun; now injection Hrun as <- <-.
    + subst st1. now apply IH.
Qed.

Lemma scan_dims_spec (ai aj local_r : Z) (dims_list : list (Z * Z)) :
  forall (st st' : BState) (cd cd' : Z * Z) (flag : bool),
  scan_dims width height tiles_type max_buildings ai aj local_r dims_list st cd
  = Ok (st', flag, cd') ->
  if flag then grows width height tiles_type st st' else st' = st.
Proof.
  induction dims_list as [|[wf hf] dims_list IH]; cbn [scan_dims]; intros st st' cd cd' flag Hrun.
  - now injection Hrun as <- <- _.
  - destruct (by_dims (wf, hf)) as [[|c choices]|]; try now apply IH in Hrun.
    apply bind_inv_Ok in Hrun as ([st1 f1] & Hdj & Hrun). cbn [fst snd] in Hrun.
    apply scan_dj_spec in Hdj. destruct f1.
    + rewrite orb_true_r in Hrun. now injection Hrun as <- <- _.
    + subst st1. rewrite orb_false_r in Hrun.
      destruct (max_buildings <=? placed_b st); [now injection Hrun as <- <- _|].
      now apply IH in Hrun.
Qed.

(** One candidate: nothing placed (beyond the cap nothing at all changes), or
    one building placed below the cap. *)
Lemma place_from_bbox_spec (id_type : string) (osm_id : Z) (xs ys : list float)
    (st st' : BState) :
  _place_from_bbox width height tiles_type building_density max_buildings
    building_search_radius building_placement_mode id_type osm_id xs ys st = Ok st' ->
  (max_buildings <= placed_b st -> st' = st) /\
  (bcore st' = bcore st \/
   placed_b st < max_buildings /\ grows width height tiles_type st st').
Proof.
  unfold _place_from_bbox. destruct (Z.leb_spec max_buildings (placed_b st)) as [Hcap|Hcap].
  { intros E. injection E as <-. split; [reflexivity | now left]. }
  intros Hrun. split; [lia|]. revert Hrun. cbn [random]. cbv zeta.
  destruct (_ <? _)%float; [intros E; injection E as <-; now left|].
  destruct (falsy xs || falsy ys); [intros E; injection E as <-; now left|].
  intros Hrun.
  apply bind_inv_Ok in Hrun as (min_x & _ & Hrun). apply bind_inv_Ok in Hrun as (max_x & _ & Hrun).
  apply bind_inv_Ok in Hrun as (min_y & _ & Hrun). apply bind_inv_Ok in Hrun as (max_y & _ & Hrun).
  apply bind_inv_Ok in Hrun as (bw & _ & Hrun). apply bind_inv_Ok in Hrun as (bh & _ & Hrun).
  apply bind_inv_Ok in Hrun as (ai & _ & Hrun). apply bind_inv_Ok in Hrun as (aj & _ & Hrun).
  apply bind_inv_Ok in Hrun as ([[st1 flag] cd] & Hscan & Hrun). cbn [fst snd] in Hrun.
  apply scan_dims_spec in Hscan.
  destruct flag; injection Hrun as <-.
  - right. split; [assumption|]. eapply grows_core; [| |exact Hscan]; reflexivity.
  - left. subst st1. reflexivity.
Qed.

Lemma cells_free_true (occ : gset (Z * Z)) (cs : list (Z * Z)) :
  cells_free tiles_type occ cs = Ok true -> forall c, c ∈ cs -> c ∉ occ.
Proof.
  induction cs as [|[ii jj] cs IH]; cbn [cells_free]; intros Hfree c Hc; [inversion Hc|].
  apply bind_inv_Ok in Hfree as (t & _ & Hfree).
  destruct (t =? WATER_TEMPLATE_ID); [discriminate|].
  destruct (bool_decide (t ∈ RIVER_TEMPLATE_IDS)); [discriminate|].
  destruct (t =? BEACH_TEMPLATE_ID); [discriminate|].
  destruct (bool_decide_reflect ((ii, jj) ∈ occ)) as [|Hocc]; [discriminate|].
  apply elem_of_cons in Hc as [->|Hc]; [exact Hocc | now apply IH].
Qed.

Lemma can_place_true (occ : gset (Z * Z)) (i0 j0 w_ h_ : Z) :
  _can_place width height tiles_type occ i0 j0 w_ h_ = Ok true ->
  forall c, c ∈ footprint_cells i0 j0 w_ h_ -> c ∉ occ.
Proof.
  unfold _can_place. destruct (_ || _); [discriminate|]. apply cells_free_true.
Qed.

Lemma exclusive_snoc (actors : list Actor) (a : Actor) :
  exclusive actors ->
  (forall b c, b ∈ actors -> c ∈ footprint b -> c ∉ footprint a) ->
  exclusive (actors ++ [a]).
Proof.
  intros Hex Hnew m n x y Hmn Hm Hn c Hcx Hcy.
  apply lookup_snoc_Some in Hm as [[Hlm Hm]|[Hlm <-]];
    apply lookup_snoc_Some in Hn as [[Hln Hn]|[Hln <-]].
  - exact (Hex m n x y Hmn Hm Hn c Hcx Hcy).
  - apply (Hnew x c); [now apply list_elem_of_lookup_2 in Hm | assumption | assumption].
  - apply (Hnew y c); [now apply list_elem_of_lookup_2 in Hn | assumption | assumption].
  - lia.
Qed.

Lemma grows_invariant (st st' : BState) :
  building_invariant st -> grows width height tiles_type st st' -> building_invariant st'.
Proof.
  intros (Hcount & Hocc & Hex) (a & Hk & Hfit & Hp & Ha & Ho).
  pose proof (can_place_true _ _ _ _ _ Hfit) as Hfree. fold (footprint a) in Hfree.
  unfold building_invariant. rewrite Hp, Ha, Ho. split; [|split].
  - rewrite len_app, Hcount. unfold len. cbn. lia.
  - intros c. rewrite elem_of_union, elem_of_list_to_set, Hocc. split.
    + intros [Hc|(b & Hb & Hc)].
      * exists a. split; [apply elem_of_app; right; now left | assumption].
      * exists b. split; [apply elem_of_app; now left | assumption].
    + intros (b & Hb & Hc). apply elem_of_app in Hb as [Hb|Hb].
      * right. eauto.
      * apply list_elem_of_singleton in Hb as ->. now left.
  - apply exclusive_snoc; [assumption|]. intros b c Hb Hcb Hca.
    apply (Hfree c Hca). apply Hocc. eauto.
Qed.

Lemma core_invariant (st st' : BState) :
  bcore st' = bcore st -> building_invariant st -> building_invariant st'.
Proof.
  unfold bcore, building_invariant. intros E. injection E as -> -> ->. auto.
Qed.

Lemma place_from_bbox_invariant (id_type : string) (osm_id : Z) (xs ys : list float)
    (st st' : BState) :
  _place_from_bbox width height tiles_type building_density max_buildings
    building_search_radius building_placement_mode id_type osm_id xs ys st = Ok st' ->
  building_invariant st -> building_invariant st'.
Proof.
  intros Hrun Hinv. apply place_from_bbox_spec in Hrun as [_ [Hcore|[_ Hgrow]]].
  - now apply (core_invariant st).
  - now apply (grows_invariant st).
Qed.

Lemma place_from_bbox_cap (id_type : string) (osm_id : Z) (xs ys : list float)
    (st st' : BState) :
  _place_from_bbox width height tiles_type building_density max_buildings
    building_search_radius building_placement_mode id_type osm_id xs ys st = Ok st' ->
  placed_b st <= max_buildings -> placed_b st' <= max_buildings.
Proof.
  intros Hrun Hcap. apply place_from_bbox_spec in Hrun as [_ [Hcore|[Hlt Hgrow]]].
  - unfold bcore in Hcore. congruence.
  - destruct Hgrow as (a & _ & _ & Hp & _). lia.
Qed.

Lemma building_pass_invariant (candidates : list Candidate) :
  forall st st',
  building_pass width height tiles_type building_density max_buildings
    building_search_radius building_placement_mode candidates st = Ok st' ->
  building_invariant st -> building_invariant st'.
Proof.
  induction candidates as [|c candidates IH]; cbn [building_pass]; intros st st' Hrun Hinv.
  - now injection Hrun as <-.
  - destruct (max_buildings <=? placed_b st); [now injection Hrun as <-|].
    apply bind_inv_Ok in Hrun as (st1 & Hstep & Hrun).
    apply (IH st1 st' Hrun). exact (place_from_bbox_invariant _ _ _ _ _ _ Hstep Hinv).
Qed.

Lemma building_pass_cap (candidates : list Candidate) :
  forall st st',
  building_pass width height tiles_type building_density max_buildings
    building_search_radius building_placement_mode candidates st = Ok st' ->
  placed_b st <= max_buildings -> placed_b st' <= max_buildings.
Proof.
  induction candidates as [|c candidates IH]; cbn [building_pass]; intros st st' Hrun Hcap.
  - now injection Hrun as <-.
  - destruct (max_buildings <=? placed_b st); [now injection Hrun as <-|].
    apply bind_inv_Ok in Hrun as (st1 & Hstep & Hrun).
    apply (IH st1 st' Hrun). exact (place_from_bbox_cap _ _ _ _ _ _ Hstep Hcap).
Qed.

Lemma building_pass_at_cap (candidates : list Candidate) (st : BState) :
  max_buildings <= placed_b st ->
  building_pass width height tiles_type building_density max_buildings
    building_search_radius building_placement_mode candidates st = Ok st.
Proof.
  intros Hcap. destruct candidates; cbn [building_pass]; [reflexivity|].
  now destruct (Z.leb_spec max_buildings (placed_b st)); [|lia].
Qed.

Lemma building_stage_invariant (include_buildings : bool) (ways relations : list Candidate)
    (rng0 : Rng) (st : BState) :
  building_stage width height tiles_type building_density max_buildings
    building_search_radius building_placement_mode include_buildings ways relations rng0
  = Ok st ->
  building_invariant st /\ (0 <= max_buildings -> placed_b st <= max_buildings).
Proof.
  unfold building_stage.
  set (st0 := {| placed_b := 0; total_osm_b := 0; audit_rows := []; extra_actors := [];
                 occupied_cells := ∅; rng := rng0 |}).
  assert (Hinv0 : building_invariant st0).
  { split; [reflexivity|]. split.
    - intros c. split; [set_solver|]. intros (a & Ha & _). inversion Ha.
    - intros m n a b _ Hm. unfold st0 in Hm. cbn in Hm. now rewrite lookup_nil in Hm. }
  destruct include_buildings; [|intros E; injection E as <-; now split].
  intros Hrun. apply bind_inv_Ok in Hrun as (st1 & Hways & Hrels). split.
  - apply (building_pass_invariant relations st1 st Hrels).
    exact (building_pass_invariant ways st0 st1 Hways Hinv0).
  - intros Hmax. apply (building_pass_cap relations st1 st Hrels).
    exact (building_pass_cap ways st0 st1 Hways Hmax).
Qed.

Lemma place_from_bbox_check_then_commit (id_type : string) (osm_id : Z)
    (xs ys : list float) (st st' : BState) :
  _place_from_bbox width height tiles_type building_density max_buildings
    building_search_radius building_placement_mode id_type osm_id xs ys st = Ok st' ->
  check_then_commit st st'.
Proof.
  intros Hrun. apply place_from_bbox_spec in Hrun as [_ [Hcore|[_ Hgrow]]].
  - left. unfold bcore in Hcore. injection Hcore as _ -> ->. now split.
  - right. destruct Hgrow as (a & _ & Hfit & _ & Ha & Ho). exists a.
    split; [exact Ha|]. split; [|exact Ho]. exact (can_place_true _ _ _ _ _ Hfit).
Qed.

End BuildingFacts.

(** ** Vegetation placement *)

Section VegetationFacts.
Import Raster Overlay Spec.
Variables (width height : Z) (tiles_type : Grid).
Variables (veg_density : float) (max_veg_actors veg_min_spacing veg_patch_size : Z).
Variables (veg_patch_boost : float) (suppress_veg_near_roads suppress_veg_near_buildings : Z).
Variables (builtup_cells road_cells occupied_cells : gset (Z * Z)).

Lemma existsb_false {A} (f : A -> bool) (l : list A) :
  existsb f l = false -> forall x, x ∈ l -> f x = false.
Proof.
  intros Hex x Hx. destruct (f x) eqn:Efx; [|reflexivity].
  rewrite <- Hex. symmetry. apply existsb_exists. exists x.
  split; [now apply list_elem_of_In | assumption].
Qed.

Lemma chebyshev_nonneg (p q : Z * Z) : 0 <= chebyshev p q.
Proof. unfold chebyshev. lia. Qed.

(** A window scan that finds nothing: every cell of the set is farther than
    the radius. *)
Lemma near_false (cells : gset (Z * Z)) (i j r : Z) :
  near cells i j r = false -> forall c, c ∈ cells -> r < chebyshev c (i, j).
Proof.
  intros Hnear [x y] Hc. unfold chebyshev. cbn [fst snd].
  destruct (Z_lt_le_dec r (Z.max (Z.abs (x - i)) (Z.abs (y - j)))) as [|Hle]; [assumption|].
  exfalso. unfold near in Hnear.
  pose proof (existsb_false _ _ Hnear (x - i)) as Hrow.
  rewrite elem_of_range2 in Hrow. specialize (Hrow ltac:(lia)).
  pose proof (existsb_false _ _ Hrow (y - j)) as Hcell.
  rewrite elem_of_range2 in Hcell. specialize (Hcell ltac:(lia)).
  apply bool_decide_eq_false in Hcell. apply Hcell.
  now replace (i + (x - i)) with x by lia; replace (j + (y - j)) with y by lia.
Qed.

Abbreviation veg_cell' := (veg_cell tiles_type veg_density veg_min_spacing veg_patch_size
                         veg_patch_boost suppress_veg_near_roads suppress_veg_near_buildings
                         builtup_cells road_cells occupied_cells).
Abbreviation spacing' := (spacing veg_min_spacing).

(** One forest cell: nothing placed, or one tree placed on the cell, which no
    earlier tree was near. *)
Lemma veg_cell_spec (high : gset (Z * Z)) (c : Z * Z) (st st' : VState) :
  veg_cell' high c st = Ok st' ->
  (placed st' = placed st /\ veg_actors st' = veg_actors st /\
   veg_occupied st' = veg_occupied st) \/
  (exists a,
     kind a = Tree /\ location a = c /\
     ((0 <? spacing') && near (veg_occupied st) (fst c) (snd c) spacing') = false /\
     placed st' = placed st + 1 /\ veg_actors st' = veg_actors st ++ [a] /\
     veg_occupied st' = {[ c ]} ∪ veg_occupied st).
Proof.
  unfold veg_cell. destruct c as [i j]. intros Hrun.
  apply bind_inv_Ok in Hrun as (t & _ & Hrun).
  destruct (t =? WATER_TEMPLATE_ID); [injection Hrun as <-; now left|].
  destruct (_ || _); [injection Hrun as <-; now left|].
  destruct (bool_decide ((i, j) ∈ builtup_cells)); [injection Hrun as <-; now left|].
  cbv zeta in Hrun. cbn [random] in Hrun.
  destruct (_ <? next_random _ _)%float; [injection Hrun as <-; now left|].
  destruct (_ && near road_cells _ _ _); [injection Hrun as <-; now left|].
  destruct (_ && near occupied_cells _ _ _); [injection Hrun as <-; now left|].
  destruct (_ && near (veg_occupied st) _ _ _) eqn:Hfar; [injection Hrun as <-; now left|].
  apply bind_inv_Ok in Hrun as (pick & _ & Hrun). injection Hrun as <-.
  right. eexists {| kind := Tree; index := placed st; actor_type := fst pick;
                    location := (i, j); dims := (1, 1) |}.
  cbn. repeat split; auto.
Qed.

Lemma spaced_snoc (s : Z) (actors : list Actor) (a : Actor) :
  spaced s actors ->
  (forall b, b ∈ actors -> s <= chebyshev (location b) (location a)) ->
  spaced s (actors ++ [a]).
Proof.
  intros Hsp Hnew m n x y Hmn Hm Hn.
  apply lookup_snoc_Some in Hm as [[Hlm Hm]|[Hlm <-]];
    apply lookup_snoc_Some in Hn as [[Hln Hn]|[Hln <-]].
  - exact (Hsp m n x y Hmn Hm Hn).
  - apply Hnew. now apply list_elem_of_lookup_2 in Hm.
  - replace (chebyshev (location a) (location y))
      with (chebyshev (location y) (location a)) by (unfold chebyshev; lia).
    apply Hnew. now apply list_elem_of_lookup_2 in Hn.
  - lia.
Qed.

Lemma veg_cell_invariant (high : gset (Z * Z)) (c : Z * Z) (st st' : VState) :
  veg_cell' high c st = Ok st' ->
  vegetation_invariant spacing' st ->
  vegetation_invariant spacing' st' /\ placed st' <= placed st + 1.
Proof.
  intros Hrun (Hcount & Hocc & Hsp).
  apply veg_cell_spec in Hrun
    as [(Hp & Ha & Ho) | (a & Hk & Hloc & Hfar & Hp & Ha & Ho)].
  - unfold vegetation_invariant. rewrite Hp, Ha, Ho. split; [auto | lia].
  - split; [|lia]. unfold vegetation_invariant. rewrite Hp, Ha, Ho. split; [|split].
    + rewrite len_app, Hcount. unfold len. cbn. lia.
    + intros c'. rewrite elem_of_union, elem_of_singleton, Hocc. split.
      * intros [->|(b & Hb & Hc)].
        -- exists a. split; [apply elem_of_app; right; now left | assumption].
        -- exists b. split; [apply elem_of_app; now left | assumption].
      * intros (b & Hb & Hc). apply elem_of_app in Hb as [Hb|Hb].
        -- right. eauto.
        -- apply list_elem_of_singleton in Hb as ->. left. congruence.
    + apply spaced_snoc; [assumption|]. intros b Hb.
      destruct (Z.ltb_spec 0 spacing') as [Hpos|Hpos]; [|apply chebyshev_nonneg].
      cbn [andb] in Hfar.
      assert (Hin : location b ∈ veg_occupied st) by (apply Hocc; eauto).
      pose proof (near_false _ _ _ _ Hfar _ Hin) as Hlt.
      rewrite Hloc. destruct c as [i j]. cbn [fst snd] in Hlt. lia.
Qed.

Lemma veg_loop_invariant (high : gset (Z * Z)) (forest_iter : list (Z * Z)) :
  forall st st',
  veg_loop tiles_type veg_density max_veg_actors veg_min_spacing veg_patch_size
    veg_patch_boost suppress_veg_near_roads suppress_veg_near_buildings
    builtup_cells road_cells occupied_cells high forest_iter st = Ok st' ->
  vegetation_invariant spacing' st -> placed st <= Z.max 0 max_veg_actors ->
  vegetation_invariant spacing' st' /\ placed st' <= Z.max 0 max_veg_actors.
Proof.
  induction forest_iter as [|c forest_iter IH]; cbn [veg_loop]; intros st st' Hrun Hinv Hcap.
  - now injection Hrun as <-.
  - unfold target in Hrun. destruct (Z.leb_spec max_veg_actors (placed st)) as [|Hlt];
      [now injection Hrun as <-|].
    apply bind_inv_Ok in Hrun as (st1 & Hstep & Hrun).
    destruct (veg_cell_invariant high c st st1 Hstep Hinv) as [Hinv1 Hstep1].
    apply (IH st1 st' Hrun Hinv1). lia.
Qed.

Lemma vegetation_stage_invariant (include_vegetation : bool) (forest_iter : list (Z * Z))
    (rng0 : Rng) (st : VState) :
  vegetation_stage width height tiles_type veg_density max_veg_actors veg_min_spacing
    veg_patch_size veg_patch_boost suppress_veg_near_roads suppress_veg_near_buildings
    builtup_cells road_cells occupied_cells include_vegetation forest_iter rng0 = Ok st ->
  vegetation_invariant spacing' st /\ placed st <= Z.max 0 max_veg_actors.
Proof.
  unfold vegetation_stage.
  set (st0 := {| placed := 0; skipped_water := 0; skipped_built := 0; skipped_road_adj := 0;
                 skipped_bld_adj := 0; skipped_spacing := 0; skipped_tiletype := 0;
                 veg_actors := []; veg_occupied := ∅; veg_rng := rng0 |}).
  assert (Hinv0 : vegetation_invariant spacing' st0).
  { split; [reflexivity|]. split.
    - intros c. split; [set_solver|]. intros (a & Ha & _). inversion Ha.
    - intros m n a b _ Hm. unfold st0 in Hm. cbn in Hm. now rewrite lookup_nil in Hm. }
  assert (Hcap0 : placed st0 <= Z.max 0 max_veg_actors) by (cbn; lia).
  destruct include_vegetation; [|intros E; injection E as <-; now split].
  intros Hrun. apply bind_inv_Ok in Hrun as (high & _ & Hrun).
  exact (veg_loop_invariant high forest_iter st0 st Hrun Hinv0 Hcap0).
Qed.

End VegetationFacts.

(* ===================================================================== *)
(** * Part II, continued. Properties of the rest of the code             *)
(* ===================================================================== *)

(** ** The encoders, both layers and both files *)

Section FormatFacts.
Import Encoder Spec Format.

Lemma header_bytes_Ok (w h : Z) (ih : bool) :
  fields_fit w h ih -> header w h ih = Ok (header_bytes w h ih).
Proof.
  intros (Hw & Hh & Hr). unfold header, _le_u16, _le_u32.
  rewrite bytearray_append_Ok by lia. cbn [mbind result_bind].
  rewrite (to_bytes_Ok 2 w), (to_bytes_Ok 2 h) by (cbn; lia). cbn [mbind result_bind].
  rewrite (to_bytes_Ok 4 17) by (cbn; lia). cbn [mbind result_bind].
  rewrite (to_bytes_Ok 4 (if negb ih then 0 else 3 * w * h + 17))
    by (destruct ih; cbn in *; nia). cbn [mbind result_bind].
  rewrite (to_bytes_Ok 4 ((if ih then 4 else 3) * w * h + 17))
    by (destruct ih; cbn in *; nia). cbn [mbind result_bind].
  unfold header_bytes. destruct ih; cbn [negb]; now rewrite <- !app_assoc.
Qed.

Lemma repeat_seq_replicate {A} (l : list A) (n : Z) (x : A) :
  l = [x] -> repeat_seq l n = replicate (Z.to_nat n) x.
Proof.
  intros ->. unfold repeat_seq. induction (Z.to_nat n) as [|k IH]; [reflexivity|].
  cbn. now rewrite IH.
Qed.

Lemma repeat_seq_pair (n : Z) (x : Z) :
  repeat_seq [x; x] n = replicate (Z.to_nat (2 * n)) x.
Proof.
  unfold repeat_seq. destruct (Z.le_gt_cases n 0) as [Hn|Hn].
  - replace (Z.to_nat n) with 0%nat by lia. replace (Z.to_nat (2 * n)) with 0%nat by lia.
    reflexivity.
  - replace (Z.to_nat (2 * n)) with (2 * Z.to_nat n)%nat by lia.
    induction (Z.to_nat n) as [|k IH]; [reflexivity|].
    replace (2 * S k)%nat with (S (S (2 * k))) by lia. cbn. now rewrite IH.
Qed.

(** The nested loop over the cells appends the tiles section. *)
Lemma tiles_loop (w h : Z) (tile : Z -> Z -> Z * Z)
    (body : Z -> Z -> list Z -> result (list Z)) (out : list Z) :
  (forall i j o, 0 <= i < w -> 0 <= j < h ->
     body i j o = Ok (o ++ tile_bytes (fst (tile i j)) (snd (tile i j)))) ->
  for_in (range w) (fun i out => for_in (range h) (fun j out => body i j out) out) out
  = Ok (out ++ tiles_section w h tile).
Proof.
  intros Hb.
  rewrite (for_in_nested (range w) (range h) (fun c o => body (fst c) (snd c) o)).
  unfold tiles_section. apply for_in_append.
  intros [i j] o Hc. apply elem_of_cells_of in Hc as [Hi Hj].
  apply elem_of_range in Hi, Hj. now apply Hb.
Qed.

Lemma trailer_stream (w h : Z) (ih : bool) (tile : Z -> Z -> Z * Z) :
  trailer w h ih (header_bytes w h ih ++ tiles_section w h tile) = stream w h ih tile.
Proof.
  unfold trailer, stream. rewrite repeat_seq_pair.
  destruct ih.
  - rewrite (repeat_seq_replicate _ _ 0 eq_refl). now rewrite <- !app_assoc.
  - cbn [Z.to_nat replicate app]. now rewrite <- !app_assoc.
Qed.

Lemma build_map_bin_stream (w h tid var : Z) (ih : bool) :
  fields_fit w h ih -> (0 < w -> 0 < h -> 0 <= tid < 65536) ->
  build_map_bin w h tid var ih = Ok (stream w h ih (fun _ _ => (tid, var))).
Proof.
  intros Hfit Ht. unfold build_map_bin.
  rewrite header_bytes_Ok by assumption. cbn [mbind result_bind].
  rewrite (tiles_loop w h (fun _ _ => (tid, var))
             (fun _ _ out => b ← _le_u16 tid; bytearray_append (out ++ b) (Z.land var 255))).
  2:{ intros i j o Hi Hj. apply emit_tile. apply Ht; lia. }
  cbn [mbind result_bind]. now rewrite trailer_stream.
Qed.


Lemma column_height {A} `{Inhabited A} (h : Z) (g : list (list A)) (i : Z) :
  Forall (fun col => len col = h) g -> 0 <= i < len g -> len (g !!! Z.to_nat i) = h.
Proof.
  intros Hcols Hi. rewrite Forall_forall in Hcols. apply Hcols.
  apply list_elem_of_lookup. exists (Z.to_nat i).
  apply list_lookup_lookup_total_lt. unfold len in Hi. lia.
Qed.

(** One tile of the grid encoders' loop. *)
Lemma emit_cell (w h : Z) (tt tv : list (list Z)) (i j : Z) (o : list Z) :
  rectangular w h tt -> fits_u16 tt ->
  Forall (fun col => len col = h) tv ->
  0 <= i < w -> i < len tv -> 0 <= j < h ->
  (ct ← getitem tt i; t ← getitem ct j; b ← _le_u16 t;
   cv ← getitem tv i; v ← getitem cv j;
   bytearray_append (o ++ b) (Z.land v 255))
  = Ok (o ++ tile_bytes (cell_at tt i j) (cell_at tv i j)).
Proof.
  intros Htt Hu Htv Hi Hlv Hj.
  pose proof (rectangular_column w h tt i Htt Hi) as Hci.
  pose proof (column_height h tv i Htv ltac:(lia)) as Hvi.
  assert (Hlw : len tt = w) by apply Htt.
  rewrite (getitem_total tt) by lia. cbn [mbind result_bind].
  rewrite (getitem_total (tt !!! Z.to_nat i)) by lia. cbn [mbind result_bind].
  pose proof (fits_u16_cell w h tt i j Htt Hu ltac:(lia) ltac:(lia)) as Hc.
  unfold cell_at in *. unfold _le_u16. rewrite to_bytes_Ok by (cbn; lia).
  cbn [mbind result_bind].
  rewrite (getitem_total tv) by lia. cbn [mbind result_bind].
  rewrite (getitem_total (tv !!! Z.to_nat i)) by lia. cbn [mbind result_bind].
  rewrite bytearray_append_Ok by apply land_255_byte.
  unfold tile_bytes. now rewrite <- app_assoc.
Qed.

(** The stream the grid encoder returns: the variant grid may have spare
    columns, which are not read. *)
Lemma from_grid_stream (w h : Z) (tt tv : list (list Z)) (ih : bool) :
  1 <= w -> 1 <= h -> fields_fit w h ih ->
  rectangular w h tt -> fits_u16 tt ->
  w <= len tv -> Forall (fun col => len col = h) tv ->
  build_map_bin_from_grid tt tv ih
  = Ok (stream w h ih (fun i j => (cell_at tt i j, cell_at tv i j))).
Proof.
  intros Hw Hh Hfit Htt Hu Hlv Htv.
  pose proof (rectangular_column w h tt 0 Htt ltac:(lia)) as Hcol0.
  assert (Hlw : len tt = w) by apply Htt.
  unfold build_map_bin_from_grid.
  rewrite (falsy_false tt) by lia.
  rewrite getitem_total by lia. cbn [mbind result_bind].
  rewrite (falsy_false (tt !!! Z.to_nat 0)) by lia.
  rewrite Hlw, Hcol0.
  rewrite (check_heights_Ok tt) by apply Htt. cbn [mbind result_bind].
  rewrite (check_heights_Ok tv) by assumption. cbn [mbind result_bind].
  rewrite header_bytes_Ok by assumption. cbn [mbind result_bind].
  rewrite (tiles_loop w h (fun i j => (cell_at tt i j, cell_at tv i j))
             (fun i j out =>
                ct ← getitem tt i; t ← getitem ct j; b ← _le_u16 t;
                cv ← getitem tv i; v ← getitem cv j;
                bytearray_append (out ++ b) (Z.land v 255))).
  2:{ intros i j o Hi Hj. apply (emit_cell w h); try assumption. lia. }
  cbn [mbind result_bind]. now rewrite trailer_stream.
Qed.

Lemma check_heights_bad {A} (cols : list (list A)) (h : Z) :
  ~ Forall (fun col => len col = h) cols -> check_heights cols h = Raise ValueError.
Proof.
  unfold check_heights. induction cols as [|col cols IH]; intros Hbad.
  - exfalso. apply Hbad. constructor.
  - cbn [for_in]. destruct (Z.eqb_spec (len col) h) as [Hc|Hc]; [|reflexivity].
    cbn [mbind result_bind]. apply IH. intros Hall. apply Hbad. now constructor.
Qed.

(** *** Reading the stream back *)

Lemma slice_middle (pre mid post : list Z) :
  slice (pre ++ mid ++ post) (len pre) (len mid) = mid.
Proof.
  unfold slice, len. rewrite !Nat2Z.id.
  rewrite drop_app_length. apply take_app_length.
Qed.

Lemma length_header_bytes (w h : Z) (ih : bool) : length (header_bytes w h ih) = 17%nat.
Proof. unfold header_bytes. rewrite !length_app, !length_le_digits. reflexivity. Qed.

Lemma length_tiles_section (w h : Z) (tile : Z -> Z -> Z * Z) :
  0 <= w -> 0 <= h -> len (tiles_section w h tile) = 3 * w * h.
Proof.
  intros Hw Hh. unfold tiles_section, len, cells_of.
  rewrite (length_concat_const 3).
  2:{ apply Forall_map, Forall_forall. intros c _. apply length_tile_bytes. }
  rewrite length_map.
  assert (Hlen : forall xs ys : list Z,
            length (i ← xs; j ← ys; [(i, j)]) = (length xs * length ys)%nat).
  { intros xs ys.
    assert (Hrow : forall x : Z, length (j ← ys; [(x, j)]) = length ys).
    { intros x. induction ys as [|y ys IHy]; [reflexivity|]. cbn. now rewrite IHy. }
    induction xs as [|x xs IH]; [reflexivity|].
    cbn. rewrite length_app, IH. f_equal. apply Hrow. }
  rewrite Hlen, !len_range by lia. nia.
Qed.

Lemma length_stream (w h : Z) (ih : bool) (tile : Z -> Z -> Z * Z) :
  0 <= w -> 0 <= h ->
  len (stream w h ih tile) = (if ih then 4 else 3) * w * h + 17 + 2 * w * h.
Proof.
  intros Hw Hh. unfold stream. rewrite !len_app.
  rewrite length_tiles_section by assumption.
  unfold len at 1. rewrite length_header_bytes.
  unfold len. rewrite !length_replicate. destruct ih; nia.
Qed.


Lemma slice_at (out pre mid post : list Z) (off n : Z) :
  out = pre ++ mid ++ post -> off = len pre -> n = len mid -> slice out off n = mid.
Proof. intros -> -> ->. apply slice_middle. Qed.

(** The header fields of any stream that starts with the header. *)
Lemma read_header (w h : Z) (ih : bool) (rest : list Z) :
  fields_fit w h ih ->
  let out := header_bytes w h ih ++ rest in
  tile_format out = 2 /\ map_width out = w /\ map_height out = h /\
  tiles_offset out = 17 /\
  heights_offset out = (if ih then 3 * w * h + 17 else 0) /\
  resources_offset out = (if ih then 4 else 3) * w * h + 17.
Proof.
  intros (Hw & Hh & Hr) out.
  assert (H2 : forall v, 0 <= v < 65536 -> le_value (le_digits 2 v) = v)
    by (intros; apply le_value_digits; cbn; lia).
  assert (H4 : forall v, 0 <= v < 2 ^ 32 -> le_value (le_digits 4 v) = v)
    by (intros; apply le_value_digits; cbn; lia).
  subst out. split; [reflexivity|].
  split; [transitivity (le_value (le_digits 2 w)); [reflexivity | apply H2; lia]|].
  split; [transitivity (le_value (le_digits 2 h)); [reflexivity | apply H2; lia]|].
  split; [reflexivity|].
  split.
  - transitivity (le_value (le_digits 4 (if ih then 3 * w * h + 17 else 0)));
      [reflexivity | apply H4; destruct ih; nia].
  - transitivity (le_value (le_digits 4 ((if ih then 4 else 3) * w * h + 17)));
      [reflexivity | apply H4; destruct ih; nia].
Qed.

Lemma cells_of_row (x : Z) (ys : list Z) : (j ← ys; [(x, j)]) = map (pair x) ys.
Proof. induction ys as [|y ys IH]; [reflexivity|]. cbn. now rewrite IH. Qed.

(** Column-major order: cell [(x, y)] comes at index [a * |ys| + b]. *)
Lemma lookup_cells_of (xs ys : list Z) (a b : nat) (x y : Z) :
  xs !! a = Some x -> ys !! b = Some y ->
  cells_of xs ys !! (a * length ys + b)%nat = Some (x, y).
Proof.
  intros Hx Hy. revert a Hx.
  induction xs as [|x0 xs IH]; intros a Hx; [discriminate|].
  replace (cells_of (x0 :: xs) ys) with (map (pair x0) ys ++ cells_of xs ys)
    by (unfold cells_of; rewrite bind_cons; f_equal; symmetry; apply cells_of_row).
  destruct a as [|a].
  - injection Hx as ->. cbn [Nat.mul Nat.add].
    rewrite lookup_app_l by (rewrite length_map; now apply lookup_lt_Some in Hy).
    rewrite list_lookup_fmap, Hy. reflexivity.
  - rewrite lookup_app_r by (rewrite length_map; lia).
    rewrite length_map. replace (S a * length ys + b - length ys)%nat
      with (a * length ys + b)%nat by lia.
    now apply IH.
Qed.

Lemma lookup_range (n i : Z) : 0 <= i < n -> range n !! Z.to_nat i = Some i.
Proof.
  intros Hi. unfold range, range2. rewrite lookup_seqZ_lt by lia. f_equal. lia.
Qed.

(** The three bytes of tile [(i, j)] sit at offset [17 + 3 * (i * h + j)]. *)
Lemma read_tile_stream (w h : Z) (ih : bool) (tile : Z -> Z -> Z * Z) (i j : Z) :
  fields_fit w h ih -> 0 <= i < w -> 0 <= j < h ->
  0 <= fst (tile i j) < 65536 ->
  read_tile (stream w h ih tile) i j = (fst (tile i j), Z.land (snd (tile i j)) 255).
Proof.
  intros Hfit Hi Hj Ht. unfold read_tile.
  destruct (read_header w h ih
              (tiles_section w h tile
                 ++ replicate (Z.to_nat (if ih then w * h else 0)) 0
                 ++ replicate (Z.to_nat (2 * (w * h))) 0) Hfit)
    as (_ & _ & Hh & Ho & _).
  change (header_bytes w h ih ++ _) with (stream w h ih tile) in Hh, Ho.
  rewrite Hh, Ho.
  set (k := Z.to_nat (i * h + j)).
  set (cells := cells_of (range w) (range h)).
  set (f := fun c : Z * Z =>
              tile_bytes (fst (tile (fst c) (snd c))) (snd (tile (fst c) (snd c)))).
  assert (Hk : cells !! k = Some (i, j)).
  { subst k cells. replace (Z.to_nat (i * h + j))
      with (Z.to_nat i * length (range h) + Z.to_nat j)%nat
      by (rewrite len_range by lia; nia).
    apply lookup_cells_of; apply lookup_range; lia. }
  assert (Hsplit : stream w h ih tile
                   = (header_bytes w h ih ++ concat (map f (take k cells)))
                     ++ (le_digits 2 (fst (tile i j)) ++ [Z.land (snd (tile i j)) 255])
                     ++ (concat (map f (drop (S k) cells))
                           ++ replicate (Z.to_nat (if ih then w * h else 0)) 0
                           ++ replicate (Z.to_nat (2 * (w * h))) 0)).
  { unfold stream, tiles_section. fold cells. fold f.
    rewrite <- (take_drop_middle cells k (i, j) Hk) at 1.
    rewrite map_app, concat_app. cbn [map concat].
    change (f (i, j)) with (le_digits 2 (fst (tile i j)) ++ [Z.land (snd (tile i j)) 255]).
    now rewrite <- !app_assoc. }
  assert (Hpre : len (header_bytes w h ih ++ concat (map f (take k cells)))
                 = 17 + 3 * (i * h + j)).
  { rewrite len_app. unfold len. rewrite length_header_bytes.
    rewrite (length_concat_const 3).
    2:{ apply Forall_map, Forall_forall. intros c _. apply length_tile_bytes. }
    rewrite length_map, length_take_le by (apply lookup_lt_Some in Hk; lia).
    subst k. nia. }
  unfold read_u16, read_u8. f_equal.
  - erewrite (slice_at _ _ (le_digits 2 (fst (tile i j)))); cycle 1.
    + rewrite Hsplit. rewrite <- (app_assoc (le_digits 2 _)). reflexivity.
    + now rewrite Hpre.
    + reflexivity.
    + apply le_value_digits. cbn. lia.
  - erewrite (slice_at _ (_ ++ le_digits 2 (fst (tile i j))) [Z.land (snd (tile i j)) 255]);
      cycle 1.
    + rewrite Hsplit. rewrite <- (app_assoc (le_digits 2 _)).
      rewrite (app_assoc _ (le_digits 2 _)). reflexivity.
    + rewrite len_app, Hpre. unfold len. rewrite length_le_digits. lia.
    + reflexivity.
    + cbn. lia.
Qed.


Lemma stream_laid_out (w h : Z) (ih : bool) (tile : Z -> Z -> Z * Z) :
  fields_fit w h ih -> laid_out w h ih (stream w h ih tile).
Proof.
  intros Hfit. pose proof Hfit as (Hw & Hh & Hr).
  destruct (read_header w h ih
              (tiles_section w h tile
                 ++ replicate (Z.to_nat (if ih then w * h else 0)) 0
                 ++ replicate (Z.to_nat (2 * (w * h))) 0) Hfit)
    as (Hf & Hmw & Hmh & Ho & Hho & Hro).
  change (header_bytes w h ih ++ _) with (stream w h ih tile) in Hf, Hmw, Hmh, Ho, Hho, Hro.
  unfold laid_out. rewrite Hf, Hmw, Hmh, Ho, Hho, Hro.
  assert (Hpre : len (header_bytes w h ih ++ tiles_section w h tile) = 17 + 3 * w * h).
  { rewrite len_app, length_tiles_section by lia. unfold len.
    rewrite length_header_bytes. lia. }
  repeat (split; [first [reflexivity | destruct ih; lia]|]).
  split; [rewrite length_stream by lia; destruct ih; lia|].
  split.
  - intros ->.
    apply (slice_at _ (header_bytes w h true ++ tiles_section w h tile) _
                    (replicate (Z.to_nat (2 * (w * h))) 0)).
    + unfold stream. now rewrite <- !app_assoc.
    + rewrite Hpre. lia.
    + unfold len. rewrite length_replicate. nia.
  - replace (2 * w * h) with (2 * (w * h)) by lia.
    apply (slice_at _ ((header_bytes w h ih ++ tiles_section w h tile)
                         ++ replicate (Z.to_nat (if ih then w * h else 0)) 0) _ []).
    + unfold stream. now rewrite <- !app_assoc, app_nil_r.
    + rewrite len_app, Hpre. unfold len. rewrite length_replicate. destruct ih; nia.
    + unfold len. rewrite length_replicate. nia.
Qed.


(** The uniform encoder is the grid encoder on constant grids, also when
    either raises. *)
Lemma build_map_bin_constant_grid (w h tid var : Z) (ih : bool) :
  1 <= w -> 1 <= h ->
  build_map_bin w h tid var ih
  = build_map_bin_from_grid (replicate (Z.to_nat w) (replicate (Z.to_nat h) tid))
                            (replicate (Z.to_nat w) (replicate (Z.to_nat h) var)) ih.
Proof.
  intros Hw Hh.
  set (tt := replicate (Z.to_nat w) (replicate (Z.to_nat h) tid)).
  set (tv := replicate (Z.to_nat w) (replicate (Z.to_nat h) var)).
  assert (Hlen : forall x : Z, len (replicate (Z.to_nat h) x) = h)
    by (intros; unfold len; rewrite length_replicate; lia).
  assert (Hlw : forall x : Z, len (replicate (Z.to_nat w) (replicate (Z.to_nat h) x)) = w)
    by (intros; unfold len; rewrite length_replicate; lia).
  assert (Hcol : forall (x i : Z), 0 <= i < w ->
            getitem (replicate (Z.to_nat w) (replicate (Z.to_nat h) x)) i
            = Ok (replicate (Z.to_nat h) x)).
  { intros x i Hi. apply getitem_Ok; [lia|]. apply lookup_replicate_2. lia. }
  assert (Hcell : forall (x j : Z), 0 <= j < h ->
            getitem (replicate (Z.to_nat h) x) j = Ok x).
  { intros x j Hj. apply getitem_Ok; [lia|]. apply lookup_replicate_2. lia. }
  assert (Hall : forall x : Z, Forall (fun col => len col = h)
                      (replicate (Z.to_nat w) (replicate (Z.to_nat h) x)))
    by (intros; apply Forall_replicate, Hlen).
  unfold build_map_bin, build_map_bin_from_grid.
  rewrite (falsy_false tt) by (subst tt; rewrite Hlw; lia).
  subst tt tv. rewrite Hcol by lia. cbn [mbind result_bind].
  rewrite falsy_false by (rewrite Hlen; lia).
  rewrite Hlw, Hlen.
  rewrite !check_heights_Ok by apply Hall. cbn [mbind result_bind].
  destruct (header w h ih) as [out|e]; [|reflexivity]. cbn [mbind result_bind].
  f_equal. apply for_in_ext. intros i o Hi. apply elem_of_range in Hi.
  apply for_in_ext. intros j o' Hj. apply elem_of_range in Hj.
  rewrite !Hcol by lia. cbn [mbind result_bind].
  rewrite !Hcell by lia. cbn [mbind result_bind].
  destruct (_le_u16 tid); reflexivity.
Qed.

Lemma enhance_river_agrees (tt tv : list (list Z)) (ih : bool) (out : list Z) :
  build_map_bin_from_grid tt tv ih = Ok out ->
  EnhanceRiver.build_map_bin_from_grid tt tv ih = Ok out.
Proof.
  unfold build_map_bin_from_grid, EnhanceRiver.build_map_bin_from_grid.
  destruct (falsy tt); [trivial|].
  destruct (getitem tt 0) as [col0|e]; [|trivial]. cbn [mbind result_bind].
  destruct (falsy col0); [trivial|].
  destruct (check_heights tt (len col0)) as [[]|e]; [|discriminate].
  cbn [mbind result_bind].
  destruct (check_heights tv (len col0)) as [[]|e]; [|discriminate].
  trivial.
Qed.


Lemma classic_fit (w h : Z) (ih : bool) : fields_fit w h ih \/ ~ fields_fit w h ih.
Proof. unfold fields_fit. destruct ih; lia. Qed.

Lemma to_bytes_cases (n : nat) (v : Z) :
  to_bytes n v = if decide (0 <= v < 2 ^ (8 * Z.of_nat n))
                 then Ok (le_digits n v) else Raise OverflowError.
Proof.
  unfold to_bytes. destruct (decide _) as [Hv|Hv];
    destruct (Z.ltb_spec v 0); destruct (Z.leb_spec (2 ^ (8 * Z.of_nat n)) v);
    cbn [orb]; try reflexivity; lia.
Qed.

Lemma header_not_fit (w h : Z) (ih : bool) :
  ~ fields_fit w h ih -> header w h ih = Raise OverflowError.
Proof.
  intros Hbad. unfold header, _le_u16, _le_u32.
  rewrite bytearray_append_Ok by lia. cbn [mbind result_bind].
  rewrite !to_bytes_cases.
  destruct (decide (0 <= w < _)) as [Hw|Hw]; [|reflexivity]. cbn [mbind result_bind].
  destruct (decide (0 <= h < _)) as [Hh|Hh]; [|reflexivity]. cbn [mbind result_bind].
  destruct (decide (0 <= 17 < _)) as [H17|H17]; [|exfalso; apply H17; cbn; lia].
  cbn [mbind result_bind].
  destruct (decide (0 <= (if negb ih then 0 else 3 * w * h + 17) < _)) as [H0|H0];
    [|reflexivity]. cbn [mbind result_bind].
  destruct (decide (0 <= (if ih then 4 else 3) * w * h + 17 < _)) as [Hr|Hr];
    [|reflexivity].
  exfalso. apply Hbad. unfold fields_fit. cbn in Hw, Hh, Hr. lia.
Qed.

(** A loop whose body raises [e] at every item raises [e] unless it has
    nothing to visit. *)
Lemma for_in_raises {A S} (xs : list A) (body : A -> S -> result S) (s : S) (e : exn) :
  xs <> [] -> (forall x s, x ∈ xs -> body x s = Raise e) -> for_in xs body s = Raise e.
Proof.
  destruct xs as [|x xs]; [congruence|]. intros _ Hb. cbn [for_in].
  rewrite Hb by left. reflexivity.
Qed.

Lemma range_nonempty (n : Z) : 0 < n -> range n <> [].
Proof.
  intros Hn Hr. pose proof (len_range n ltac:(lia)) as Hl. rewrite Hr in Hl. cbn in Hl. lia.
Qed.

Lemma build_map_bin_overflow (w h tid var : Z) (ih : bool) :
  ~ (fields_fit w h ih /\ (0 < w -> 0 < h -> 0 <= tid < 65536)) ->
  build_map_bin w h tid var ih = Raise OverflowError.
Proof.
  intros Hbad. unfold build_map_bin.
  destruct (classic_fit w h ih) as [Hfit|Hfit].
  2:{ rewrite header_not_fit by assumption. reflexivity. }
  rewrite header_bytes_Ok by assumption. cbn [mbind result_bind].
  assert (Hw : 0 < w) by (apply Z.nle_gt; intros ?; apply Hbad; split; [assumption | lia]).
  assert (Hh : 0 < h) by (apply Z.nle_gt; intros ?; apply Hbad; split; [assumption | lia]).
  assert (Ht : ~ 0 <= tid < 65536) by (intros ?; apply Hbad; now split).
  rewrite (for_in_raises _ _ _ OverflowError); [reflexivity | now apply range_nonempty |].
  intros i o _. apply for_in_raises; [now apply range_nonempty|].
  intros j o' _. unfold _le_u16. rewrite to_bytes_cases.
  destruct (decide _) as [Hv|Hv]; [|reflexivity]. exfalso. apply Ht. cbn in Hv. lia.
Qed.


Lemma range_split (k n : Z) : 0 <= k <= n -> range n = range k ++ range2 k n.
Proof.
  intros Hk. unfold range, range2. replace (n - 0) with ((k - 0) + (n - k)) by lia.
  rewrite seqZ_app by lia. do 2 f_equal. lia.
Qed.

Lemma range2_cons (lo hi : Z) : lo < hi -> range2 lo hi = lo :: range2 (lo + 1) hi.
Proof.
  intros Hlt. unfold range2. rewrite seqZ_cons by lia. do 2 f_equal; lia.
Qed.

(** A nonempty type grid of inconsistent column heights, or a variant grid
    with a column of another height, is refused before anything is encoded. *)
Lemma from_grid_ragged (tt tv : list (list Z)) (col0 : list Z) (rest : list (list Z))
    (ih : bool) :
  tt = col0 :: rest -> col0 <> [] ->
  ~ (Forall (fun col => len col = len col0) tt /\
     Forall (fun col => len col = len col0) tv) ->
  build_map_bin_from_grid tt tv ih = Raise ValueError.
Proof.
  intros -> Hne Hbad. unfold build_map_bin_from_grid. cbn [falsy].
  rewrite (getitem_Ok (col0 :: rest) 0 col0) by (reflexivity || lia).
  cbn [mbind result_bind]. destruct col0 as [|x col0]; [congruence|]. cbn [falsy].
  destruct (check_heights (_ :: rest) _) as [[]|e] eqn:E1.
  - cbn [mbind result_bind]. rewrite check_heights_bad; [reflexivity|].
    intros Hv. apply Hbad. split; [|assumption].
    apply dec_stable. intros Hn. rewrite check_heights_bad in E1 by assumption. discriminate.
  - cbn [mbind result_bind]. f_equal.
    unfold check_heights in E1.
    assert (Hval : forall cols, for_in cols
                     (fun (col : list Z) (_ : unit) =>
                        if len col =? len (x :: col0) then Ok () else Raise ValueError) ()
                   = Raise e -> e = ValueError).
    { induction cols as [|c cols IH]; cbn [for_in]; [discriminate|].
      destruct (_ =? _); cbn [mbind result_bind]; [exact IH | congruence]. }
    now apply (Hval _ E1).
Qed.

Lemma getitem_beyond {A} (l : list A) (i : Z) :
  len l <= i -> getitem l i = Raise IndexError.
Proof.
  intros Hi. unfold getitem. assert (0 <= len l) by (unfold len; lia).
  destruct (Z.ltb_spec i 0); [lia|]. destruct (Z.ltb_spec i (len l)); [lia|].
  now rewrite andb_false_r.
Qed.

(** A variant grid that is too narrow is found out only when the loop reaches
    the missing column. *)
Lemma from_grid_narrow_variant (w h : Z) (tt tv : list (list Z)) (ih : bool) :
  1 <= w -> 1 <= h -> fields_fit w h ih ->
  rectangular w h tt -> fits_u16 tt ->
  len tv < w -> Forall (fun col => len col = h) tv ->
  build_map_bin_from_grid tt tv ih = Raise IndexError.
Proof.
  intros Hw Hh Hfit Htt Hu Hlv Htv.
  pose proof (rectangular_column w h tt 0 Htt ltac:(lia)) as Hcol0.
  assert (Hlw : len tt = w) by apply Htt.
  assert (Hk : 0 <= len tv) by (unfold len; lia).
  unfold build_map_bin_from_grid.
  rewrite (falsy_false tt) by lia.
  rewrite getitem_total by lia. cbn [mbind result_bind].
  rewrite (falsy_false (tt !!! Z.to_nat 0)) by lia.
  rewrite Hlw, Hcol0.
  rewrite (check_heights_Ok tt) by apply Htt. cbn [mbind result_bind].
  rewrite (check_heights_Ok tv) by assumption. cbn [mbind result_bind].
  rewrite header_bytes_Ok by assumption. cbn [mbind result_bind].
  rewrite (range_split (len tv) w) by lia. rewrite for_in_app.
  rewrite (tiles_loop (len tv) h (fun i j => (cell_at tt i j, cell_at tv i j))
             (fun i j out =>
                ct ← getitem tt i; t ← getitem ct j; b ← _le_u16 t;
                cv ← getitem tv i; v ← getitem cv j;
                bytearray_append (out ++ b) (Z.land v 255))).
  2:{ intros i j o Hi Hj. apply (emit_cell w h); try assumption; lia. }
  cbn [mbind result_bind].
  rewrite (range2_cons (len tv) w) by lia. cbn [for_in].
  rewrite (for_in_raises (range h) _ _ IndexError);
    [reflexivity | apply range_nonempty; lia |].
  intros j o Hj. apply elem_of_range in Hj.
  pose proof (rectangular_column w h tt (len tv) Htt ltac:(lia)) as Hci.
  rewrite (getitem_total tt) by lia. cbn [mbind result_bind].
  rewrite (getitem_total (tt !!! _)) by lia. cbn [mbind result_bind].
  pose proof (fits_u16_cell w h tt (len tv) j Htt Hu ltac:(lia) ltac:(lia)) as Hc.
  unfold cell_at in Hc. unfold _le_u16. rewrite to_bytes_Ok by (cbn; lia).
  cbn [mbind result_bind].
  now rewrite (getitem_beyond tv (len tv)) by lia.
Qed.


Lemma tiles_section_ext (w h : Z) (f g : Z -> Z -> Z * Z) :
  (forall i j, 0 <= i < w -> 0 <= j < h -> f i j = g i j) ->
  tiles_section w h f = tiles_section w h g.
Proof.
  intros Hfg. unfold tiles_section. f_equal. apply map_ext_in.
  intros [i j] Hin. apply list_elem_of_In, elem_of_cells_of in Hin as [Hi Hj].
  apply elem_of_range in Hi, Hj. cbn [fst snd]. now rewrite Hfg.
Qed.

End FormatFacts.
(** ** Repainting *)

Section RepaintFacts.
Import Raster Spec Painting.

Lemma repaints_refl (v : Z) (g : Grid) : repaints v g g.
Proof. split; [reflexivity | intros; now left]. Qed.

Lemma repaints_trans (v : Z) (g1 g2 g3 : Grid) :
  repaints v g1 g2 -> repaints v g2 g3 -> repaints v g1 g3.
Proof.
  intros [S12 H12] [S23 H23]. split; [congruence|].
  intros i j Hi Hj. destruct (H23 i j Hi Hj) as [E|E]; [|now right].
  rewrite E. now apply H12.
Qed.

Lemma repaints_upd (v : Z) (g : Grid) (i j : Z) :
  0 <= i -> 0 <= j -> repaints v g (upd g i j v).
Proof.
  intros Hi Hj. split; [apply shape_upd|].
  intros i' j' Hi' Hj'. destruct (decide ((i', j') = (i, j))) as [E|E].
  - injection E as -> ->. destruct (lookup2 g i j) as [a|] eqn:Ea.
    + right. now apply (lookup2_upd_eq g i j v a).
    + left. unfold lookup2, upd in *. rewrite list_lookup_alter_eq.
      destruct (g !! Z.to_nat i) as [col|]; cbn in *; [|reflexivity].
      transitivity (@None Z); [|now symmetry].
      apply lookup_ge_None. rewrite length_insert. now apply lookup_ge_None.
  - left. now apply lookup2_upd_ne.
Qed.

Section Loop.
Variables (sel : Z -> Z -> result bool) (v : Z).
Hypothesis sel_nonneg : forall i j, sel i j = Ok true -> 0 <= i /\ 0 <= j.

(** What a completed rasterising loop has done to a grid [g] that is itself a
    repainting of [g0]: the count grows with the number of cells that differ
    from [g0], every selected cell holds the value, every other cell is as it
    was. *)
Lemma paint_loop_from (g0 : Grid) (cs : list (Z * Z)) :
  forall (g : Grid) (n : Z) (g' : Grid) (n' : Z),
  repaints v g0 g ->
  for_in cs (paint_if sel v) (g, n) = Ok (g', n') ->
  repaints v g g' /\
  n' - n = changed_cells g0 g' - changed_cells g0 g /\
  (forall c, c ∈ cs -> exists b, sel (fst c) (snd c) = Ok b /\
                                 (b = true -> lookup2 g' (fst c) (snd c) = Some v)) /\
  (forall i j, 0 <= i -> 0 <= j -> ~ ((i, j) ∈ cs /\ sel i j = Ok true) ->
               lookup2 g' i j = lookup2 g i j).
Proof.
  induction cs as [|[i j] cs IH]; intros g n g' n' Hg0 Hrun.
  - cbn in Hrun. injection Hrun as <- <-. split; [apply repaints_refl|].
    split; [lia|]. split; [intros c Hc; inversion Hc | reflexivity].
  - cbn [for_in] in Hrun. apply bind_inv_Ok in Hrun as ([g1 n1] & Hstep & Hrest).
    rewrite paint_if_cell in Hstep.
    apply bind_inv_Ok in Hstep as (b & Hb & Hstep).
    assert (Hstep' :
      (g1, n1) = (g, n) /\ (b = true -> lookup2 g i j = Some v) \/
      exists a, b = true /\ 0 <= i /\ 0 <= j /\ lookup2 g i j = Some a /\ a <> v /\
                g1 = upd g i j v /\ n1 = n + 1).
    { destruct b; [|left; split; [congruence | discriminate]].
      destruct (sel_nonneg i j Hb) as [Hi Hj].
      destruct (lookup2 g i j) as [a|] eqn:Ea.
      - destruct (decide (a = v)) as [->|Hne].
        + rewrite paint_same in Hstep by assumption. left. split; congruence.
        + rewrite (paint_changes g n i j v a) in Hstep by assumption.
          right. exists a. injection Hstep as <- <-. repeat split; auto.
      - rewrite paint_outside in Hstep by assumption. discriminate. }
    destruct Hstep' as [[E Hv] | (a & -> & Hi & Hj & Ea & Hne & -> & ->)].
    + injection E as -> ->.
      destruct (IH g n g' n' Hg0 Hrest) as (Hrep & Hn & Hsel & Hother).
      split; [exact Hrep|]. split; [exact Hn|]. split.
      * intros c Hc. apply elem_of_cons in Hc as [->|Hc]; [|now apply Hsel].
        exists b. split; [exact Hb|]. intros ->. cbn [fst snd].
        destruct (sel_nonneg i j Hb) as [Hi Hj].
        destruct (proj2 Hrep i j Hi Hj) as [E|E]; [|exact E]. rewrite E. now apply Hv.
      * intros i' j' Hi' Hj' Hn'. apply Hother; try assumption.
        intros [Hin Hs]. apply Hn'. split; [now right | exact Hs].
    + assert (Hg1 : repaints v g (upd g i j v)) by now apply repaints_upd.
      destruct (IH (upd g i j v) (n + 1) g' n') as (Hrep & Hn & Hsel & Hother);
        [now apply (repaints_trans v g0 g) | assumption |].
      assert (Ea0 : lookup2 g0 i j = Some a).
      { destruct (proj2 Hg0 i j Hi Hj) as [E|E]; congruence. }
      rewrite (changed_cells_upd g0 g i j v a) in Hn by assumption.
      split; [now apply (repaints_trans v g (upd g i j v))|].
      split; [lia|]. split.
      * intros c Hc. apply elem_of_cons in Hc as [->|Hc]; [|now apply Hsel].
        exists true. split; [exact Hb|]. intros _. cbn [fst snd].
        destruct (proj2 Hrep i j Hi Hj) as [E|E]; [|exact E].
        rewrite E. now apply (lookup2_upd_eq g i j v a).
      * intros i' j' Hi' Hj' Hn'. rewrite Hother; try assumption.
        -- apply lookup2_upd_ne; try assumption. intros E. injection E as -> ->.
           apply Hn'. split; [now left | exact Hb].
        -- intros [Hin Hs]. apply Hn'. split; [now right | exact Hs].
Qed.

End Loop.


Lemma repaints_dims (v : Z) (g g' : Grid) :
  repaints v g g' -> len g' = len g /\ grid_height g' = grid_height g.
Proof.
  intros [Hs _]. split; [now apply len_of_shape | now apply grid_height_of_shape].
Qed.

(** A disc drawn on a repainting of [g0]. *)
Lemma draw_disc_from (g0 g g' : Grid) (cx cy rc : float) (v n : Z) :
  repaints v g0 g -> _draw_disc g cx cy rc v = Ok (g', n) ->
  repaints v g g' /\ n = changed_cells g0 g' - changed_cells g0 g.
Proof.
  intros Hg0. rewrite draw_disc_loop. cbv zeta. intros Hrun.
  apply bind_inv_Ok in Hrun as (cs & _ & Hrun).
  destruct (paint_loop_from _ v (disc_sel_nonneg _ _ _ _ _) g0 cs g 0 g' n Hg0 Hrun)
    as (Hrep & Hn & _). split; [exact Hrep | lia].
Qed.

(** A disc that has been drawn stays drawn under further repainting with the
    same value: drawing it again changes nothing. *)
Lemma draw_disc_settled (g g1 g' : Grid) (cx cy rc : float) (v n : Z) :
  _draw_disc g cx cy rc v = Ok (g1, n) -> repaints v g1 g' ->
  _draw_disc g' cx cy rc v = Ok (g', 0).
Proof.
  rewrite !draw_disc_loop. cbv zeta. intros Hrun Hext.
  apply bind_inv_Ok in Hrun as (cs & Hcs & Hrun).
  destruct (paint_loop_from _ v (disc_sel_nonneg _ _ _ _ _) g cs g 0 g1 n
              (repaints_refl v g) Hrun) as (Hrep & _ & Hsel & _).
  destruct (repaints_dims v g g' (repaints_trans v g g1 g' Hrep Hext)) as [-> ->].
  rewrite Hcs. cbn [mbind result_bind].
  apply (paint_loop_noop _ v (disc_sel_nonneg _ _ _ _ _)).
  intros c Hc. destruct (Hsel c Hc) as (b & Hb & Hv). exists b. split; [exact Hb|].
  intros ->. destruct (disc_sel_nonneg _ _ _ _ _ _ _ Hb) as [Hi Hj].
  destruct (proj2 Hext _ _ Hi Hj) as [E|E]; [|exact E]. rewrite E. now apply Hv.
Qed.

(** The same for a polygon. *)
Lemma fill_polygon_from (g0 g g' : Grid) (poly : list (float * float)) (v n : Z) :
  repaints v g0 g -> _fill_polygon g poly v = Ok (g', n) ->
  repaints v g g' /\ n = changed_cells g0 g' - changed_cells g0 g.
Proof.
  intros Hg0. destruct poly as [|p rest].
  - cbn. intros E. injection E as <- <-. split; [apply repaints_refl | lia].
  - rewrite fill_polygon_loop. intros Hrun.
    apply bind_inv_Ok in Hrun as (cs & _ & Hrun).
    destruct (paint_loop_from _ v (poly_sel_nonneg _) g0 cs g 0 g' n Hg0 Hrun)
      as (Hrep & Hn & _). split; [exact Hrep | lia].
Qed.

End RepaintFacts.

(** ** Thick lines *)

Section LineFacts.
Import Raster Spec Painting Strokes.
Context `{Libm}.

(** The loop of [_rasterize_line] over any list of sample indices. *)
Lemma line_loop (g0 : Grid) (x0 y0 x1 y1 rc : float) (v steps : Z) (ss : list Z) :
  let step := fun (s : Z) (st : Grid * Z) =>
    let '(grid, count) := st in
    t ← int_truediv s steps;
    let x := (x0 + (x1 - x0) * t)%float in
    let y := (y0 + (y1 - y0) * t)%float in
    r ← _draw_disc grid x y rc v;
    Ok (fst r, count + snd r) in
  forall (g : Grid) (c : Z) (g' : Grid) (c' : Z),
  repaints v g0 g -> for_in ss step (g, c) = Ok (g', c') ->
  repaints v g g' /\
  c' - c = changed_cells g0 g' - changed_cells g0 g /\
  (forall g'' c'', repaints v g' g'' -> for_in ss step (g'', c'') = Ok (g'', c'')).
Proof.
  intros step. induction ss as [|s ss IH]; intros g c g' c' Hg0 Hrun.
  - cbn in Hrun. injection Hrun as <- <-. split; [apply repaints_refl|].
    split; [lia | reflexivity].
  - cbn [for_in] in Hrun. apply bind_inv_Ok in Hrun as ([g1 c1] & Hstep & Hrest).
    unfold step in Hstep at 1.
    apply bind_inv_Ok in Hstep as (t & Ht & Hstep).
    apply bind_inv_Ok in Hstep as ([gd nd] & Hdisc & Hstep).
    cbn [fst snd] in Hstep. injection Hstep as <- <-.
    destruct (draw_disc_from g0 g gd _ _ _ v nd Hg0 Hdisc) as (Hrep1 & Hn1).
    destruct (IH gd (c + nd) g' c' (repaints_trans v g0 g gd Hg0 Hrep1) Hrest)
      as (Hrep & Hn & Hagain).
    split; [now apply (repaints_trans v g gd)|]. split; [lia|].
    intros g'' c'' Hext. cbn [for_in]. unfold step at 2. rewrite Ht.
    cbn [mbind result_bind].
    rewrite (draw_disc_settled g gd g'' _ _ _ v nd Hdisc)
      by now apply (repaints_trans v gd g').
    cbn [mbind result_bind fst snd]. rewrite Z.add_0_r. now apply Hagain.
Qed.

Lemma rasterize_line_from (g0 g g' : Grid) (x0 y0 x1 y1 rc : float) (v n : Z) :
  repaints v g0 g -> _rasterize_line g x0 y0 x1 y1 rc v = Ok (g', n) ->
  repaints v g g' /\ n = changed_cells g0 g' - changed_cells g0 g /\
  (forall g'', repaints v g' g'' -> _rasterize_line g'' x0 y0 x1 y1 rc v = Ok (g'', 0)).
Proof.
  intros Hg0. unfold _rasterize_line.
  destruct (hypot (x1 - x0) (y1 - y0) =? 0)%float.
  - intros Hrun. destruct (draw_disc_from g0 g g' _ _ _ v n Hg0 Hrun) as [Hrep Hn].
    split; [exact Hrep|]. split; [exact Hn|].
    intros g'' Hext. now apply (draw_disc_settled g g' g'' _ _ _ v n).
  - intros Hrun. apply bind_inv_Ok in Hrun as (a & Ha & Hrun).
    destruct (line_loop g0 x0 y0 x1 y1 rc v (Z.max 1 a) _ g 0 g' n Hg0 Hrun)
      as (Hrep & Hn & Hagain).
    split; [exact Hrep|]. split; [lia|].
    intros g'' Hext. rewrite Ha. cbn [mbind result_bind]. now apply Hagain.
Qed.

End LineFacts.
(** ** [_stamp_template] *)

Section StampFacts.
Import Raster Spec Painting.

Lemma grid_set_inside (w h : Z) (g : Grid) (i j v : Z) :
  rectangular w h g -> 0 <= i < w -> 0 <= j < h ->
  grid_set g i j v = Ok (upd g i j v) /\ rectangular w h (upd g i j v).
Proof.
  intros Hr Hi Hj. destruct (rectangular_lookup2 w h g i j Hr Hi Hj) as [a Ha].
  split.
  - apply (grid_set_nonneg g i j v a); [lia | lia | exact Ha].
  - apply (rectangular_of_shape w h g); [apply shape_upd | exact Hr].
Qed.

Lemma lookup2_upd (g : Grid) (i j v i' j' : Z) :
  0 <= i -> 0 <= j -> 0 <= i' -> 0 <= j' -> is_Some (lookup2 g i j) ->
  lookup2 (upd g i j v) i' j'
  = if bool_decide ((i', j') = (i, j)) then Some v else lookup2 g i' j'.
Proof.
  intros Hi Hj Hi' Hj' [a Ha]. case_bool_decide as E.
  - injection E as -> ->. now apply (lookup2_upd_eq g i j v a).
  - now apply lookup2_upd_ne.
Qed.

Section Block.
Variables (w h i0 j0 id tw : Z).

Let body := fun (c : Z * Z) (st : Grid * Grid * Z) =>
  let '(tiles_type, tiles_variant, written) := st in
  let i := i0 + snd c in
  let j := j0 + fst c in
  if in_bounds w h i j then
    tiles_type' ← grid_set tiles_type i j id;
    tiles_variant' ← grid_set tiles_variant i j (fst c * tw + snd c);
    Ok (tiles_type', tiles_variant', written + 1)
  else Ok (tiles_type, tiles_variant, written).

(** The stamping loop over any list of (dy, dx) offsets. *)
Lemma stamp_loop (cs : list (Z * Z)) :
  forall (tt tv : Grid) (n : Z),
  rectangular w h tt -> rectangular w h tv ->
  exists tt' tv',
    for_in cs body (tt, tv, n)
    = Ok (tt', tv',
          n + len (filter (fun c => in_bounds w h (i0 + snd c) (j0 + fst c) = true) cs)) /\
    rectangular w h tt' /\ rectangular w h tv' /\
    forall i j, 0 <= i -> 0 <= j ->
      lookup2 tt' i j
      = (if bool_decide ((j - j0, i - i0) ∈ cs) && in_bounds w h i j
         then Some id else lookup2 tt i j) /\
      lookup2 tv' i j
      = (if bool_decide ((j - j0, i - i0) ∈ cs) && in_bounds w h i j
         then Some ((j - j0) * tw + (i - i0)) else lookup2 tv i j).
Proof.
  induction cs as [|[dy dx] cs IH]; intros tt tv n Htt Htv.
  - exists tt, tv. cbn [for_in filter]. split; [unfold len; cbn; do 2 f_equal; lia|].
    split; [exact Htt|]. split; [exact Htv|]. intros i j _ _.
    rewrite bool_decide_eq_false_2 by (intros Hin; inversion Hin). now split.
  - cbn [for_in].
    assert (Hb : body (dy, dx) (tt, tv, n)
                 = if in_bounds w h (i0 + dx) (j0 + dy) then
                     tiles_type' ← grid_set tt (i0 + dx) (j0 + dy) id;
                     tiles_variant' ← grid_set tv (i0 + dx) (j0 + dy) (dy * tw + dx);
                     Ok (tiles_type', tiles_variant', n + 1)
                   else Ok (tt, tv, n)) by reflexivity.
    rewrite Hb. clear Hb. rewrite filter_cons. cbn [fst snd].
    destruct (in_bounds w h (i0 + dx) (j0 + dy)) eqn:Einb.
    + apply in_bounds_spec in Einb as Hin. destruct Hin as [Hi Hj].
      destruct (grid_set_inside w h tt (i0 + dx) (j0 + dy) id Htt Hi Hj) as [-> Htt1].
      cbn [mbind result_bind].
      destruct (grid_set_inside w h tv (i0 + dx) (j0 + dy) (dy * tw + dx) Htv Hi Hj)
        as [-> Htv1].
      cbn [mbind result_bind].
      destruct (IH _ _ (n + 1) Htt1 Htv1) as (tt' & tv' & Hrun & Htt' & Htv' & Hcells).
      exists tt', tv'. split.
      { rewrite Hrun. destruct (decide (true = true)); [|congruence].
        rewrite len_cons. do 2 f_equal. lia. }
      split; [exact Htt'|]. split; [exact Htv'|]. intros i j Hi' Hj'.
      destruct (Hcells i j Hi' Hj') as [Ht Hv]. rewrite Ht, Hv.
      rewrite !lookup2_upd by (try lia; now apply (rectangular_lookup2 w h)).
      destruct (decide ((j - j0, i - i0) = (dy, dx))) as [E|E].
      * injection E as Ey Ex. assert (i = i0 + dx) as -> by lia.
        assert (j = j0 + dy) as -> by lia.
        rewrite (bool_decide_eq_true_2 (_ ∈ (dy, dx) :: cs))
          by (replace (j0 + dy - j0) with dy by lia; replace (i0 + dx - i0) with dx by lia;
              now left).
        rewrite (proj2 (in_bounds_spec w h _ _)) by (split; lia). cbn [andb].
        rewrite !(bool_decide_eq_true_2 ((i0 + dx, j0 + dy) = (i0 + dx, j0 + dy)))
          by reflexivity.
        replace (j0 + dy - j0) with dy by lia. replace (i0 + dx - i0) with dx by lia.
        destruct (bool_decide ((dy, dx) ∈ cs)); cbn [andb]; now split.
      * rewrite (bool_decide_ext (_ ∈ (dy, dx) :: cs) ((j - j0, i - i0) ∈ cs))
          by (rewrite elem_of_cons; tauto).
        rewrite !(bool_decide_eq_false_2 ((i, j) = _)) by (intros E'; injection E' as -> ->;
          apply E; f_equal; lia).
        now split.
    + destruct (decide (false = true)); [congruence|].
      destruct (IH tt tv n Htt Htv) as (tt' & tv' & Hrun & Htt' & Htv' & Hcells).
      exists tt', tv'. split; [exact Hrun|]. split; [exact Htt'|]. split; [exact Htv'|].
      intros i j Hi' Hj'. destruct (Hcells i j Hi' Hj') as [Ht Hv]. rewrite Ht, Hv.
      destruct (decide ((j - j0, i - i0) = (dy, dx))) as [E|E].
      * injection E as Ey Ex. assert (i = i0 + dx) as -> by lia.
        assert (j = j0 + dy) as -> by lia. rewrite Einb, !andb_false_r. now split.
      * rewrite (bool_decide_ext (_ ∈ (dy, dx) :: cs) ((j - j0, i - i0) ∈ cs))
          by (rewrite elem_of_cons; tauto).
        now split.
Qed.

End Block.

(** How many of [a], [a+1], ..., [a+n-1] lie in [lo, hi). *)
Lemma count_interval (a lo hi n : Z) :
  0 <= n ->
  len (filter (fun d => lo <= a + d < hi) (range n))
  = Z.max 0 (Z.min hi (a + n) - Z.max lo a).
Proof.
  intros Hn. pattern n. apply natlike_ind; [| |exact Hn].
  - change (range 0) with (@nil Z). rewrite filter_nil. unfold len. cbn [length]. lia.
  - intros k Hk IH. rewrite (range_split k (Z.succ k)) by lia.
    rewrite (range2_cons k (Z.succ k)) by lia.
    replace (range2 (k + 1) (Z.succ k)) with (@nil Z)
      by (unfold range2; now replace (Z.succ k - (k + 1)) with 0 by lia).
    rewrite filter_app, len_app, IH. rewrite filter_cons, filter_nil.
    destruct (decide (lo <= a + k < hi)); unfold len; cbn [length]; lia.
Qed.

Lemma count_product (P Q : Z -> Prop) `{!forall x, Decision (P x)} `{!forall x, Decision (Q x)}
    (xs ys : list Z) :
  len (filter (fun c => P (fst c) /\ Q (snd c)) (cells_of xs ys))
  = len (filter P xs) * len (filter Q ys).
Proof.
  induction xs as [|x xs IH].
  - unfold len. cbn. lia.
  - replace (cells_of (x :: xs) ys) with (map (pair x) ys ++ cells_of xs ys)
      by (unfold cells_of; rewrite bind_cons; f_equal; symmetry; apply cells_of_row).
    rewrite filter_app, len_app, IH, filter_cons.
    assert (Hrow : len (filter (fun c : Z * Z => P (fst c) /\ Q (snd c)) (map (pair x) ys))
                   = if decide (P x) then len (filter Q ys) else 0).
    { clear IH. induction ys as [|y ys IHy]; [now destruct (decide (P x))|].
      cbn [map]. rewrite !filter_cons. cbn [fst snd].
      destruct (decide (P x)) as [Hp|Hp].
      - destruct (decide (Q y)) as [Hq|Hq].
        + rewrite decide_True by tauto. rewrite !len_cons, IHy. reflexivity.
        + rewrite decide_False by tauto. exact IHy.
      - rewrite decide_False by tauto. exact IHy. }
    rewrite Hrow. destruct (decide (P x)); rewrite ?len_cons; lia.
Qed.

(** The effect of [_stamp_template] on two grids of the map's shape. *)
Lemma stamp_template_spec (w h : Z) (tt tv : Grid) (i0 j0 id tw th : Z) :
  rectangular w h tt -> rectangular w h tv -> 0 < w ->
  TEMPLATE_SIZES !! id = Some (tw, th) -> 0 <= tw -> 0 <= th ->
  exists tt' tv',
    _stamp_template tt tv i0 j0 id
    = Ok (tt', tv',
          Z.max 0 (Z.min w (i0 + tw) - Z.max 0 i0) * Z.max 0 (Z.min h (j0 + th) - Z.max 0 j0)) /\
    rectangular w h tt' /\ rectangular w h tv' /\
    forall i j, 0 <= i -> 0 <= j ->
      lookup2 tt' i j
      = (if in_block i0 j0 tw th i j && in_bounds w h i j then Some id else lookup2 tt i j) /\
      lookup2 tv' i j
      = (if in_block i0 j0 tw th i j && in_bounds w h i j
         then Some ((j - j0) * tw + (i - i0)) else lookup2 tv i j).
Proof.
  intros Htt Htv Hw Hsize Htw Hth.
  destruct (rectangular_dims w h tt Htt Hw) as [Hlw Hlh].
  unfold _stamp_template. rewrite Hsize, Hlw, Hlh.
  rewrite (for_in_nested (range th) (range tw)
             (fun c (st : Grid * Grid * Z) =>
                let '(tiles_type, tiles_variant, written) := st in
                let i := i0 + snd c in
                let j := j0 + fst c in
                if in_bounds w h i j then
                  tiles_type' ← grid_set tiles_type i j id;
                  tiles_variant' ← grid_set tiles_variant i j (fst c * tw + snd c);
                  Ok (tiles_type', tiles_variant', written + 1)
                else Ok (tiles_type, tiles_variant, written))).
  destruct (stamp_loop w h i0 j0 id tw (cells_of (range th) (range tw)) tt tv 0 Htt Htv)
    as (tt' & tv' & Hrun & Htt' & Htv' & Hcells).
  exists tt', tv'. split.
  { rewrite Hrun. do 2 f_equal. rewrite Z.add_0_l.
    rewrite (list_filter_iff _
               (fun c : Z * Z => 0 <= j0 + fst c < h /\ 0 <= i0 + snd c < w)).
    2:{ intros c. rewrite in_bounds_spec. tauto. }
    pose proof (count_product (fun d => 0 <= j0 + d < h) (fun d => 0 <= i0 + d < w)
                  (range th) (range tw)) as Hc.
    cbv beta in Hc. rewrite Hc, !count_interval by assumption. lia. }
  split; [exact Htt'|]. split; [exact Htv'|]. intros i j Hi Hj.
  destruct (Hcells i j Hi Hj) as [Ht Hv]. rewrite Ht, Hv.
  assert (E : bool_decide ((j - j0, i - i0) ∈ cells_of (range th) (range tw))
              = in_block i0 j0 tw th i j).
  { apply Bool.eq_true_iff_eq. rewrite bool_decide_eq_true, elem_of_cells_of, !elem_of_range.
    unfold in_block. rewrite !andb_true_iff, !Z.leb_le, !Z.ltb_lt. lia. }
  rewrite E. now split.
Qed.

End StampFacts.

(** ** [_local_water_fraction] *)

Section WaterFractionFacts.
Import Raster Spec Painting.

Lemma fractions_table : fractions_in_unit_interval = true.
Proof. vm_compute. reflexivity. Qed.

Lemma fraction_in_unit_interval (water total : Z) :
  1 <= total <= 81 -> 0 <= water <= total ->
  let q := (of_int water / of_int total)%float in
  (0 <=? q)%float = true /\ (q <=? 1)%float = true.
Proof.
  intros Ht Hw. pose proof fractions_table as Htab. unfold fractions_in_unit_interval in Htab.
  rewrite forallb_forall in Htab.
  assert (Hin : In total (range2 1 82)) by (apply list_elem_of_In, elem_of_range2; lia).
  specialize (Htab total Hin). rewrite forallb_forall in Htab.
  apply andb_true_iff, Htab, list_elem_of_In, elem_of_range. lia.
Qed.

Lemma length_cells_bind {A} (xs ys : list Z) (f : Z -> Z -> A) :
  length (i ← xs; j ← ys; [f i j]) = (length xs * length ys)%nat.
Proof.
  assert (Hrow : forall x : Z, length (j ← ys; [f x j]) = length ys).
  { intros x. induction ys as [|y ys IHy]; [reflexivity|]. cbn. now rewrite IHy. }
  induction xs as [|x xs IH]; [reflexivity|].
  rewrite bind_cons, length_app, IH, Hrow. reflexivity.
Qed.

Lemma clipped_window_le (w h ci cj : Z) : len (clipped_window w h ci cj 4) <= 81.
Proof.
  unfold clipped_window, len.
  etransitivity; [apply inj_le, length_filter|].
  rewrite (length_cells_bind _ _ (fun dj di => (ci + di, cj + dj))). reflexivity.
Qed.

(** The value of [_local_water_fraction] with its radius of 4. *)
Lemma local_water_fraction_spec (w h : Z) (tt : Grid) (ci cj : Z) :
  rectangular w h tt ->
  let win := clipped_window w h ci cj 4 in
  _local_water_fraction tt ci cj 4
  = Ok (if (w =? 0) || (h =? 0) || (len win =? 0) then 0%float
        else (of_int (water_cells_in tt win) / of_int (len win))%float).
Proof.
  intros Hr win. unfold _local_water_fraction.
  destruct (Z.eqb_spec w 0) as [Hw|Hw].
  { destruct Hr as [Hl _]. rewrite Hl, Hw. reflexivity. }
  assert (Hpos : 0 < w) by (destruct Hr as [Hl _]; unfold len in Hl; lia).
  destruct (rectangular_dims w h tt Hr Hpos) as [-> ->].
  destruct (Z.eqb_spec w 0); [contradiction|]. cbn [orb].
  destruct (Z.eqb_spec h 0) as [Hh|Hh]; [reflexivity|].
  rewrite (window_counts_spec tt w h ci cj 4 Hr Hpos). cbn [mbind result_bind].
  fold win. destruct (Z.eqb_spec (len win) 0) as [Hz|Hz]; [reflexivity|].
  assert (Hlen : 1 <= len win <= 81).
  { split; [unfold len in *; lia | apply clipped_window_le]. }
  pose proof (water_cells_in_le tt win) as Hwat.
  destruct (fraction_vs_threshold (water_cells_in tt win) (len win) Hlen ltac:(lia))
    as [Hnz _].
  unfold fdiv. now rewrite Hnz.
Qed.

Lemma template_sizes (id tw th : Z) :
  TEMPLATE_SIZES !! id = Some (tw, th) -> 2 <= tw <= 3 /\ 2 <= th <= 3.
Proof.
  unfold TEMPLATE_SIZES, RIVER_TEMPLATE_VERT_CENTER, RIVER_TEMPLATE_HORIZ_TOP,
    RIVER_TEMPLATE_HORIZ_TOP_ALT.
  rewrite !lookup_insert_Some, lookup_singleton_Some.
  intros [[_ E]|[_ [[_ E]|[_ [[_ E]|[_ [[_ E]|[_ [_ E]]]]]]]]]; injection E as <- <-; lia.
Qed.

End WaterFractionFacts.


(* ===================================================================== *)
(** * Part III. The specification's claims                                 *)
(* ===================================================================== *)

(** C1, as worded, fails: the size invariant is claimed for every width and
    height from 1 up, but for a 40000 x 40000 map (both dimensions fit the
    uint16 header fields) the resources offset 3*w*h + 17 exceeds the uint32
    field, [_le_u32] raises [OverflowError] and no byte string is produced. *)
Lemma C1_counterexample_offset_overflow :
  Encoder.build_map_bin 40000 40000 255 0 false = Raise OverflowError /\
  ~ Spec.encodes_no_heights 40000 40000 (Encoder.build_map_bin 40000 40000 255 0 false).
Proof.
  assert (E : Encoder.build_map_bin 40000 40000 255 0 false = Raise OverflowError).
  { unfold Encoder.build_map_bin. rewrite header_overflow by lia. reflexivity. }
  split; [exact E|]. rewrite E. intros (out & Hout & _). discriminate.
Qed.

(** C1 (amended): for every width and height between 1 and 65535 whose
    resources offset 3*w*h + 17 fits a uint32, both encoders, run without the
    heights layer, return a byte string of length exactly 17 + 3*w*h + 2*w*h
    that starts with the header: format version 2, w and h as little-endian
    uint16, tiles offset 17, heights offset 0 and resources offset 3*w*h + 17
    as little-endian uint32. ([build_map_bin] takes any template id that fits
    a uint16; [build_map_bin_from_grid] takes w x h grids whose template ids
    fit a uint16.) *)
Theorem C1_encoder_size_and_header (w h tid var : Z) (tt tv : list (list Z)) :
  1 <= w <= 65535 -> 1 <= h <= 65535 -> 3 * w * h + 17 < 2 ^ 32 ->
  0 <= tid < 65536 ->
  Spec.rectangular w h tt -> Spec.rectangular w h tv -> Spec.fits_u16 tt ->
  Spec.encodes_no_heights w h (Encoder.build_map_bin w h tid var false) /\
  Spec.encodes_no_heights w h (Encoder.build_map_bin_from_grid tt tv false) /\
  Spec.expected_header w h
    = [2] ++ le_digits 2 w ++ le_digits 2 h ++ [17; 0; 0; 0] ++ [0; 0; 0; 0]
          ++ le_digits 4 (3 * w * h + 17) /\
  le_value (le_digits 2 w) = w /\
  le_value (le_digits 2 h) = h /\
  le_value (le_digits 4 (3 * w * h + 17)) = 3 * w * h + 17 /\
  Forall (fun b => 0 <= b < 256) (Spec.expected_header w h).
Proof.
  intros Hw Hh Hr Ht Htt Htv Hfit.
  split; [now apply build_map_bin_layout|].
  split; [now apply build_map_bin_from_grid_layout|].
  split; [reflexivity|].
  split; [apply le_value_digits; cbn; lia|].
  split; [apply le_value_digits; cbn; lia|].
  split; [apply le_value_digits; cbn; nia|].
  unfold Spec.expected_header.
  repeat (apply Forall_app; split); try apply le_digits_bytes.
  repeat constructor; lia.
Qed.

(** The worked example of C1: a 2 x 2 map encodes to 37 bytes that start with
    [2, 2,0, 2,0, 17,0,0,0, 0,0,0,0, 29,0,0,0]. *)
Lemma C1_witness_2x2 :
  exists out,
    Encoder.build_map_bin 2 2 255 0 false = Ok out /\
    len out = 37 /\
    take 17 out = [2; 2; 0; 2; 0; 17; 0; 0; 0; 0; 0; 0; 0; 29; 0; 0; 0].
Proof.
  refine (proj1 (C1_encoder_size_and_header 2 2 255 0
                   [[255; 255]; [255; 255]] [[0; 0]; [0; 0]] _ _ _ _ _ _ _)).
  - lia.
  - lia.
  - cbn; lia.
  - lia.
  - split; [reflexivity | repeat constructor].
  - split; [reflexivity | repeat constructor].
  - repeat constructor; lia.
Defined.

(** C10: when the tile-type grid handed to the grid encoder is empty (no
    column at all, or an empty first column) the encoder returns the empty byte
    string: it neither raises nor emits the 17-byte header. *)
Theorem C10_empty_grid_encodes_to_nothing
    (rest tiles_variant : list (list Z)) (include_heights : bool) :
  Encoder.build_map_bin_from_grid [] tiles_variant include_heights = Ok [] /\
  Encoder.build_map_bin_from_grid ([] :: rest) tiles_variant include_heights = Ok [].
Proof.
  split; [reflexivity|].
  unfold Encoder.build_map_bin_from_grid. cbn [falsy].
  rewrite getitem_total by (unfold len; cbn [length]; lia).
  reflexivity.
Qed.

Section CoordinateMapper.
Import Geo.
Context `{Utm}.

(** C7: for an area of interest whose metres-per-cell is not zero and every
    (lat, lon), [_latlon_to_cell] returns [None] exactly when the projected
    point's zone number or zone letter differs from the area's; otherwise it
    returns the pair [((easting - min_e) / mpc, (max_n - northing) / mpc)],
    where easting and northing are the projection of (lat, lon). *)
Theorem C7_latlon_to_cell_zone_gate
    (center : Center) (bounds : Bounds) (mpc lat lon e n : float) (zn : Z) (zl : string) :
  (mpc =? 0)%float = false ->
  from_latlon lat lon = (e, n, zn, zl) ->
  (_latlon_to_cell center bounds mpc lat lon = Ok None <->
     zn <> zone_number center \/ zl <> zone_letter center) /\
  (zn = zone_number center -> zl = zone_letter center ->
     _latlon_to_cell center bounds mpc lat lon
     = Ok (Some (((e - min_e bounds) / mpc)%float, ((max_n bounds - n) / mpc)%float))).
Proof.
  intros Hmpc Hproj. unfold _latlon_to_cell, fdiv. rewrite Hproj, Hmpc.
  cbn [mbind result_bind].
  destruct (Z.eqb_spec zn (zone_number center)) as [Hzn|Hzn];
    destruct (String.eqb_spec zl (zone_letter center)) as [Hzl|Hzl]; cbn [negb orb].
  - split; [|reflexivity]. split; [discriminate | intros [?|?]; contradiction].
  - split; [|contradiction]. split; [now right | reflexivity].
  - split; [|contradiction]. split; [now left | reflexivity].
  - split; [|contradiction]. split; [now left | reflexivity].
Qed.

End CoordinateMapper.

(** C7 at work: with the flat projection, the point (lat 7.5, lon 0.5) lies in
    the area's zone and maps to the fractional cell (0.5, 0.5). *)
Lemma C7_witness_in_zone :
  (Geo._latlon_to_cell (H := Fixtures.flat_utm) Fixtures.aoi_center Fixtures.aoi_bounds
       Fixtures.aoi_mpc 7.5 0.5 = Ok None <->
     17 <> 17 \/ "S"%string <> "S"%string) /\
  (17 = 17 -> "S"%string = "S"%string ->
     Geo._latlon_to_cell (H := Fixtures.flat_utm) Fixtures.aoi_center Fixtures.aoi_bounds
       Fixtures.aoi_mpc 7.5 0.5
     = Ok (Some (((500 - 0) / 1000)%float, ((8000 - 7500) / 1000)%float))).
Proof.
  apply (C7_latlon_to_cell_zone_gate (H := Fixtures.flat_utm)
           Fixtures.aoi_center Fixtures.aoi_bounds Fixtures.aoi_mpc 7.5 0.5 500 7500 17 "S").
  - vm_compute. reflexivity.
  - vm_compute. reflexivity.
Defined.

Section Rasterizer.
Import Raster Spec.

(** C8: [_draw_disc] and [_fill_polygon] report only actual changes and are
    idempotent. Whenever a run on grid [g] returns [(g', n)], [g'] has the
    shape of [g] (as many columns, each of the same length), [n] is the number
    of cells whose stored value differs between [g] and [g'], and running the
    same call again on [g'] leaves [g'] as it is and returns 0. A run does
    return whenever the grid is rectangular and the scanned bounding box is
    finite (for a polygon, when moreover no edge makes the crossing test
    divide by zero). *)
Theorem C8_draw_and_fill_idempotent
    (g g' : Grid) (cx cy rc : float) (poly : list (float * float)) (value n : Z) :
  (_draw_disc g cx cy rc value = Ok (g', n) ->
     map length g' = map length g /\
     n = changed_cells g g' /\ _draw_disc g' cx cy rc value = Ok (g', 0)) /\
  (_fill_polygon g poly value = Ok (g', n) ->
     map length g' = map length g /\
     n = changed_cells g g' /\ _fill_polygon g' poly value = Ok (g', 0)) /\
  (rectangular (len g) (grid_height g) g ->
   (let r := fmax 0 rc in
    is_finite (cx - r) && is_finite (cx + r) && is_finite (cy - r) && is_finite (cy + r))
   = true ->
   exists g1 n1, _draw_disc g cx cy rc value = Ok (g1, n1)) /\
  (rectangular (len g) (grid_height g) g ->
   finite_ring poly -> ring_defined poly = true ->
   exists g1 n1, _fill_polygon g poly value = Ok (g1, n1)).
Proof.
  split.
  { intros Hrun. split; [now apply (draw_disc_shape g g' cx cy rc value n)|].
    now apply draw_disc_idempotent. }
  split.
  { intros Hrun. split; [now apply (fill_polygon_shape g g' poly value n)|].
    now apply fill_polygon_idempotent. }
  split; [apply draw_disc_total | apply fill_polygon_total].
Qed.

(** C9: for every ring with fewer than three vertices (empty, one vertex, two
    vertices) and finite coordinates, [_fill_polygon] returns normally, leaves
    every grid cell as it was and reports 0 changed cells. *)
Theorem C9_short_ring_is_noop (g : Grid) (poly : list (float * float)) (value : Z) :
  len poly < 3 -> finite_ring poly -> _fill_polygon g poly value = Ok (g, 0).
Proof. apply fill_polygon_short. Qed.

End Rasterizer.

(** C8 at work on the 4 x 4 grid of clear tiles: the disc of radius 1 around
    (2, 2) and the square with corners (0, 0) and (2, 2) each change four
    cells, keep the grid 4 x 4 and change nothing when drawn again. *)
Lemma C8_witness_disc_and_square :
  (map length Fixtures.disc_drawn = map length Fixtures.clear4 /\
   4 = Spec.changed_cells Fixtures.clear4 Fixtures.disc_drawn /\
   Raster._draw_disc Fixtures.disc_drawn 2 2 1 Raster.WATER_TEMPLATE_ID
   = Ok (Fixtures.disc_drawn, 0)) /\
  (map length Fixtures.square_filled = map length Fixtures.clear4 /\
   4 = Spec.changed_cells Fixtures.clear4 Fixtures.square_filled /\
   Raster._fill_polygon Fixtures.square_filled Fixtures.square_ring Raster.WATER_TEMPLATE_ID
   = Ok (Fixtures.square_filled, 0)).
Proof.
  split.
  - apply (proj1 (C8_draw_and_fill_idempotent Fixtures.clear4 Fixtures.disc_drawn
                    2 2 1 [] Raster.WATER_TEMPLATE_ID 4)).
    vm_compute. reflexivity.
  - apply (proj1 (proj2 (C8_draw_and_fill_idempotent Fixtures.clear4 Fixtures.square_filled
                           0 0 0 Fixtures.square_ring Raster.WATER_TEMPLATE_ID 4))).
    vm_compute. reflexivity.
Defined.

(** C9 at work: a two-vertex ring leaves the 4 x 4 grid alone. *)
Lemma C9_witness_two_vertices :
  Raster._fill_polygon Fixtures.clear4 Fixtures.two_vertex_ring Raster.WATER_TEMPLATE_ID
  = Ok (Fixtures.clear4, 0).
Proof.
  apply (C9_short_ring_is_noop Fixtures.clear4 Fixtures.two_vertex_ring Raster.WATER_TEMPLATE_ID).
  - unfold len. cbn. lia.
  - repeat constructor.
Defined.

Section RiverSmoothing.
Import Raster Overlay Spec.

(** C5 (amended): in the river smoothing pass, for every collected sample
    (i, j, orient) inside the grid, a river template is stamped if and only if
    cell (i, j) still holds the water template and the water fraction of the
    9 x 9 window centred at (i, j), clipped at the grid edges, does not exceed
    0.45 (a fraction of exactly 0.45 is stamped); when stamped, a vertical
    sample stamps the 3 x 2 template 117 anchored at (i-1, j) and a horizontal
    sample stamps template 121 when i + j is even and 122 when it is odd. *)
Theorem C5_river_stamp_rule (tt tv : Grid) (w h ii jj orient cnt : Z) :
  rectangular w h tt -> 0 <= ii < w -> 0 <= jj < h ->
  river_sample_follows_rule tt tv w h ii jj orient cnt.
Proof.
  intros Hrect Hi Hj. unfold river_sample_follows_rule. cbv zeta.
  split; [now apply river_sample_rule|].
  assert (Hstamp : river_stamp_for ii jj orient <> Skip).
  { unfold river_stamp_for. repeat case_match; discriminate. }
  assert (Hshape :
    (orient = 0 ->
       river_stamp_for ii jj orient = Stamp (ii - 1) jj 117 /\
       TEMPLATE_SIZES !! 117 = Some (3, 2)) /\
    (orient <> 0 -> Z.even (ii + jj) = true ->
       river_stamp_for ii jj orient = Stamp ii jj 121) /\
    (orient <> 0 -> Z.even (ii + jj) = false ->
       river_stamp_for ii jj orient = Stamp ii jj 122)).
  { unfold river_stamp_for. split; [|split].
    - intros ->. split; reflexivity.
    - intros Ho He. apply Z.eqb_neq in Ho. now rewrite Ho, He.
    - intros Ho He. apply Z.eqb_neq in Ho. now rewrite Ho, He. }
  unfold river_rule. cbv zeta.
  destruct (Z.eqb_spec (cell_at tt ii jj) WATER_TEMPLATE_ID) as [Hc|Hc];
    destruct (Z.leb_spec (20 * water_cells_in tt (clipped_window w h ii jj 4))
                         (9 * len (clipped_window w h ii jj 4))) as [Hf|Hf];
    cbn [andb].
  - split; [split; [now split | now intros _]|]. split; [reflexivity | exact Hshape].
  - split; [split; [now intros Hs | intros [_ ?]; lia]|].
    split; [now intros Hs | exact Hshape].
  - split; [split; [now intros Hs | intros [? _]; contradiction]|].
    split; [now intros Hs | exact Hshape].
  - split; [split; [now intros Hs | intros [? _]; contradiction]|].
    split; [now intros Hs | exact Hshape].
Qed.

End RiverSmoothing.

(** C5, as worded, fails at a water fraction of exactly 0.45: around cell
    (0, 3) of the river-mouth grid 18 of the 40 window cells are water, so the
    fraction is not below 0.45 and the worded rule skips the sample, yet the
    pass stamps template 117 there (the code skips only when the fraction
    exceeds 0.45). *)
Lemma C5_counterexample_fraction_equal_threshold :
  Spec.water_cells_in Fixtures.bay8 (Spec.clipped_window 8 8 0 3 4) = 18 /\
  len (Spec.clipped_window 8 8 0 3 4) = 40 /\
  Spec.river_rule_below Fixtures.bay8 8 8 0 3 0 = Spec.Skip /\
  Overlay.river_sample (0, 3, 0) (Fixtures.bay8, Fixtures.zeros8, 0)
  = Ok ([ [1; 1; 1; 117; 117; 1; 1; 1]; [1; 1; 1; 117; 117; 1; 1; 1];
          [1; 1; 255; 255; 255; 255; 255; 255] ] ++ replicate 5 (replicate 8 255),
        [ [0; 0; 0; 1; 4; 0; 0; 0]; [0; 0; 0; 2; 5; 0; 0; 0] ]
          ++ replicate 6 (replicate 8 0),
        4) /\
  Overlay.river_sample (0, 3, 0) (Fixtures.bay8, Fixtures.zeros8, 0)
  <> Spec.apply_river_action (Spec.river_rule_below Fixtures.bay8 8 8 0 3 0)
       (Fixtures.bay8, Fixtures.zeros8, 0).
Proof.
  split; [vm_compute; reflexivity|].
  split; [vm_compute; reflexivity|].
  split; [vm_compute; reflexivity|].
  split; [vm_compute; reflexivity|].
  vm_compute. discriminate.
Qed.

(** C5 at work on the same sample: the pass follows the rule of the code. *)
Lemma C5_witness_river_mouth :
  Spec.river_sample_follows_rule Fixtures.bay8 Fixtures.zeros8 8 8 0 3 0 0.
Proof.
  apply (C5_river_stamp_rule Fixtures.bay8 Fixtures.zeros8 8 8 0 3 0 0).
  - split; [reflexivity | repeat constructor].
  - lia.
  - lia.
Defined.

Section Classifier.
Import Raster Overlay Spec.
Context `{Geo.Utm}.
Variables (center : Geo.Center) (bounds : Geo.Bounds) (mpc : float).
Variables (tt : Grid) (nodes_by_id : gmap Z (float * float)).

(** C6 (amended): for every input feature collection on which the classifier
    completes, the forest set holds exactly the cells covered by a
    forest-tagged polygon (or listed in the forest mask) and the built-up set
    exactly the cells covered by a polygon that is built-up-tagged and not
    forest-tagged (or listed in the built-up mask). So a cell covered by both
    classes ends up in the forest set, and also in the built-up set when the
    built-up polygon is a distinct feature: the two sets are disjoint only
    when no cell has a source of each class. A single polygon carrying both
    kinds of tag is filed under forest alone. *)
Theorem C6_classifier_sets (elements : list Element)
    (masks : option (gset (Z * Z) * gset (Z * Z))) (F B : gset (Z * Z)) :
  classify center bounds mpc tt nodes_by_id elements masks = Ok (F, B) ->
  classified_as center bounds mpc tt nodes_by_id elements masks F B /\
  (forall id nodes tags,
     tags <> ∅ -> is_forest tags = true ->
     element_class (Way id nodes tags) = Some (ForestClass, nodes)).
Proof.
  intros Hrun. destruct (classify_sets center bounds mpc tt nodes_by_id elements masks F B Hrun)
    as [HF HB].
  split; [split; [exact HF | split; [exact HB|]]|].
  - intros Hno. apply elem_of_disjoint. intros c Hf Hb.
    apply (Hno c). split; [now apply HF | now apply HB].
  - intros id nodes tags Hne Hf. unfold element_class.
    destruct (decide (tags = ∅)); [contradiction|]. now rewrite Hf.
Qed.

End Classifier.

(** C6, as worded, fails: with a forest polygon over cells (0..1, 0..1) and a
    distinct residential polygon over cells (1..2, 1..2), cell (1, 1) is in the
    forest set and in the built-up set, which are therefore not disjoint. *)
Lemma C6_counterexample_overlapping_polygons :
  Overlay.classify (H := Fixtures.flat_utm) Fixtures.aoi_center Fixtures.aoi_bounds
    Fixtures.aoi_mpc Fixtures.clear8 (Overlay.collect_nodes Fixtures.overlapping_landuse)
    Fixtures.overlapping_landuse None
  = Ok (list_to_set [(0, 0); (0, 1); (1, 0); (1, 1)],
        list_to_set [(1, 1); (1, 2); (2, 1); (2, 2)]) /\
  (1, 1) ∈ (list_to_set [(0, 0); (0, 1); (1, 0); (1, 1)] : gset (Z * Z)) /\
  (1, 1) ∈ (list_to_set [(1, 1); (1, 2); (2, 1); (2, 2)] : gset (Z * Z)) /\
  ~ (list_to_set [(0, 0); (0, 1); (1, 0); (1, 1)] : gset (Z * Z))
      ## list_to_set [(1, 1); (1, 2); (2, 1); (2, 2)].
Proof.
  split; [vm_compute; reflexivity|].
  split; [set_solver|]. split; [set_solver|].
  intros Hd. apply (elem_of_disjoint (C := gset (Z * Z))) in Hd.
  apply (Hd (1, 1)); set_solver.
Qed.

(** C6 at work: the two sets of that feature collection are the covers of
    their classes. *)
Lemma C6_witness_overlapping_polygons :
  Spec.classified_as (H := Fixtures.flat_utm) Fixtures.aoi_center Fixtures.aoi_bounds
    Fixtures.aoi_mpc Fixtures.clear8 (Overlay.collect_nodes Fixtures.overlapping_landuse)
    Fixtures.overlapping_landuse None
    (list_to_set [(0, 0); (0, 1); (1, 0); (1, 1)])
    (list_to_set [(1, 1); (1, 2); (2, 1); (2, 2)]).
Proof.
  refine (proj1 (C6_classifier_sets (H := Fixtures.flat_utm) Fixtures.aoi_center
           Fixtures.aoi_bounds Fixtures.aoi_mpc Fixtures.clear8
           (Overlay.collect_nodes Fixtures.overlapping_landuse)
           Fixtures.overlapping_landuse None _ _ _)).
  vm_compute. reflexivity.
Defined.

Section Placement.
Import Raster Overlay Spec.
Variables (width height : Z) (tiles_type : Grid).
Variables (building_density : float) (max_buildings building_search_radius : Z).
Variable (building_placement_mode : string).
Variables (veg_density : float) (max_veg_actors veg_min_spacing veg_patch_size : Z).
Variables (veg_patch_boost : float) (suppress_veg_near_roads suppress_veg_near_buildings : Z).
Variables (builtup_cells road_cells occupied_cells : gset (Z * Z)).

(** C2: whatever the grid, the candidates and the random draws, when the
    building stage completes no grid cell is covered by the footprints of two
    placed building actors, and the occupied set is the union of the placed
    footprints. Each candidate, from any state, either leaves the actors and
    the occupied set alone or appends one actor whose every footprint cell was
    checked absent from the occupied set, all of them being added to it
    before the next candidate is looked at. *)
Theorem C2_building_footprints_exclusive
    (include_buildings : bool) (ways relations : list Candidate) (rng0 : Rng) (st : BState) :
  building_stage width height tiles_type building_density max_buildings
    building_search_radius building_placement_mode include_buildings ways relations rng0
  = Ok st ->
  exclusive (extra_actors st) /\
  (forall c, c ∈ Overlay.occupied_cells st <->
     exists a, a ∈ extra_actors st /\ c ∈ footprint a) /\
  (forall id_type osm_id xs ys s s',
     _place_from_bbox width height tiles_type building_density max_buildings
       building_search_radius building_placement_mode id_type osm_id xs ys s = Ok s' ->
     check_then_commit s s').
Proof.
  intros Hrun.
  destruct (building_stage_invariant _ _ _ _ _ _ _ _ _ _ _ _ Hrun) as [(_ & Hocc & Hex) _].
  split; [exact Hex|]. split; [exact Hocc|].
  intros id_type osm_id xs ys s s'. apply place_from_bbox_check_then_commit.
Qed.

(** C3 (general part): whatever the forest cells, their iteration order and
    the random draws, when the vegetation stage with configured minimum
    spacing s >= 0 completes, any two distinct vegetation actors it placed are
    at Chebyshev distance at least s; for s > 0 they are even farther apart
    than s, since a cell at distance exactly s from a placed tree is
    rejected. *)
Theorem C3_vegetation_spacing
    (include_vegetation : bool) (forest_iter : list (Z * Z)) (rng0 : Rng) (st : VState) :
  0 <= veg_min_spacing ->
  vegetation_stage width height tiles_type veg_density max_veg_actors veg_min_spacing
    veg_patch_size veg_patch_boost suppress_veg_near_roads suppress_veg_near_buildings
    builtup_cells road_cells occupied_cells include_vegetation forest_iter rng0 = Ok st ->
  spaced veg_min_spacing (veg_actors st) /\
  (0 < veg_min_spacing -> spaced (veg_min_spacing + 1) (veg_actors st)).
Proof.
  intros Hs Hrun.
  destruct (vegetation_stage_invariant _ _ _ _ _ _ _ _ _ _ _ _ _ _ _ _ _ Hrun)
    as [(_ & _ & Hsp) _].
  unfold spacing in Hsp. rewrite Z.max_r in Hsp by lia.
  destruct (Z.ltb_spec 0 veg_min_spacing) as [Hpos|Hzero].
  - split; [|intros _; exact Hsp]. intros m n a b Hmn Hm Hn.
    specialize (Hsp m n a b Hmn Hm Hn). lia.
  - split; [|lia]. replace veg_min_spacing with 0 by lia. exact Hsp.
Qed.

(** C4: with caps max_buildings >= 0 and max_veg_actors >= 0, whatever the
    inputs and the random draws, the building stage never ends with more than
    max_buildings building actors nor the vegetation stage with more than
    max_veg_actors vegetation actors, and once a cap is reached every further
    candidate of that kind leaves the state as it is. *)
Theorem C4_placement_caps :
  0 <= max_buildings -> 0 <= max_veg_actors ->
  caps_respected width height tiles_type building_density max_buildings
    building_search_radius building_placement_mode veg_density max_veg_actors
    veg_min_spacing veg_patch_size veg_patch_boost suppress_veg_near_roads
    suppress_veg_near_buildings builtup_cells road_cells occupied_cells.
Proof.
  intros Hb Hv. unfold caps_respected. repeat apply conj.
  - intros include_buildings ways relations rng0 st Hrun.
    destruct (building_stage_invariant _ _ _ _ _ _ _ _ _ _ _ _ Hrun) as [(Hcount & _) Hcap].
    split; [exact Hcount|]. rewrite <- Hcount. now apply Hcap.
  - intros include_vegetation forest_iter rng0 st Hrun.
    destruct (vegetation_stage_invariant _ _ _ _ _ _ _ _ _ _ _ _ _ _ _ _ _ Hrun)
      as [(Hcount & _) Hcap].
    split; [exact Hcount|]. rewrite <- Hcount. lia.
  - intros st id_type osm_id xs ys Hcap. unfold _place_from_bbox.
    now destruct (Z.leb_spec max_buildings (placed_b st)); [|lia].
  - intros st candidates Hcap. now apply building_pass_at_cap.
  - intros st high forest_iter Hcap. destruct forest_iter; cbn [veg_loop]; [reflexivity|].
    unfold target. now destruct (Z.leb_spec max_veg_actors (placed st)); [|lia].
Qed.

End Placement.

(** C2 at work: two candidates with the same outline end up side by side, the
    second one moved by the search to the first free place. *)
Lemma C2_witness_same_outline :
  map Overlay.location (Spec.buildings_of (Fixtures.two_buildings 1200)) = [(0, 0); (2, 0)] /\
  map Overlay.dims (Spec.buildings_of (Fixtures.two_buildings 1200)) = [(2, 2); (2, 2)] /\
  Spec.exclusive (Spec.buildings_of (Fixtures.two_buildings 1200)).
Proof.
  split; [vm_compute; reflexivity|]. split; [vm_compute; reflexivity|].
  destruct (Fixtures.two_buildings 1200) as [st|e] eqn:E; [|vm_compute in E; discriminate].
  exact (proj1 (C2_building_footprints_exclusive 8 8 Fixtures.clear8 1 1200 2 "accurate"
                  true [Fixtures.same_outline; Fixtures.same_outline] []
                  Fixtures.rng_half st E)).
Defined.

(** C3, as worded, fails in its worked example: the outcome depends on the
    order in which the set of forest cells is iterated, which the code leaves
    to the set. In the order (1,1), (5,5), (0,0) (the order in which CPython
    3.11 iterates the set {(0,0), (1,1), (5,5)}) a vegetation actor is placed
    at (1,1) and at (5,5), and the cell (0,0) is the one suppressed. *)
Lemma C3_counterexample_iteration_order :
  map Overlay.location (Spec.trees_of (Fixtures.spacing_example [(1, 1); (5, 5); (0, 0)]))
  = [(1, 1); (5, 5)] /\
  (1, 1) ∈ map Overlay.location
             (Spec.trees_of (Fixtures.spacing_example [(1, 1); (5, 5); (0, 0)])) /\
  (0, 0) ∉ map Overlay.location
             (Spec.trees_of (Fixtures.spacing_example [(1, 1); (5, 5); (0, 0)])).
Proof.
  assert (E : map Overlay.location
                (Spec.trees_of (Fixtures.spacing_example [(1, 1); (5, 5); (0, 0)]))
              = [(1, 1); (5, 5)]) by (vm_compute; reflexivity).
  rewrite E. split; [reflexivity|]. split; [now left|].
  intros Hin. apply elem_of_cons in Hin as [Hin|Hin]; [discriminate|].
  apply elem_of_cons in Hin as [Hin|Hin]; [discriminate | inversion Hin].
Qed.

(** The worked example of C3 in every iteration order of its three forest
    cells: (5,5) is always placed, and of (0,0) and (1,1) the one that comes
    first is placed and the other suppressed. *)
Lemma spacing_example_all_orders :
  map (fun order => map Overlay.location (Spec.trees_of (Fixtures.spacing_example order)))
      [ [(0, 0); (1, 1); (5, 5)]; [(0, 0); (5, 5); (1, 1)]; [(5, 5); (0, 0); (1, 1)];
        [(1, 1); (0, 0); (5, 5)]; [(1, 1); (5, 5); (0, 0)]; [(5, 5); (1, 1); (0, 0)] ]
  = [ [(0, 0); (5, 5)]; [(0, 0); (5, 5)]; [(5, 5); (0, 0)];
      [(1, 1); (5, 5)]; [(1, 1); (5, 5)]; [(5, 5); (1, 1)] ].
Proof. vm_compute. reflexivity. Qed.

(** C3 at work, in the iteration order (0,0), (1,1), (5,5): trees at (0,0) and
    (5,5), none at (1,1), and the two trees are at distance 5 >= 2. *)
Lemma C3_witness_example_in_order :
  map Overlay.location (Spec.trees_of (Fixtures.spacing_example [(0, 0); (1, 1); (5, 5)]))
  = [(0, 0); (5, 5)] /\
  Spec.spaced 2 (Spec.trees_of (Fixtures.spacing_example [(0, 0); (1, 1); (5, 5)])).
Proof.
  split; [vm_compute; reflexivity|].
  destruct (Fixtures.spacing_example [(0, 0); (1, 1); (5, 5)]) as [st|e] eqn:E;
    [|vm_compute in E; discriminate].
  refine (proj1 (C3_vegetation_spacing 8 8 Fixtures.clear8 1 4000 2 32 1.5 1 1 ∅ ∅ ∅
                   true [(0, 0); (1, 1); (5, 5)] Fixtures.rng_half st _ E)).
  lia.
Defined.

(** C4 at work: with both caps at 1, the second building candidate and the
    later forest cells place nothing. *)
Lemma C4_witness_caps_of_one :
  Spec.caps_respected 8 8 Fixtures.clear8 1 1 2 "accurate" 1 1 2 32 1.5 1 1 ∅ ∅ ∅ /\
  map Overlay.location (Spec.buildings_of (Fixtures.two_buildings 1)) = [(0, 0)] /\
  map Overlay.location
    (Spec.trees_of (Overlay.vegetation_stage 8 8 Fixtures.clear8 1 1 2 32 1.5 1 1 ∅ ∅ ∅
                      true [(0, 0); (5, 5); (1, 1)] Fixtures.rng_half))
  = [(0, 0)].
Proof.
  split; [|split; vm_compute; reflexivity].
  apply (C4_placement_caps 8 8 Fixtures.clear8 1 1 2 "accurate" 1 1 2 32 1.5 1 1 ∅ ∅ ∅); lia.
Defined.

(* ===================================================================== *)
(** * Part IV. Further properties of the code                             *)
(* ===================================================================== *)

(** ** MapEncoder *)

Section EncoderExtras.
Import Encoder Spec Format.

(** X1: for every w x h map whose header fields fit their slots, with or
    without the heights layer, both encoders return a stream that reads back
    as laid out: format 2, width w, height h, tiles offset 17, heights offset
    17 + 3wh (0 without heights), resources offset 17 + 4wh (17 + 3wh without
    heights), total length resources offset + 2wh, and the heights and
    resources sections all zero. *)
Theorem X1_encoder_sections (w h tid var : Z) (tt tv : list (list Z)) (ih : bool) :
  1 <= w -> 1 <= h -> fields_fit w h ih -> 0 <= tid < 65536 ->
  rectangular w h tt -> rectangular w h tv -> fits_u16 tt ->
  (exists out, build_map_bin w h tid var ih = Ok out /\ laid_out w h ih out) /\
  (exists out, build_map_bin_from_grid tt tv ih = Ok out /\ laid_out w h ih out).
Proof.
  intros Hw Hh Hfit Ht Htt Htv Hu. split.
  - eexists. split; [now apply build_map_bin_stream | now apply stream_laid_out].
  - eexists. split; [|now apply stream_laid_out].
    apply (from_grid_stream w h); try assumption;
      [pose proof (proj1 Htv); lia | apply Htv].
Qed.

Lemma X1_witness_2x2_with_heights :
  (exists out, build_map_bin 2 2 255 0 true = Ok out /\ laid_out 2 2 true out) /\
  (exists out, build_map_bin_from_grid Samples.types2 Samples.variants2 true = Ok out /\
               laid_out 2 2 true out).
Proof.
  apply (X1_encoder_sections 2 2 255 0 Samples.types2 Samples.variants2 true).
  - lia.
  - lia.
  - unfold fields_fit. cbn. lia.
  - lia.
  - split; [reflexivity | repeat constructor].
  - split; [reflexivity | repeat constructor].
  - repeat constructor; lia.
Defined.

(** X2: the tiles section is a faithful copy of the grids, column by column:
    reading the tile of any cell (i, j) back from the stream the grid encoder
    returns gives the cell's template id and the low byte of its variant
    index; from the stream of the uniform encoder it gives the default
    template and the low byte of the default variant. *)
Theorem X2_encoder_tile_round_trip (w h tid var : Z) (tt tv : list (list Z)) (ih : bool) :
  1 <= w -> 1 <= h -> fields_fit w h ih -> 0 <= tid < 65536 ->
  rectangular w h tt -> rectangular w h tv -> fits_u16 tt ->
  (exists out, build_map_bin_from_grid tt tv ih = Ok out /\
     forall i j, 0 <= i < w -> 0 <= j < h ->
       read_tile out i j = (cell_at tt i j, Z.land (cell_at tv i j) 255)) /\
  (exists out, build_map_bin w h tid var ih = Ok out /\
     forall i j, 0 <= i < w -> 0 <= j < h -> read_tile out i j = (tid, Z.land var 255)).
Proof.
  intros Hw Hh Hfit Ht Htt Htv Hu. split.
  - eexists. split.
    + apply (from_grid_stream w h); try assumption;
        [pose proof (proj1 Htv); lia | apply Htv].
    + intros i j Hi Hj.
      apply (read_tile_stream w h ih (fun i j => (cell_at tt i j, cell_at tv i j)));
        try assumption.
      cbn [fst]. now apply (fits_u16_cell w h).
  - eexists. split; [now apply build_map_bin_stream|].
    intros i j Hi Hj. now apply (read_tile_stream w h ih (fun _ _ => (tid, var))).
Qed.

Lemma X2_witness_read_back_2x2 :
  (exists out, build_map_bin_from_grid Samples.types2 Samples.variants2 false = Ok out /\
     forall i j, 0 <= i < 2 -> 0 <= j < 2 ->
       read_tile out i j
       = (cell_at Samples.types2 i j, Z.land (cell_at Samples.variants2 i j) 255)) /\
  (exists out, build_map_bin 2 2 255 0 false = Ok out /\
     forall i j, 0 <= i < 2 -> 0 <= j < 2 -> read_tile out i j = (255, Z.land 0 255)).
Proof.
  apply (X2_encoder_tile_round_trip 2 2 255 0 Samples.types2 Samples.variants2 false).
  - lia.
  - lia.
  - unfold fields_fit. cbn. lia.
  - lia.
  - split; [reflexivity | repeat constructor].
  - split; [reflexivity | repeat constructor].
  - repeat constructor; lia.
Defined.

(** X3: the uniform encoder is the grid encoder run on constant grids: for
    every width and height from 1 up, [build_map_bin] returns, or raises,
    exactly what [build_map_bin_from_grid] does on the w x h grids that hold
    the default template and the default variant everywhere. *)
Theorem X3_uniform_encoder_is_constant_grid (w h tid var : Z) (ih : bool) :
  1 <= w -> 1 <= h ->
  build_map_bin w h tid var ih
  = build_map_bin_from_grid (replicate (Z.to_nat w) (replicate (Z.to_nat h) tid))
                            (replicate (Z.to_nat w) (replicate (Z.to_nat h) var)) ih.
Proof. apply build_map_bin_constant_grid. Qed.

Lemma X3_witness_3x2 :
  build_map_bin 3 2 255 7 true
  = build_map_bin_from_grid [[255; 255]; [255; 255]; [255; 255]] [[7; 7]; [7; 7]; [7; 7]] true.
Proof. apply (X3_uniform_encoder_is_constant_grid 3 2 255 7 true); lia. Defined.

(** X4: [build_map_bin] fails in one way only. It returns a stream exactly
    when the header fields fit (0 <= w, h <= 65535 and the resources offset
    below 2^32) and, if there is any tile to write, the default template id
    fits a uint16; in every other case it raises OverflowError. With a zero
    width or height it returns the bare 17-byte header. *)
Theorem X4_build_map_bin_overflow_only (w h tid var : Z) (ih : bool) :
  ((exists out, build_map_bin w h tid var ih = Ok out) <->
   fields_fit w h ih /\ (0 < w -> 0 < h -> 0 <= tid < 65536)) /\
  (forall e, build_map_bin w h tid var ih = Raise e -> e = OverflowError) /\
  (fields_fit w h ih -> w = 0 \/ h = 0 ->
   build_map_bin w h tid var ih = Ok (header_bytes w h ih)).
Proof.
  assert (Hdec : (fields_fit w h ih /\ (0 < w -> 0 < h -> 0 <= tid < 65536)) \/
                 ~ (fields_fit w h ih /\ (0 < w -> 0 < h -> 0 <= tid < 65536))).
  { destruct (classic_fit w h ih); [|tauto].
    destruct (decide (0 < w -> 0 < h -> 0 <= tid < 65536)); tauto. }
  split; [|split].
  - split.
    + intros [out Hout]. destruct Hdec as [Hok|Hbad]; [exact Hok|].
      rewrite build_map_bin_overflow in Hout by assumption. discriminate.
    + intros [Hfit Ht]. eexists. now apply build_map_bin_stream.
  - intros e He. destruct Hdec as [[Hfit Ht]|Hbad].
    + rewrite build_map_bin_stream in He by assumption. discriminate.
    + rewrite build_map_bin_overflow in He by assumption. congruence.
  - intros Hfit Hz. rewrite build_map_bin_stream by (assumption || lia).
    f_equal. unfold stream, tiles_section, cells_of.
    destruct Hz as [-> | ->].
    + cbn. destruct ih; now rewrite ?app_nil_r.
    + replace (w * 0) with 0 by lia.
      replace (range w ≫= (fun i => range 0 ≫= (fun j => [(i, j)]))) with (@nil (Z * Z)).
      * cbn. destruct ih; now rewrite ?app_nil_r.
      * induction (range w) as [|x xs IH]; [reflexivity|]. now rewrite bind_cons, <- IH.
Qed.


(** X5: the grid encoder of [cli.py] validates column heights before it
    encodes anything: for a type grid with a nonempty first column, if some
    column of the type grid or of the variant grid has another height than
    the first column of the type grid, the call raises ValueError (whatever
    the sizes and the tile values are). *)
Theorem X5_grid_encoder_rejects_ragged (col0 : list Z) (rest tv : list (list Z)) (ih : bool) :
  col0 <> [] ->
  ~ (Forall (fun col => len col = len col0) (col0 :: rest) /\
     Forall (fun col => len col = len col0) tv) ->
  build_map_bin_from_grid (col0 :: rest) tv ih = Raise ValueError.
Proof. intros Hne Hbad. now apply (from_grid_ragged _ tv col0 rest). Qed.

Lemma X5_witness_short_second_column :
  build_map_bin_from_grid [[255; 255]; [255]] [[0; 0]; [0; 0]] false = Raise ValueError.
Proof.
  apply (X5_grid_encoder_rejects_ragged [255; 255] [[255]] [[0; 0]; [0; 0]] false).
  - discriminate.
  - intros [Ht _]. apply Forall_cons in Ht as [_ Ht]. apply Forall_cons in Ht as [Ht _].
    vm_compute in Ht. discriminate.
Defined.

(** X6: the width of the variant grid is not validated. With a well-formed
    type grid and variant columns of the right height, a variant grid with
    fewer columns than the type grid makes the encoder raise IndexError (at
    the first missing column), and a variant grid with more columns is
    accepted, the spare columns being ignored. *)
Theorem X6_variant_width_not_validated (w h : Z) (tt tv : list (list Z)) (ih : bool) :
  1 <= w -> 1 <= h -> fields_fit w h ih ->
  rectangular w h tt -> fits_u16 tt -> Forall (fun col => len col = h) tv ->
  (len tv < w -> build_map_bin_from_grid tt tv ih = Raise IndexError) /\
  (w <= len tv ->
   exists out, build_map_bin_from_grid tt tv ih = Ok out /\
               build_map_bin_from_grid tt (take (Z.to_nat w) tv) ih = Ok out).
Proof.
  intros Hw Hh Hfit Htt Hu Htv. split.
  - intros Hlt. now apply (from_grid_narrow_variant w h).
  - intros Hle. eexists. split; [now apply (from_grid_stream w h)|].
    rewrite (from_grid_stream w h); try assumption.
    + f_equal. unfold stream. f_equal. f_equal. apply tiles_section_ext.
      intros i j Hi Hj. unfold cell_at. now rewrite lookup_total_take_lt by lia.
    + unfold len in *. rewrite length_take. lia.
    + now apply Forall_take.
Qed.

Lemma X6_witness_narrow_variant :
  (len [[0; 0]] < 2 ->
   build_map_bin_from_grid Samples.types2 [[0; 0]] false = Raise IndexError) /\
  (2 <= len [[0; 0]] ->
   exists out, build_map_bin_from_grid Samples.types2 [[0; 0]] false = Ok out /\
               build_map_bin_from_grid Samples.types2 (take (Z.to_nat 2) [[0; 0]]) false
               = Ok out).
Proof.
  apply (X6_variant_width_not_validated 2 2 Samples.types2 [[0; 0]] false).
  - lia.
  - lia.
  - unfold fields_fit. cbn. lia.
  - split; [reflexivity | repeat constructor].
  - repeat constructor; lia.
  - repeat constructor.
Defined.

(** X7: the grid encoder of [cli_enhance_river.py], which has no validation
    loops, accepts everything the encoder of [cli.py] accepts and returns the
    same stream; it accepts more: a variant column that is too long makes
    [cli.py] raise ValueError and is silently cut short by
    [cli_enhance_river.py]. *)
Theorem X7_enhance_river_encoder_accepts_more :
  (forall tt tv ih out,
     build_map_bin_from_grid tt tv ih = Ok out ->
     EnhanceRiver.build_map_bin_from_grid tt tv ih = Ok out) /\
  build_map_bin_from_grid [[255]] [[0; 9]] false = Raise ValueError /\
  EnhanceRiver.build_map_bin_from_grid [[255]] [[0; 9]] false
  = EnhanceRiver.build_map_bin_from_grid [[255]] [[0]] false /\
  exists out, EnhanceRiver.build_map_bin_from_grid [[255]] [[0; 9]] false = Ok out.
Proof.
  split; [exact enhance_river_agrees|].
  split; [vm_compute; reflexivity|].
  split; [vm_compute; reflexivity|].
  eexists. vm_compute. reflexivity.
Qed.

End EncoderExtras.
(** ** VectorRasterizer *)

Section RasterExtras.
Import Raster Spec Painting Strokes.

(** X8: [_rasterize_line] reports exactly the cells it changed, although it
    draws overlapping discs: whenever a call returns (g', n), g' is g with
    some cells repainted with the value (and nothing else touched), n is the
    number of cells that differ between g and g' (the docstring's "approx" is
    exact), and running the same call again on g' returns 0 and leaves g' as
    it is. This holds whatever [math.hypot] computes. *)
Theorem X8_rasterize_line_counts_changes `{Libm}
    (g g' : Grid) (x0 y0 x1 y1 rc : float) (v n : Z) :
  _rasterize_line g x0 y0 x1 y1 rc v = Ok (g', n) ->
  repaints v g g' /\ n = changed_cells g g' /\
  _rasterize_line g' x0 y0 x1 y1 rc v = Ok (g', 0).
Proof.
  intros Hrun.
  destruct (rasterize_line_from g g g' x0 y0 x1 y1 rc v n (repaints_refl v g) Hrun)
    as (Hrep & Hn & Hagain).
  split; [exact Hrep|]. rewrite changed_cells_refl in Hn. split; [lia|].
  apply Hagain, repaints_refl.
Qed.

Lemma X8_witness_horizontal_line :
  repaints 1 Fixtures.clear8
    ([replicate 8 255] ++ replicate 5 [255; 1; 255; 255; 255; 255; 255; 255]
       ++ replicate 2 (replicate 8 255)) /\
  5 = changed_cells Fixtures.clear8
        ([replicate 8 255] ++ replicate 5 [255; 1; 255; 255; 255; 255; 255; 255]
           ++ replicate 2 (replicate 8 255)) /\
  _rasterize_line (H := Samples.plain_libm)
    ([replicate 8 255] ++ replicate 5 [255; 1; 255; 255; 255; 255; 255; 255]
       ++ replicate 2 (replicate 8 255)) 1.5 1.5 5.5 1.5 0.5 1
  = Ok ([replicate 8 255] ++ replicate 5 [255; 1; 255; 255; 255; 255; 255; 255]
          ++ replicate 2 (replicate 8 255), 0).
Proof.
  apply (X8_rasterize_line_counts_changes (H := Samples.plain_libm)
           Fixtures.clear8 _ 1.5 1.5 5.5 1.5 0.5 1 5).
  vm_compute. reflexivity.
Defined.

(** X9: [_draw_disc] and [_fill_polygon] write nothing but the value, and
    only inside the bounding box they scan. Whenever a call returns, the grid
    keeps its shape and every cell (i, j) holds the value if it lies in the
    scanned window (the bounding box widened by one cell and clipped to the
    grid) and passes the test (centre within the radius; centre inside the
    ring), and is unchanged otherwise. *)
Theorem X9_disc_and_polygon_frame
    (g g' : Grid) (cx cy rc : float) (p : float * float) (rest : list (float * float))
    (v n : Z) :
  (_draw_disc g cx cy rc v = Ok (g', n) ->
   let r := fmax 0 rc in
   exists cs,
     window (len g) (grid_height g) (cx - r) (cx + r) (cy - r) (cy + r) = Ok cs /\
     map length g' = map length g /\
     forall i j, 0 <= i -> 0 <= j ->
       lookup2 g' i j
       = if bool_decide ((i, j) ∈ cs)
            && chosen (disc_sel (len g) (grid_height g) cx cy (r * r) i j)
         then Some v else lookup2 g i j) /\
  (_fill_polygon g (p :: rest) v = Ok (g', n) ->
   exists cs,
     window (len g) (grid_height g)
       (fold_left fmin (map fst rest) (fst p)) (fold_left fmax (map fst rest) (fst p))
       (fold_left fmin (map snd rest) (snd p)) (fold_left fmax (map snd rest) (snd p))
     = Ok cs /\
     map length g' = map length g /\
     forall i j, 0 <= i -> 0 <= j ->
       lookup2 g' i j
       = if bool_decide ((i, j) ∈ cs) && chosen (poly_sel (p :: rest) i j)
         then Some v else lookup2 g i j).
Proof.
  split.
  - rewrite draw_disc_loop. cbv zeta. intros Hrun.
    apply bind_inv_Ok in Hrun as (cs & Hcs & Hrun). exists cs. split; [exact Hcs|].
    destruct (paint_loop_from _ v (disc_sel_nonneg _ _ _ _ _) g cs g 0 g' n
                (repaints_refl v g) Hrun) as (Hrep & _ & Hsel & Hother).
    split; [apply Hrep|]. intros i j Hi Hj.
    case_bool_decide as Hin; cbn [andb].
    + destruct (Hsel _ Hin) as (b & Hb & Hv). cbn [fst snd] in *. rewrite Hb.
      destruct b; cbn [chosen]; [now apply Hv|].
      apply Hother; try assumption. intros [_ Hs]. congruence.
    + apply Hother; try assumption. now intros [? _].
  - rewrite fill_polygon_loop. intros Hrun.
    apply bind_inv_Ok in Hrun as (cs & Hcs & Hrun). exists cs. split; [exact Hcs|].
    destruct (paint_loop_from _ v (poly_sel_nonneg _) g cs g 0 g' n
                (repaints_refl v g) Hrun) as (Hrep & _ & Hsel & Hother).
    split; [apply Hrep|]. intros i j Hi Hj.
    case_bool_decide as Hin; cbn [andb].
    + destruct (Hsel _ Hin) as (b & Hb & Hv). cbn [fst snd] in *. rewrite Hb.
      destruct b; cbn [chosen]; [now apply Hv|].
      apply Hother; try assumption. intros [_ Hs]. congruence.
    + apply Hother; try assumption. now intros [? _].
Qed.

Lemma X9_witness_disc_on_clear_grid :
  exists cs,
    window 4 4 (2 - fmax 0 1) (2 + fmax 0 1) (2 - fmax 0 1) (2 + fmax 0 1) = Ok cs /\
    map length Fixtures.disc_drawn = map length Fixtures.clear4 /\
    forall i j, 0 <= i -> 0 <= j ->
      lookup2 Fixtures.disc_drawn i j
      = if bool_decide ((i, j) ∈ cs)
           && chosen (disc_sel 4 4 2 2 (fmax 0 1 * fmax 0 1) i j)
        then Some WATER_TEMPLATE_ID else lookup2 Fixtures.clear4 i j.
Proof.
  apply (proj1 (X9_disc_and_polygon_frame Fixtures.clear4 Fixtures.disc_drawn 2 2 1
                  (0%float, 0%float) [] WATER_TEMPLATE_ID 4)).
  vm_compute. reflexivity.
Defined.

End RasterExtras.

(** ** TemplateStamper *)

Section StamperExtras.
Import Raster Spec Painting.

(** X10: [_stamp_template] clips at the map edge instead of failing. On a
    w x h map (type and variant grids of that shape), stamping a template of
    size tw x th at anchor (i0, j0) always returns; it writes the template id,
    and the row-major index (j - j0) * tw + (i - i0) as variant, at exactly
    the cells of the block that lie inside the map, leaves every other cell
    of both grids as it was, and returns the number of cells written: the
    overlap of the block with the map. An id without a size entry is a no-op
    that returns 0. *)
Theorem X10_stamp_template_clips (w h : Z) (tt tv : Grid) (i0 j0 id : Z) :
  rectangular w h tt -> rectangular w h tv -> 0 < w ->
  (TEMPLATE_SIZES !! id = None -> _stamp_template tt tv i0 j0 id = Ok (tt, tv, 0)) /\
  (forall tw th, TEMPLATE_SIZES !! id = Some (tw, th) ->
   exists tt' tv',
     _stamp_template tt tv i0 j0 id
     = Ok (tt', tv',
           Z.max 0 (Z.min w (i0 + tw) - Z.max 0 i0)
           * Z.max 0 (Z.min h (j0 + th) - Z.max 0 j0)) /\
     rectangular w h tt' /\ rectangular w h tv' /\
     forall i j, 0 <= i -> 0 <= j ->
       lookup2 tt' i j
       = (if in_block i0 j0 tw th i j && in_bounds w h i j
          then Some id else lookup2 tt i j) /\
       lookup2 tv' i j
       = (if in_block i0 j0 tw th i j && in_bounds w h i j
          then Some ((j - j0) * tw + (i - i0)) else lookup2 tv i j)).
Proof.
  intros Htt Htv Hw. split.
  - intros Hnone. unfold _stamp_template. now rewrite Hnone.
  - intros tw th Hsize. destruct (template_sizes id tw th Hsize).
    apply stamp_template_spec; (assumption || lia).
Qed.

Lemma X10_witness_clipped_at_west_edge :
  (TEMPLATE_SIZES !! 117 = None ->
   _stamp_template Fixtures.bay8 Fixtures.zeros8 (-1) 3 117
   = Ok (Fixtures.bay8, Fixtures.zeros8, 0)) /\
  (forall tw th, TEMPLATE_SIZES !! 117 = Some (tw, th) ->
   exists tt' tv',
     _stamp_template Fixtures.bay8 Fixtures.zeros8 (-1) 3 117
     = Ok (tt', tv',
           Z.max 0 (Z.min 8 (-1 + tw) - Z.max 0 (-1))
           * Z.max 0 (Z.min 8 (3 + th) - Z.max 0 3)) /\
     rectangular 8 8 tt' /\ rectangular 8 8 tv' /\
     forall i j, 0 <= i -> 0 <= j ->
       lookup2 tt' i j
       = (if in_block (-1) 3 tw th i j && in_bounds 8 8 i j
          then Some 117 else lookup2 Fixtures.bay8 i j) /\
       lookup2 tv' i j
       = (if in_block (-1) 3 tw th i j && in_bounds 8 8 i j
          then Some ((j - 3) * tw + (i - -1)) else lookup2 Fixtures.zeros8 i j)).
Proof.
  apply (X10_stamp_template_clips 8 8 Fixtures.bay8 Fixtures.zeros8 (-1) 3 117).
  - split; [reflexivity | repeat constructor].
  - split; [reflexivity | repeat constructor].
  - lia.
Defined.

(** X11: [_local_water_fraction] (radius 4) never divides by zero and never
    leaves the unit interval. On every rectangular grid and for every centre,
    inside the grid or not, it returns 0.0 when the grid is empty or the 9 x 9
    window misses it, and otherwise float(water) / float(total), where total
    counts the window cells inside the grid and water those of them that hold
    the water template; the result lies between 0.0 and 1.0. *)
Theorem X11_local_water_fraction (w h : Z) (tt : Grid) (ci cj : Z) :
  rectangular w h tt ->
  let win := clipped_window w h ci cj 4 in
  exists f,
    _local_water_fraction tt ci cj 4 = Ok f /\
    f = (if (w =? 0) || (h =? 0) || (len win =? 0) then 0%float
         else (of_int (water_cells_in tt win) / of_int (len win))%float) /\
    (0 <=? f)%float = true /\ (f <=? 1)%float = true.
Proof.
  intros Hr win. eexists. split; [now apply (local_water_fraction_spec w h)|].
  split; [reflexivity|].
  subst win.
  destruct ((w =? 0) || (h =? 0) || (len (clipped_window w h ci cj 4) =? 0)) eqn:E;
    [now split|].
  apply orb_false_iff in E as [_ E]. apply Z.eqb_neq in E.
  apply fraction_in_unit_interval.
  - split; [unfold len in *; lia | apply clipped_window_le].
  - apply water_cells_in_le.
Qed.

Lemma X11_witness_river_mouth :
  exists f,
    _local_water_fraction Fixtures.bay8 0 3 4 = Ok f /\
    f = (if (8 =? 0) || (8 =? 0) || (len (clipped_window 8 8 0 3 4) =? 0) then 0%float
         else (of_int (water_cells_in Fixtures.bay8 (clipped_window 8 8 0 3 4))
               / of_int (len (clipped_window 8 8 0 3 4)))%float) /\
    (0 <=? f)%float = true /\ (f <=? 1)%float = true.
Proof.
  apply (X11_local_water_fraction 8 8 Fixtures.bay8 0 3).
  split; [reflexivity | repeat constructor].
Defined.

End StamperExtras.
